(** * MRP calculator: BOM explosion and requirements aggregation

    A shallow embedding of the computational core of [app.py] (class
    [MRPCalculator], in its three successive variants) and the proofs of
    its specified properties.

    Modelling conventions.
    - Python [str] values are Rocq [string]s; the text handled by the
      engine (material codes, unit tokens, the literals ['nan'], ['G'],
      ...) is ASCII, and [strip], [upper] and [lower] are the ASCII
      restrictions of the Python methods.
    - A Python [float] is a binary64 number, the primitive type [float]:
      products and sums round, overflow and underflow as in the program,
      and comparisons treat NaN and the two zeros as IEEE 754 does.
      Numbers read from a sheet are taken as floats.
    - A [dict] is an association list in insertion order with unique
      keys, which is what iteration over a Python dict observes.
    - Recursion that the source does not bound (the explosion and the
      all-levels push) takes a fuel argument and returns [None] when the
      fuel runs out. *)

From Stdlib Require Import String Ascii List ZArith QArith Qcanon Bool Lia.
From Stdlib Require Import Floats.
From stdpp Require Import base decidable option list numbers strings gmap sorting relations.

Import ListNotations.
Local Open Scope string_scope.
Local Open Scope list_scope.

#[local] Set Warnings "-inexact-float".

(** ** Python string methods (ASCII) *)

Module PyStr.

(** [str.isspace] on one ASCII character: TAB, LF, VT, FF, CR, the four
    separators FS, GS, RS, US, and the blank. *)
Definition isspace (c : ascii) : bool :=
  let n := nat_of_ascii c in
  ((9 <=? n)%nat && (n <=? 13)%nat) || ((28 <=? n)%nat && (n <=? 32)%nat).

Definition is_empty (s : string) : bool :=
  match s with EmptyString => true | String _ _ => false end.

Fixpoint lstrip (s : string) : string :=
  match s with
  | EmptyString => EmptyString
  | String c t => if isspace c then lstrip t else s
  end.

Fixpoint rstrip (s : string) : string :=
  match s with
  | EmptyString => EmptyString
  | String c t =>
      let t' := rstrip t in
      if isspace c && is_empty t' then EmptyString else String c t'
  end.

(** [s.strip()] *)
Definition strip (s : string) : string := lstrip (rstrip s).

Definition upper_char (c : ascii) : ascii :=
  let n := nat_of_ascii c in
  if ((97 <=? n)%nat && (n <=? 122)%nat) then ascii_of_nat (n - 32) else c.

Definition lower_char (c : ascii) : ascii :=
  let n := nat_of_ascii c in
  if ((65 <=? n)%nat && (n <=? 90)%nat) then ascii_of_nat (n + 32) else c.

Fixpoint map_chars (f : ascii -> ascii) (s : string) : string :=
  match s with
  | EmptyString => EmptyString
  | String c t => String (f c) (map_chars f t)
  end.

(** [s.upper()] and [s.lower()] *)
Definition upper : string -> string := map_chars upper_char.
Definition lower : string -> string := map_chars lower_char.

(** [s.startswith(c)] for a one-character prefix. *)
Definition startswith (s : string) (c : ascii) : bool :=
  match s with
  | EmptyString => false
  | String c' _ => bool_decide (c' = c)
  end.

(** [s.replace(",", ".")] *)
Definition replace_comma : string -> string :=
  map_chars (fun c => if bool_decide (c = ","%char) then "."%char else c).

End PyStr.

(** ** Quantities

    Equality of floats as values (one NaN, two zeros) is decided by the
    primitive test. *)

#[global] Instance float_eq_dec : EqDecision float.
Proof.
  intros x y. destruct (PrimFloat.Leibniz.eqb x y) eqn:E.
  - left. by apply FloatAxioms.Leibniz.eqb_spec.
  - right. intros H. apply FloatAxioms.Leibniz.eqb_spec in H. congruence.
Defined.

(** The explosion engine is written once over the arithmetic of its
    quantities: the zero a [defaultdict(float)] starts from, the [1.0] of
    a leaf, [*] and [+].  The program is the instance [binary64]; the
    instances at exact rationals and at checked binary64 arithmetic,
    further down, serve to say what rounding does to its results. *)

Class Arith (N : Type) := {
  a_zero : N;
  a_one : N;
  a_mul : N -> N -> N;
  a_add : N -> N -> N
}.

Declare Scope arith_scope.
Delimit Scope arith_scope with ar.
Notation "x * y" := (a_mul x y) : arith_scope.
Notation "x + y" := (a_add x y) : arith_scope.

#[global] Instance binary64 : Arith float :=
  {| a_zero := 0%float; a_one := 1%float;
     a_mul := PrimFloat.mul; a_add := PrimFloat.add |}.

(** ** Unit normaliser: [MRPCalculator.convert_quantity] *)

Definition gram_units : list string := ["G"; "GR"; "GRAM"; "GRAMS"].

Definition convert_quantity (quantity : float) (uom : string)
  : float * string :=
  let uom_clean := PyStr.upper (PyStr.strip uom) in
  if bool_decide (uom_clean ∈ gram_units)
  then ((quantity * 0.001)%float, "KG")
  else (quantity, uom_clean).

(** ** Dictionaries

    [dict V] is a Python [dict] with [str] keys: the entries in insertion
    order.  [dict_upd d k f] is the read-modify-write [d[k] = f(d.get(k))];
    an existing key keeps its position and a new key goes last. *)

Abbreviation dict V := (list (string * V)).

Fixpoint dict_get {V} (d : dict V) (k : string) : option V :=
  match d with
  | [] => None
  | (k', v) :: d' => if decide (k' = k) then Some v else dict_get d' k
  end.

(** [k in d] *)
Definition dict_mem {V} (d : dict V) (k : string) : bool :=
  match dict_get d k with Some _ => true | None => false end.

Fixpoint dict_upd {V} (d : dict V) (k : string) (f : option V -> V) : dict V :=
  match d with
  | [] => [(k, f None)]
  | (k', v) :: d' =>
      if decide (k' = k) then (k', f (Some v)) :: d'
      else (k', v) :: dict_upd d' k f
  end.

Definition dict_keys {V} (d : dict V) : list string := map fst d.

(** [d[k] += x] on a [defaultdict(float)]: a missing entry counts as
    [0.0], to which [x] is added. *)
Definition dict_add {N} `{Arith N} (d : dict N) (k : string) (x : N)
  : dict N :=
  dict_upd d k (fun o => (default a_zero o + x)%ar).

(** [d[k1][k2] += x] on a [defaultdict(lambda: defaultdict(float))]. *)
Definition dict_add2 (d : dict (dict float)) (k1 k2 : string) (x : float)
  : dict (dict float) :=
  dict_upd d k1 (fun o => dict_add (default [] o) k2 x).

(** [d[k].append(x)] on a [defaultdict(list)]. *)
Definition dict_append {A} (d : dict (list A)) (k : string) (x : A)
  : dict (list A) :=
  dict_upd d k (fun o => default [] o ++ [x]).

(** ** Material classification (second variant of the class) *)

Inductive material_type :=
| FinishedProduct       (* first character '5' *)
| ManufacturedProduct   (* first character '4' *)
| RawMaterial           (* first character '1' *)
| UnknownType.

#[global] Instance material_type_eq_dec : EqDecision material_type.
Proof. solve_decision. Defined.

Definition get_material_type (material_code : string) : material_type :=
  let material_str := PyStr.strip material_code in
  if PyStr.is_empty material_str || bool_decide (material_str = "nan")
  then UnknownType
  else match material_str with
       | EmptyString => UnknownType
       | String first_char _ =>
           if bool_decide (first_char = "5"%char) then FinishedProduct
           else if bool_decide (first_char = "4"%char) then ManufacturedProduct
           else if bool_decide (first_char = "1"%char) then RawMaterial
           else UnknownType
       end.

Definition is_raw_material (material_code : string) : bool :=
  bool_decide (get_material_type material_code = RawMaterial).

(** ** Explosion engine: [MRPCalculator.explode_unit]

    [relations] is [self.relations]: parent code to the list of
    (component, quantity per unit) pairs. *)

Abbreviation table N := (dict (list (string * N))).
Abbreviation relations := (table float).

(** [self.relations[item]] for a key that is present. *)
Definition rel_at {N} (rel : table N) (item : string) : list (string * N) :=
  default [] (dict_get rel item).

Definition is_nil {A} (l : list A) : bool :=
  match l with [] => true | _ => false end.

(** The inner loop: [for material, quantity in sub_map.items():
    total[material] += quantity * qty]. *)
Definition accumulate {N} `{Arith N} (total sub_map : dict N) (qty : N)
  : dict N :=
  fold_left (fun total '(material, quantity) =>
               dict_add total material (quantity * qty)%ar)
            sub_map total.

(** The outer loop over [self.relations[item]], with the recursive call
    passed as [explode]. *)
Fixpoint explode_loop {N} `{Arith N} (explode : string -> option (dict N))
    (edges : list (string * N)) (total : dict N) : option (dict N) :=
  match edges with
  | [] => Some total
  | (comp, qty) :: rest =>
      match explode comp with
      | None => None
      | Some sub_map => explode_loop explode rest (accumulate total sub_map qty)
      end
  end.

(** First and third variant: the leaf test is [item.startswith("1")].
    The [lru_cache] wrapper only stores results of this function, which
    reads nothing but [self.relations]; it is transparent as long as the
    relations are not rebuilt. *)
Fixpoint explode_unit {N} `{Arith N} (fuel : nat) (rel : table N)
    (item_code : string) : option (dict N) :=
  match fuel with
  | O => None
  | S fuel' =>
      let item := PyStr.strip item_code in
      if PyStr.startswith item "1" || negb (dict_mem rel item)
         || is_nil (rel_at rel item)
      then Some [(item, a_one)]
      else explode_loop (explode_unit fuel' rel) (rel_at rel item) []
  end.

(** Second variant: the leaf test is [self.is_raw_material(item)]. *)
Fixpoint explode_unit_v2 {N} `{Arith N} (fuel : nat) (rel : table N)
    (item_code : string) : option (dict N) :=
  match fuel with
  | O => None
  | S fuel' =>
      let item := PyStr.strip item_code in
      if is_raw_material item || negb (dict_mem rel item)
         || is_nil (rel_at rel item)
      then Some [(item, a_one)]
      else explode_loop (explode_unit_v2 fuel' rel) (rel_at rel item) []
  end.

(** ** Spreadsheet cells

    A quantity cell of a data frame holds a number or text; a missing
    cell is the number NaN, which is pandas' marker for it.  The code,
    description and unit columns hold text: such a cell is [None] when
    missing and otherwise carries what [str()] prints for it. *)

Inductive cell :=
| Num (x : float)
| Text (s : string).

#[global] Instance cell_eq_dec : EqDecision cell.
Proof. solve_decision. Defined.

(** The missing cell. *)
Definition NaN : cell := Num nan.

(** [pd.isna] *)
Definition isna (c : cell) : bool :=
  match c with Num x => is_nan x | Text _ => false end.

Definition isna_text (c : option string) : bool :=
  match c with None => true | Some _ => false end.

(** [str(x)] of a text cell; a missing cell prints as ['nan']. *)
Definition py_str (c : option string) : string := default "nan" c.

(** A reader for plain decimal literals ([12], [-0.5], [3.], [.25]) after
    stripping, on which it agrees with Python's [float]: the literal
    stands for a fraction [n / 10^k], and the result is the binary64
    number nearest to it.  It is used to instantiate the text reader in
    the examples. *)

(** [nearest_float n d]: [n / d] rounded to nearest, ties to even. *)
Definition nearest_float (n : Z) (d : positive) : float :=
  match n with
  | Zpos p =>
      SF2Prim (SFdiv prec emax (S754_finite false p 0) (S754_finite false d 0))
  | _ => 0%float
  end.

Definition digit_of (c : ascii) : option Z :=
  let n := nat_of_ascii c in
  if ((48 <=? n)%nat && (n <=? 57)%nat) then Some (Z.of_nat (n - 48)) else None.

Fixpoint digits_value (acc : Z) (s : string) : option Z :=
  match s with
  | EmptyString => Some acc
  | String c t =>
      match digit_of c with
      | Some d => digits_value (10 * acc + d) t
      | None => None
      end
  end.

Fixpoint split_point (s : string) : string * string :=
  match s with
  | EmptyString => (EmptyString, EmptyString)
  | String c t =>
      if bool_decide (c = "."%char) then (EmptyString, t)
      else let '(a, b) := split_point t in (String c a, b)
  end.

Definition unsigned_decimal (s : string) : option float :=
  let '(ip, fp) := split_point s in
  if PyStr.is_empty ip && PyStr.is_empty fp then None
  else match digits_value 0 ip, digits_value 0 fp with
       | Some i, Some f =>
           let scale := (10 ^ Z.of_nat (String.length fp))%Z in
           Some (nearest_float (i * scale + f) (Z.to_pos scale))
       | _, _ => None
       end.

Definition decimal_float (s : string) : option float :=
  match PyStr.strip s with
  | String "-" t => option_map PrimFloat.opp (unsigned_decimal t)
  | String "+" t => unsigned_decimal t
  | t => unsigned_decimal t
  end.

(** ** Relation table builder *)

Record bom_row := {
  row_parent : option string;
  row_component : option string;
  row_qty : cell;
  row_description : option string;
  row_uom : option string
}.

#[global] Instance bom_row_eq_dec : EqDecision bom_row.
Proof. solve_decision. Defined.

(** *** [clean_bom_data]

    The pandas operations are modelled from their documentation.  The
    frame is the list of its rows; columns other than the five logical
    ones are not represented. *)

(** [df.dropna(how='all')] *)
Definition all_na (r : bom_row) : bool :=
  isna_text (row_parent r) && isna_text (row_component r) && isna (row_qty r)
  && isna_text (row_description r) && isna_text (row_uom r).

Definition dropna_all (df : list bom_row) : list bom_row :=
  List.filter (fun r => negb (all_na r)) df.

(** [df.dropna(subset=[col_parent, col_component, col_qty])] *)
Definition essential_na (r : bom_row) : bool :=
  isna_text (row_parent r) || isna_text (row_component r) || isna (row_qty r).

Definition dropna_essential (df : list bom_row) : list bom_row :=
  List.filter (fun r => negb (essential_na r)) df.

(** [df.drop_duplicates(subset=..., keep='first')]: a row is dropped when
    an earlier row has the same key ([seen] holds the keys met so far).
    pandas compares the cells of the subset as values: two missing cells
    are alike, and so are the two zeros ([key_cell]). *)
Definition key_cell (c : cell) : cell :=
  match c with
  | Num x => if (x =? 0)%float then Num 0%float else c
  | Text _ => c
  end.

Fixpoint drop_duplicates_first {K} `{EqDecision K} (key : bom_row -> K)
    (seen : list K) (df : list bom_row) : list bom_row :=
  match df with
  | [] => []
  | r :: rest =>
      if bool_decide (key r ∈ seen) then drop_duplicates_first key seen rest
      else r :: drop_duplicates_first key (key r :: seen) rest
  end.

(** [df.drop_duplicates(subset=..., keep='last')]: a row is dropped when
    a later row has the same key. *)
Fixpoint drop_duplicates_last {K} `{EqDecision K} (key : bom_row -> K)
    (df : list bom_row) : list bom_row :=
  match df with
  | [] => []
  | r :: rest =>
      if bool_decide (key r ∈ map key rest) then drop_duplicates_last key rest
      else r :: drop_duplicates_last key rest
  end.

(** The subsets [[col_parent, col_component, col_qty, col_uom]] and
    [[col_parent, col_component]]. *)
Definition full_key (r : bom_row)
  : option string * option string * cell * option string :=
  (row_parent r, row_component r, key_cell (row_qty r), row_uom r).

Definition edge_key (r : bom_row) : option string * option string :=
  (row_parent r, row_component r).

Definition clean_bom_data (bom_df : list bom_row) : list bom_row :=
  let df1 := dropna_all bom_df in
  let df2 := dropna_essential df1 in
  let df3 := drop_duplicates_first full_key [] df2 in
  drop_duplicates_last edge_key df3.

(** *** The relation-building loop of [build_bom_relations]

    Python's [float] on text is a builtin of the language, not code of
    the repository: it is the parameter [float_of_text], which returns
    [None] where [float] raises [ValueError]. *)

Section Engine.

Variable float_of_text : string -> option float.

(** [float(str(v).replace(",", "."))]: a number prints without a comma
    and reads back as itself. *)
Definition float_of_cell (v : cell) : option float :=
  match v with
  | Num x => Some x
  | Text s => float_of_text (PyStr.replace_comma s)
  end.

(** A warning names the edge and the offending quantity cell. *)
Definition warning : Type := string * string * cell.

Definition blank_or_nan (code : string) : bool :=
  PyStr.is_empty code || bool_decide (PyStr.lower code = "nan").

Definition relations_step (st : relations * list warning) (row : bom_row)
  : relations * list warning :=
  let parent := PyStr.strip (py_str (row_parent row)) in
  let comp := PyStr.strip (py_str (row_component row)) in
  if blank_or_nan parent || blank_or_nan comp then st
  else if isna (row_qty row) then st
  else match float_of_cell (row_qty row) with
       | None => (st.1, st.2 ++ [(parent, comp, row_qty row)])
       | Some qty =>
           let converted_qty :=
             match row_uom row with
             | Some u => (convert_quantity qty (PyStr.strip u)).1
             | None => qty
             end in
           if (0 <? converted_qty)%float
           then (dict_append st.1 parent (comp, converted_qty), st.2)
           else st
       end.

Definition relations_loop (df : list bom_row) : relations * list warning :=
  fold_left relations_step df ([], []).

(** [build_bom_relations] on a fresh instance: the cleaning followed by
    the loop (the pass that records descriptions and units does not
    touch [self.relations]). *)
Definition build_bom_relations (bom_df : list bom_row)
  : relations * list warning :=
  relations_loop (clean_bom_data bom_df).

(** ** Requirements aggregator: [calculate_requirements] *)

Record plan_row := {
  plan_code : option string;   (* first column *)
  plan_cells : list cell       (* one cell per month column *)
}.

(** [not fg or fg.lower() in ['nan', 'none', '']] *)
Definition blank_fg (fg : string) : bool :=
  PyStr.is_empty fg || bool_decide (PyStr.lower fg ∈ ["nan"; "none"; ""]).

(** The state of the loop: [results] and [material_codes]. *)
Definition req_state : Type := dict (dict float) * gset string.

Definition add_requirements (month : string) (planned : float)
    (bom_map : dict float) (st : req_state) : req_state :=
  fold_left (fun (st : req_state) '(raw_material, per_unit) =>
               (dict_add2 st.1 raw_material month (planned * per_unit)%float,
                {[raw_material]} ∪ st.2))
            bom_map st.

Definition month_step (bom_map : dict float) (st : req_state)
    (mc : string * cell) : req_state :=
  if isna mc.2 then st
  else match float_of_cell mc.2 with
       | None => st
       | Some planned =>
           if (planned =? 0)%float then st
           else add_requirements mc.1 planned bom_map st
       end.

Fixpoint requirements_loop (fuel : nat) (rel : relations)
    (month_cols : list string) (plan_df : list plan_row) (st : req_state)
  : option req_state :=
  match plan_df with
  | [] => Some st
  | prow :: rest =>
      let fg := PyStr.strip (py_str (plan_code prow)) in
      if blank_fg fg then requirements_loop fuel rel month_cols rest st
      else match explode_unit fuel rel fg with
           | None => None
           | Some bom_map =>
               requirements_loop fuel rel month_cols rest
                 (fold_left (month_step bom_map)
                            (combine month_cols (plan_cells prow)) st)
           end
  end.

Definition calculate_requirements (fuel : nat) (rel : relations)
    (month_cols : list string) (plan_df : list plan_row) : option req_state :=
  requirements_loop fuel rel month_cols plan_df ([], ∅).

(** [results[material].get(month, 0.0)] *)
Definition cell_total (results : dict (dict float))
    (material month : string) : float :=
  default 0%float (dict_get (default [] (dict_get results material)) month).

(** ** All-levels aggregator *)

Fixpoint component_loop
    (push : string -> float -> dict (dict float) -> option (dict (dict float)))
    (edges : list (string * float)) (parent_qty : float) (month : string)
    (results_dict : dict (dict float)) : option (dict (dict float)) :=
  match edges with
  | [] => Some results_dict
  | (comp, comp_qty) :: rest =>
      let required_qty := (parent_qty * comp_qty)%float in
      match push comp required_qty
                 (dict_add2 results_dict comp month required_qty) with
      | None => None
      | Some results_dict' =>
          component_loop push rest parent_qty month results_dict'
      end
  end.

Fixpoint _calculate_component_requirements (fuel : nat) (rel : relations)
    (parent : string) (parent_qty : float) (month : string)
    (results_dict : dict (dict float)) : option (dict (dict float)) :=
  match fuel with
  | O => None
  | S fuel' =>
      if negb (dict_mem rel parent) then Some results_dict
      else component_loop
             (fun comp required_qty =>
                _calculate_component_requirements fuel' rel comp required_qty
                                                  month)
             (rel_at rel parent) parent_qty month results_dict
  end.

(** [planned_qty == 0] on the raw cell: text never equals a number. *)
Definition cell_is_zero (c : cell) : bool :=
  match c with Num x => (x =? 0)%float | Text _ => false end.

Definition all_levels_month_step (fuel : nat) (rel : relations)
    (parent : string) (acc : option (dict (dict float)))
    (mc : string * cell) : option (dict (dict float)) :=
  match acc with
  | None => None
  | Some results =>
      if isna mc.2 || cell_is_zero mc.2 then Some results
      else match float_of_cell mc.2 with
           | None => Some results
           | Some planned =>
               _calculate_component_requirements fuel rel parent planned mc.1
                 (dict_add2 results parent mc.1 planned)
           end
  end.

Definition all_levels_row_step (fuel : nat) (rel : relations)
    (month_cols : list string) (acc : option (dict (dict float)))
    (row : plan_row) : option (dict (dict float)) :=
  let parent := PyStr.strip (py_str (plan_code row)) in
  if PyStr.is_empty parent then acc
  else fold_left (all_levels_month_step fuel rel parent)
                 (combine month_cols (plan_cells row)) acc.

(** The accumulation of [all_levels_results].  [None] stands for a
    recursion that does not finish: Python raises [RecursionError], which
    the method catches to report an error and return an empty frame. *)
Definition calculate_all_levels_requirements (fuel : nat) (rel : relations)
    (month_cols : list string) (plan_df : list plan_row)
  : option (dict (dict float)) :=
  fold_left (all_levels_row_step fuel rel month_cols) plan_df (Some []).

(** The builtin [sum] over floats is a parameter as well: how it rounds
    depends on the interpreter (CPython adds from the left up to version
    3.11 and compensates the rounding errors from 3.12 on). *)
Variable py_sum : list float -> float.

(** [all_levels_data]: for each material of [sorted(results.keys())] its
    code, [Total_Required] and the month columns. *)
Definition all_levels_data (month_cols : list string)
    (results : dict (dict float)) : list (string * float * list float) :=
  map (fun material =>
         (material,
          py_sum (map snd (default [] (dict_get results material))),
          map (cell_total results material) month_cols))
      (merge_sort String.le (dict_keys results)).

End Engine.

(** [sum] adding from the left, starting from [0]. *)
Definition sum_left (l : list float) : float :=
  fold_left PrimFloat.add l 0%float.

(** ** Level search: [_get_material_level] (third variant) *)

(** [set(self.plan_df.iloc[:, 0].astype(str).str.strip())] *)
Definition plan_codes (plan_df : list plan_row) : list string :=
  map (fun r => PyStr.strip (py_str (plan_code r))) plan_df.

(** The parents tried for [current], in the order of the two nested loops
    over [self.relations.items()] and the component lists. *)
Definition parent_candidates (rel : relations) (current : string)
  : list string :=
  flat_map (fun '(parent, components) =>
              flat_map (fun '(comp, _) =>
                          if decide (comp = current) then [parent] else [])
                       (components : list (string * float)))
           rel.

(** The loop over the candidate parents; [visited] is the one set object
    shared by all calls, so it is threaded through and returned. *)
Fixpoint find_level_loop
    (find : string -> gset string -> option (Z * gset string))
    (parents : list string) (visited : gset string)
  : option (Z * gset string) :=
  match parents with
  | [] => Some ((-1)%Z, visited)
  | parent :: rest =>
      match find parent visited with
      | None => None
      | Some (parent_level, visited') =>
          if (0 <=? parent_level)%Z then Some ((parent_level + 1)%Z, visited')
          else find_level_loop find rest visited'
      end
  end.

Fixpoint find_level (fuel : nat) (rel : relations) (codes : list string)
    (current_material : string) (visited : gset string)
  : option (Z * gset string) :=
  match fuel with
  | O => None
  | S fuel' =>
      if decide (current_material ∈ visited) then Some ((-1)%Z, visited)
      else
        let visited := {[current_material]} ∪ visited in
        if decide (current_material ∈ codes) then Some (1%Z, visited)
        else find_level_loop (find_level fuel' rel codes)
                             (parent_candidates rel current_material) visited
  end.

Definition _get_material_level (fuel : nat) (rel : relations)
    (plan_df : list plan_row) (material_code : string) : option Z :=
  if decide (material_code ∈ plan_codes plan_df) then Some 0%Z
  else match find_level fuel rel (plan_codes plan_df) material_code ∅ with
       | None => None
       | Some (level, _) => Some (if (0 <=? level)%Z then level else 999%Z)
       end.

(** The recursion of [find_level] is bounded by the visited set: this
    much fuel always suffices. *)
Definition level_fuel (rel : relations) : nat := S (S (length rel)).

(** ** Column discovery: [prepare_bom_columns] *)

(** [d[k] = v] *)
Definition dict_set {V} (d : dict V) (k : string) (v : V) : dict V :=
  dict_upd d k (fun _ => v).

(** [{str(c).lower(): c for c in columns}]: of two headers with the same
    lower-case form the later one is kept. *)
Definition cols_lower (columns : list string) : dict string :=
  fold_left (fun d c => dict_set d (PyStr.lower c) c) columns [].

(** The local function [find_col] over its argument list. *)
Fixpoint find_col (cols : dict string) (names : list string) : option string :=
  match names with
  | [] => None
  | n :: rest =>
      match dict_get cols (PyStr.lower n) with
      | Some c => Some c
      | None => find_col cols rest
      end
  end.

Definition parent_names : list string :=
  ["parent material"; "parent"; "parent code"].
Definition component_names : list string :=
  ["component"; "component material"; "child"].
Definition qty_names : list string :=
  ["component quantity"; "component_quantity"; "qty"; "quantity"].
Definition description_names : list string :=
  ["component description"; "comp description"; "component desc"].
Definition uom_names : list string :=
  ["component uom"; "uom"; "unit of measure"; "unit"].

Record bom_columns := {
  col_parent : string;
  col_component : string;
  col_qty : string;
  col_component_description : option string;
  col_uom : option string
}.

(** [not col] for the result of [find_col]. *)
Definition col_missing (col : option string) : bool :=
  match col with None => true | Some c => PyStr.is_empty c end.

(** [headers] are the column labels as [str()] prints them; the result is
    [None] where the method reports the missing columns and returns five
    [None]s. *)
Definition prepare_bom_columns (headers : list string) : option bom_columns :=
  let columns := map PyStr.strip headers in
  let cols := cols_lower columns in
  let parent := find_col cols parent_names in
  let component := find_col cols component_names in
  let qty := find_col cols qty_names in
  let description := find_col cols description_names in
  let uom := find_col cols uom_names in
  if col_missing parent || col_missing component || col_missing qty then None
  else Some {| col_parent := default "" parent;
               col_component := default "" component;
               col_qty := default "" qty;
               col_component_description := description;
               col_uom := uom |}.

(** ** Material metadata (second and third variant)

    The first loop of [build_bom_relations] and the loop of
    [prepare_mrp_control_data] fill the description and unit
    dictionaries. *)

Record metadata := {
  material_descriptions : dict string;
  material_uoms : dict string;
  standardized_uoms : dict string;
  mrp_control_values : dict string
}.

Definition new_metadata : metadata :=
  {| material_descriptions := []; material_uoms := [];
     standardized_uoms := []; mrp_control_values := [] |}.

(** [if code and description and code != 'nan' and code not in
    self.material_descriptions: self.material_descriptions[code] =
    description] *)
Definition note_description (code : string) (description : option string)
    (md : metadata) : metadata :=
  match description with
  | None => md
  | Some d =>
      let desc := PyStr.strip d in
      if negb (PyStr.is_empty code) && negb (PyStr.is_empty desc)
         && negb (bool_decide (code = "nan"))
         && negb (dict_mem (material_descriptions md) code)
      then {| material_descriptions :=
                dict_set (material_descriptions md) code desc;
              material_uoms := material_uoms md;
              standardized_uoms := standardized_uoms md;
              mrp_control_values := mrp_control_values md |}
      else md
  end.

(** [if code and uom and code != 'nan': self.material_uoms[code] = uom;
    _, standardized = self.convert_quantity(1.0, uom);
    self.standardized_uoms[code] = standardized] *)
Definition note_uom (code : string) (unit : option string) (md : metadata)
  : metadata :=
  match unit with
  | None => md
  | Some u =>
      let uom := PyStr.strip u in
      if negb (PyStr.is_empty code) && negb (PyStr.is_empty uom)
         && negb (bool_decide (code = "nan"))
      then {| material_descriptions := material_descriptions md;
              material_uoms := dict_set (material_uoms md) code uom;
              standardized_uoms :=
                dict_set (standardized_uoms md) code
                         (convert_quantity 1%float uom).2;
              mrp_control_values := mrp_control_values md |}
      else md
  end.

(** One row of the first loop: the component's description and unit are
    noted for the component and then for the parent. *)
Definition metadata_step (md : metadata) (row : bom_row) : metadata :=
  let material_code := PyStr.strip (py_str (row_component row)) in
  let parent_code := PyStr.strip (py_str (row_parent row)) in
  note_uom parent_code (row_uom row)
    (note_description parent_code (row_description row)
       (note_uom material_code (row_uom row)
          (note_description material_code (row_description row) md))).

Definition metadata_loop (md : metadata) (df : list bom_row) : metadata :=
  fold_left metadata_step df md.

(** [get_material_description], [get_standardized_uom] and
    [get_mrp_control_value]. *)
Definition get_material_description (md : metadata) (material_code : string)
  : string :=
  default "" (dict_get (material_descriptions md) material_code).

Definition get_standardized_uom (md : metadata) (material_code : string)
  : string :=
  default (default "" (dict_get (material_uoms md) material_code))
          (dict_get (standardized_uoms md) material_code).

Definition get_mrp_control_value (md : metadata) (material_code : string)
  : string :=
  default "" (dict_get (mrp_control_values md) material_code).

(** *** [prepare_mrp_control_data], once its columns are found *)

Record mrp_row := {
  mrp_material : option string;
  mrp_description : option string;
  mrp_control : option string
}.

Definition mrp_step (md : metadata) (row : mrp_row) : metadata :=
  let material_code := PyStr.strip (py_str (mrp_material row)) in
  if negb (PyStr.is_empty material_code)
     && negb (bool_decide (material_code = "nan"))
  then
    let controls :=
      match mrp_control row with
      | Some v => dict_set (mrp_control_values md) material_code (PyStr.strip v)
      | None => mrp_control_values md
      end in
    let descriptions :=
      match mrp_description row with
      | Some d =>
          if negb (PyStr.is_empty (PyStr.strip d))
          then dict_set (material_descriptions md) material_code (PyStr.strip d)
          else material_descriptions md
      | None => material_descriptions md
      end in
    {| material_descriptions := descriptions;
       material_uoms := material_uoms md;
       standardized_uoms := standardized_uoms md;
       mrp_control_values := controls |}
  else md.

Definition mrp_loop (md : metadata) (df : list mrp_row) : metadata :=
  fold_left mrp_step df md.

(** ** The level-one sheet (third variant) *)

Record level_row := {
  lr_material : string;
  lr_level : Z;
  lr_is_raw : bool;
  lr_total : float;
  lr_months : list float
}.

(** The order of [sort_values(['Level', 'Material_Code'])]. *)
Definition level_code_le (a b : level_row) : Prop :=
  (lr_level a < lr_level b)%Z
  \/ (lr_level a = lr_level b /\ String.le (lr_material a) (lr_material b)).

#[global] Instance level_code_le_dec : RelDecision level_code_le.
Proof. intros a b. unfold level_code_le. apply _. Defined.

(** The frame of [calculate_all_levels_requirements] from the
    accumulated results, without its description, unit and controller
    columns; [None] stands for a level search that does not finish. *)
Definition all_levels_frame (py_sum : list float -> float) (fuel : nat)
    (rel : relations) (plan_df : list plan_row) (month_cols : list string)
    (results : dict (dict float)) : option (list level_row) :=
  rows ← mapM (fun material =>
                 level ← _get_material_level fuel rel plan_df material;
                 Some {| lr_material := material;
                         lr_level := level;
                         lr_is_raw :=
                           PyStr.startswith material "1"
                           || negb (dict_mem rel material)
                           || is_nil (rel_at rel material);
                         lr_total :=
                           py_sum (map snd
                                     (default [] (dict_get results material)));
                         lr_months :=
                           map (cell_total results material) month_cols |})
              (merge_sort String.le (dict_keys results));
  Some (merge_sort level_code_le rows).

(** [generate_bom_level1_sheet]: the rows of the frame with
    [Level == 1].  The method returns an empty frame on every error, so
    [None] here is an empty sheet too. *)
Definition generate_bom_level1_sheet
    (float_of_text : string -> option float) (py_sum : list float -> float)
    (fuel : nat) (rel : relations) (month_cols : list string)
    (plan_df : list plan_row) : option (list level_row) :=
  results ← calculate_all_levels_requirements float_of_text fuel rel
            month_cols plan_df;
  frame ← all_levels_frame py_sum fuel rel plan_df month_cols results;
  Some (List.filter (fun r => bool_decide (lr_level r = 1%Z)) frame).

(** * Specification-side notions *)

(** ** Explosion *)

(** The leaf policy of the explosion engine. *)
Definition is_leaf {N} (rel : table N) (item : string) : bool :=
  PyStr.startswith item "1" || negb (dict_mem rel item)
  || is_nil (rel_at rel item).

(** The parent-component graph of a relation table; component codes are
    taken trimmed, as the explosion reads them. *)
Definition component_edge {N} (rel : table N) (x y : string) : Prop :=
  ∃ comp qty, (comp, qty) ∈ rel_at rel x ∧ y = PyStr.strip comp.

Definition acyclic {N} (rel : table N) : Prop :=
  ∀ x, ¬ tc (component_edge rel) x x.

(** [path rel item es leaf]: [es] is the sequence of edges of a path of
    the explosion from [item] down to the leaf [leaf]. *)
Inductive path {N} (rel : table N)
  : string -> list (string * N) -> string -> Prop :=
| path_leaf item :
    is_leaf rel item = true -> path rel item [] item
| path_step item comp qty es leaf :
    is_leaf rel item = false ->
    (comp, qty) ∈ rel_at rel item ->
    path rel (PyStr.strip comp) es leaf ->
    path rel item ((comp, qty) :: es) leaf.

(** The enumeration of the root-to-leaf paths, each with its leaf. *)
Fixpoint all_paths {N} (fuel : nat) (rel : table N) (item : string)
  : list (list (string * N) * string) :=
  match fuel with
  | O => []
  | S fuel' =>
      if is_leaf rel item then [([], item)]
      else flat_map (fun '(comp, qty) =>
                       map (fun '(es, leaf) => ((comp, qty) :: es, leaf))
                           (all_paths fuel' rel (PyStr.strip comp)))
                    (rel_at rel item)
  end.

(** *** Exact arithmetic

    The sums of products the specification speaks of are sums and
    products of numbers.  [real x] is the rational number a finite float
    stands for (and 0 for the infinities and NaN, which the checked
    arithmetic below never lets through). *)

Definition pow2 (e : Z) : Q :=
  match e with
  | Z0 => 1
  | Zpos p => inject_Z (Z.pow_pos 2 p)
  | Zneg p => 1 # (2 ^ p)
  end.

Definition real (x : float) : Qc :=
  match Prim2SF x with
  | S754_finite s m e => Q2Qc (inject_Z (if s then Zneg m else Zpos m) * pow2 e)
  | _ => 0%Qc
  end.

#[global] Instance exact : Arith Qc :=
  {| a_zero := 0%Qc; a_one := 1%Qc; a_mul := Qcmult; a_add := Qcplus |}.

(** The relation table with every quantity as the number it stands
    for. *)
Definition exact_relations (rel : relations) : table Qc :=
  map (fun '(parent, components) =>
         (parent, map (fun '(comp, qty) => (comp, real qty))
                      (components : list (string * float))))
      rel.

Definition sum_Qc (l : list Qc) : Qc := foldr Qcplus 0%Qc l.

(** The product of the edge quantities along a path. *)
Definition path_product (es : list (string * Qc)) : Qc :=
  foldr (fun e acc => (e.2 * acc)%Qc) 1%Qc es.

(** The sum of the path products over the paths that end in [leaf]. *)
Definition path_sum (paths : list (list (string * Qc) * string))
    (leaf : string) : Qc :=
  sum_Qc (map (fun p => if decide (p.2 = leaf) then path_product p.1 else 0%Qc)
              paths).

(** *** Signs

    The floats as the specification of binary64 presents them
    ([spec_float]), by sign. *)

(** A float that is zero, positive or plus infinity. *)
Definition sf_nonneg (x : spec_float) : Prop :=
  match x with
  | S754_zero _ | S754_infinity false | S754_finite false _ _ => True
  | _ => False
  end.

(** A float that is not negative: as above, or NaN. *)
Definition sf_not_neg (x : spec_float) : Prop :=
  match x with
  | S754_infinity true | S754_finite true _ _ => False
  | _ => True
  end.

(** A float that is positive: finite or plus infinity. *)
Definition sf_pos (x : spec_float) : Prop :=
  match x with
  | S754_infinity false | S754_finite false _ _ => True
  | _ => False
  end.

(** *** Checked arithmetic

    Binary64 multiplication and addition that give up ([None]) when an
    operand or the result is not finite, or when the result is not the
    exact product or sum: a run of the engine in this arithmetic returns
    a quantity only where the program computes it without rounding. *)

Definition exactly (z : float) (q : Qc) : option float :=
  if is_finite z && bool_decide (real z = q) then Some z else None.

Definition checked_op (op : float -> float -> float) (opq : Qc -> Qc -> Qc)
    (x y : option float) : option float :=
  x ← x; y ← y;
  if is_finite x && is_finite y
  then exactly (op x y) (opq (real x) (real y))
  else None.

#[global] Instance checked : Arith (option float) :=
  {| a_zero := Some 0%float; a_one := Some 1%float;
     a_mul := checked_op PrimFloat.mul Qcmult;
     a_add := checked_op PrimFloat.add Qcplus |}.

Definition checked_relations (rel : relations) : table (option float) :=
  map (fun '(parent, components) =>
         (parent, map (fun '(comp, qty) => (comp, Some qty))
                      (components : list (string * float))))
      rel.

(** The quantity of [leaf] in the explosion of [item], where the program
    computes it without rounding. *)
Definition unrounded_quantity (fuel : nat) (rel : relations)
    (item leaf : string) : option float :=
  m ← explode_unit fuel (checked_relations rel) item;
  q ← dict_get m leaf;
  q.

(** [d.get(k, 0.0)] *)
Definition dict_total {N} `{Arith N} (d : dict N) (k : string) : N :=
  default a_zero (dict_get d k).

(** The sum of the values stored under [k] in a list of entries. *)
Definition entries_sum (d : dict Qc) (k : string) : Qc :=
  sum_Qc (map (fun kv => if decide (kv.1 = k) then kv.2 else 0%Qc) d).

(** The contribution of one edge to the total of [k]. *)
Definition edge_share (explode : string -> option (dict Qc)) (k : string)
    (e : string * Qc) : Qc :=
  (dict_total (default [] (explode e.1)) k * e.2)%Qc.

(** The BOM A -> 2 x B, B -> 3 x C, A -> 1 x D. *)
Definition bom_example : relations :=
  [("A", [("B", 2%float); ("D", 1%float)]); ("B", [("C", 3%float)])].

(** The BOM A -> 3 x B, B -> 0.1 x X, B -> 0.7 x C, C -> 1 x X. *)
Definition bom_rounding : relations :=
  [("A", [("B", 3%float)]);
   ("B", [("X", 0.1%float); ("C", 0.7%float)]);
   ("C", [("X", 1%float)])].

(** The BOM A -> 1e-200 x B, B -> 1e-200 x C. *)
Definition bom_tiny : relations :=
  [("A", [("B", 1e-200%float)]); ("B", [("C", 1e-200%float)])].

(** A rank certificate of acyclicity: every component has a strictly
    smaller rank than its parent. *)
Definition rank_of (ranks : dict nat) (x : string) : nat :=
  default 0%nat (dict_get ranks x).

Definition ranked {N} (ranks : dict nat) (rel : table N) : bool :=
  forallb (fun '(parent, components) =>
             forallb (fun '(comp, _) =>
                        (rank_of ranks (PyStr.strip comp) <? rank_of ranks parent)%nat)
                     (components : list (string * N)))
          rel.

(** Every stored edge quantity is strictly positive ([qty > 0]), and
    every one is finite. *)
Definition positive_edges (rel : relations) : Prop :=
  Forall (fun entry => Forall (fun edge => (0 <? edge.2)%float = true)
                              (entry.2 : list (string * float)))
         rel.

Definition finite_edges (rel : relations) : Prop :=
  Forall (fun entry => Forall (fun edge => (edge.2 <? infinity)%float = true)
                              (entry.2 : list (string * float)))
         rel.

(** The reading of the path-expansion identity over the numbers the
    stored quantities stand for: every returned quantity is the sum,
    over the paths to its leaf, of the products of the edge
    quantities. *)
Definition path_expansion_exact (rel : relations) (fuel : nat)
    (code : string) : Prop :=
  forall m leaf q,
    explode_unit fuel rel code = Some m ->
    dict_get m leaf = Some q ->
    real q = path_sum (all_paths fuel (exact_relations rel) (PyStr.strip code))
                      leaf.

(** The keys of an explosion of [item]: each once, and exactly the
    leaves reached by some path; [all_paths] with the same fuel lists
    exactly the paths. *)
Definition reaches_leaves {N} (rel : table N) (fuel : nat) (item : string)
    (m : dict N) : Prop :=
  NoDup (dict_keys m)
  /\ (forall leaf, leaf ∈ dict_keys m <-> exists es, path rel item es leaf)
  /\ (forall es leaf,
        (es, leaf) ∈ all_paths fuel rel item <-> path rel item es leaf).

(** What the explosion of [item] returns: a dictionary whose keys are the
    leaves reached by some path; a quantity the program computes without
    rounding is the one returned, and it is the sum of the products of
    the quantities along all the paths that reach the leaf. *)
Definition explosion_ok (rel : relations) (fuel : nat) (item : string)
    (m : dict float) : Prop :=
  reaches_leaves rel fuel item m
  /\ (forall leaf q,
        unrounded_quantity fuel rel item leaf = Some q ->
        dict_get m leaf = Some q
        /\ real q = path_sum (all_paths fuel (exact_relations rel) item) leaf).

(** *** Runs in two arithmetics

    Two dictionaries, or two relation tables, with the same keys in the
    same order and values related by [R]. *)
Definition dict_related {A B} (R : A -> B -> Prop) (d : dict A) (d' : dict B)
  : Prop :=
  Forall2 (fun x y => x.1 = y.1 /\ R x.2 y.2) d d'.

Definition table_related {A B} (R : A -> B -> Prop) (rel : table A)
    (rel' : table B) : Prop :=
  Forall2 (fun x y => x.1 = y.1 /\ dict_related R x.2 y.2) rel rel'.

(** A checked quantity, where there is one, is the float [y], and stands
    for the number [q]. *)
Definition checked_is (x : option float) (y : float) : Prop :=
  forall a, x = Some a -> a = y.

Definition checked_real (x : option float) (q : Qc) : Prop :=
  forall a, x = Some a -> real a = q.

(** ** Cleaning *)

(** The reading of the survivor rule over the rows of the input sheet:
    of any two rows with the same parent and component but different
    quantities, the quantity of the later one is the one a surviving row
    for that edge carries. *)
Definition later_revision_wins (bom_df : list bom_row) : Prop :=
  forall l1 r1 l2 r2 l3,
    bom_df = l1 ++ r1 :: l2 ++ r2 :: l3 ->
    edge_key r1 = edge_key r2 ->
    row_qty r1 <> row_qty r2 ->
    forall r, r ∈ clean_bom_data bom_df -> edge_key r = edge_key r2 ->
              row_qty r = row_qty r2.

(** A to B at 2 per unit, revised to 3, and put back to 2. *)
Definition edge_row (parent comp : string) (q : cell) (unit : string)
  : bom_row :=
  {| row_parent := Some parent; row_component := Some comp; row_qty := q;
     row_description := None; row_uom := Some unit |}.

Definition revised_twice : list bom_row :=
  [edge_row "A" "B" (Num 2%float) "EA";
   edge_row "A" "B" (Num 3%float) "EA";
   edge_row "A" "B" (Num 2%float) "EA"].

(** ** Relation building *)

(** The quantity of an edge after unit conversion; a row without a unit
    keeps its quantity. *)
Definition unit_converted (qty : float) (unit : option string) : float :=
  match unit with
  | Some u => (convert_quantity qty (PyStr.strip u)).1
  | None => qty
  end.

(** A code that is neither blank nor (in any letter case) ['nan']. *)
Definition proper_code (code : string) : Prop :=
  code <> "" /\ PyStr.lower code <> "nan".

(** [admitted f row parent comp q]: the row yields the edge
    parent -> (comp, q): both trimmed codes are proper, the quantity cell
    reads as a number, and the converted quantity [q] is strictly
    positive. *)
Definition admitted (f : string -> option float) (row : bom_row)
    (parent comp : string) (q : float) : Prop :=
  parent = PyStr.strip (py_str (row_parent row))
  /\ comp = PyStr.strip (py_str (row_component row))
  /\ proper_code parent /\ proper_code comp
  /\ exists qty, isna (row_qty row) = false
                 /\ float_of_cell f (row_qty row) = Some qty
                 /\ q = unit_converted qty (row_uom row)
                 /\ (0 <? q)%float = true.

(** [warned f row w]: the row has proper codes and a quantity cell that
    does not read as a number; [w] reports it. *)
Definition warned (f : string -> option float) (row : bom_row) (w : warning)
  : Prop :=
  let parent := PyStr.strip (py_str (row_parent row)) in
  let comp := PyStr.strip (py_str (row_component row)) in
  proper_code parent /\ proper_code comp
  /\ isna (row_qty row) = false
  /\ float_of_cell f (row_qty row) = None
  /\ w = (parent, comp, row_qty row).

(** Four edges of parent A: a decimal comma, an unreadable quantity, a
    zero quantity and a quantity in grams. *)
Definition mixed_rows : list bom_row :=
  [edge_row "A" "B" (Text "2,5") "EA";
   edge_row "A" "C" (Text "abc") "EA";
   edge_row "A" "D" (Num 0%float) "EA";
   edge_row "A" "E" (Text "500") "g"].

(** ** Requirements aggregation *)

(** The planned quantity of a month cell that [calculate_requirements]
    counts: the cell is not missing, reads as a float, and that float is
    not zero. *)
Definition counted (f : string -> option float) (c : cell) : option float :=
  if isna c then None
  else match float_of_cell f c with
       | Some planned => if (planned =? 0)%float then None else Some planned
       | None => None
       end.

(** The term a cell counted as [planned] adds to the total of
    [material], given the explosion [bom_map] of the row's item: none
    when the material is not in the explosion. *)
Definition share (bom_map : dict float) (material : string)
    (planned : option float) : list float :=
  match planned, dict_get bom_map material with
  | Some v, Some per_unit => [(v * per_unit)%float]
  | _, _ => []
  end.

(** The terms the cells of one plan row add to the total of [material]
    in [month], in the order of the month columns. *)
Definition month_terms (f : string -> option float) (bom_map : dict float)
    (material month : string) (mcs : list (string * cell)) : list float :=
  flat_map (fun mc : string * cell =>
              if decide (mc.1 = month)
              then share bom_map material (counted f mc.2) else [])
           mcs.

Definition row_terms (f : string -> option float) (fuel : nat)
    (rel : relations) (month_cols : list string) (material month : string)
    (prow : plan_row) : list float :=
  let fg := PyStr.strip (py_str (plan_code prow)) in
  if blank_fg fg then []
  else month_terms f (default [] (explode_unit fuel rel fg)) material month
                   (combine month_cols (plan_cells prow)).

(** The terms of the total of [material] in [month], in the order in
    which the plan is read. *)
Definition plan_terms (f : string -> option float) (fuel : nat)
    (rel : relations) (month_cols : list string) (material month : string)
    (plan_df : list plan_row) : list float :=
  flat_map (row_terms f fuel rel month_cols material month) plan_df.

(** The plan with one row singled out, and in it one month cell. *)
Definition plan_with (rows1 : list plan_row) (code : option string)
    (cs1 : list cell) (c : cell) (cs2 : list cell) (rows2 : list plan_row)
  : list plan_row :=
  rows1 ++ {| plan_code := code; plan_cells := cs1 ++ c :: cs2 |} :: rows2.

(** The term of that cell, counted as [planned], in the total of
    [material]. *)
Definition cell_terms (fuel : nat) (rel : relations) (code : option string)
    (planned : float) (material : string) : list float :=
  let fg := PyStr.strip (py_str code) in
  if blank_fg fg then []
  else share (default [] (explode_unit fuel rel fg)) material (Some planned).

(** The terms read before and after that cell. *)
Definition terms_before (f : string -> option float) (fuel : nat)
    (rel : relations) (ms1 : list string) (mo : string) (ms2 : list string)
    (rows1 : list plan_row) (code : option string) (cs1 : list cell)
    (material month : string) : list float :=
  plan_terms f fuel rel (ms1 ++ mo :: ms2) material month rows1
  ++ row_terms f fuel rel ms1 material month
               {| plan_code := code; plan_cells := cs1 |}.

Definition terms_after (f : string -> option float) (fuel : nat)
    (rel : relations) (ms1 : list string) (mo : string) (ms2 : list string)
    (code : option string) (cs2 : list cell) (rows2 : list plan_row)
    (material month : string) : list float :=
  row_terms f fuel rel ms2 material month
            {| plan_code := code; plan_cells := cs2 |}
  ++ plan_terms f fuel rel (ms1 ++ mo :: ms2) material month rows2.

(** The reading of linearity as an equation between totals: after the
    planned value [v] of a cell is doubled, the total of a material of
    the row's explosion is the old total plus [v] times its per-unit
    quantity. *)
Definition doubling_adds_share : Prop :=
  forall (f : string -> option float) fuel rel ms1 mo ms2 rows1 code cs1 c c'
         cs2 rows2 v st st' material per_unit,
    length ms1 = length cs1 ->
    counted f c = Some v ->
    counted f c' = Some (2 * v)%float ->
    calculate_requirements f fuel rel (ms1 ++ mo :: ms2)
      (plan_with rows1 code cs1 c cs2 rows2) = Some st ->
    calculate_requirements f fuel rel (ms1 ++ mo :: ms2)
      (plan_with rows1 code cs1 c' cs2 rows2) = Some st' ->
    dict_get (default [] (explode_unit fuel rel (PyStr.strip (py_str code))))
             material = Some per_unit ->
    cell_total st'.1 material mo
    = (cell_total st.1 material mo + v * per_unit)%float.

(** P1 -> 0.1 x X and P2 -> 0.6 x X, each planned once. *)
Definition bom_two_products : relations :=
  [("P1", [("X", 0.1%float)]); ("P2", [("X", 0.6%float)])].

(** The codes a plan row adds to [material_codes]: the keys of its
    explosion, if some month cell is counted. *)
Definition months_codes (f : string -> option float) (bom_map : dict float)
    (mcs : list (string * cell)) : gset string :=
  ⋃ map (fun mc : string * cell =>
           match counted f mc.2 with
           | Some _ => list_to_set (dict_keys bom_map)
           | None => ∅
           end) mcs.

Definition row_codes (f : string -> option float) (fuel : nat)
    (rel : relations) (month_cols : list string) (prow : plan_row)
  : gset string :=
  let fg := PyStr.strip (py_str (plan_code prow)) in
  if blank_fg fg then ∅
  else months_codes f (default [] (explode_unit fuel rel fg))
                    (combine month_cols (plan_cells prow)).

(** A stray plan row with no code and 7 units. *)
Definition nan_row : plan_row :=
  {| plan_code := None; plan_cells := [Num 7%float] |}.

(** ** Levels *)

(** [is_parent rel p x]: the relation table lists [x] as a component of
    [p]. *)
Definition is_parent (rel : relations) (p x : string) : Prop :=
  exists comps q,
    (p, comps) ∈ rel /\ (x, q) ∈ (comps : list (string * float)).

(** [chain rel codes x n]: a parent chain of [n] hops leads from [x] up
    to a plan top-level code. *)
Inductive chain (rel : relations) (codes : list string)
  : string -> nat -> Prop :=
| chain_top x : x ∈ codes -> chain rel codes x 0
| chain_up x p n :
    is_parent rel p x -> chain rel codes p n -> chain rel codes x (S n).

(** A material is settled in [v] when it is no plan code and all its
    parents are in [v]. *)
Definition settled (rel : relations) (codes : list string)
    (v : gset string) (x : string) : Prop :=
  (x ∉ codes) /\ forall p, is_parent rel p x -> p ∈ v.

(** The outcome of a call from [visited]: the set only grows and holds
    the material; a level that is not negative is one more than the hops
    of a chain, and on failure every material added is settled. *)
Definition outcome (rel : relations) (codes : list string)
    (current : string) (visited : gset string) (r : Z * gset string) : Prop :=
  (visited ⊆ r.2) /\ (current ∈ r.2)
  /\ ((exists n, chain rel codes current n /\ r.1 = (Z.of_nat n + 1)%Z)
      \/ (r.1 = (-1)%Z
          /\ forall x, x ∈ r.2 -> x ∉ visited -> settled rel codes r.2 x)).

(** The level rule as the specification words it: hops plus one whenever
    a chain exists. *)
Definition level_is_hops_plus_one (rel : relations) (plan_df : list plan_row)
  : Prop :=
  forall material,
    (exists n, chain rel (plan_codes plan_df) material n) ->
    exists n, chain rel (plan_codes plan_df) material n
              /\ _get_material_level (level_fuel rel) rel plan_df material
                 = Some (Z.of_nat n + 1)%Z.

(** A plan that schedules both A and its component B. *)
Definition plan_A_and_B : list plan_row :=
  [{| plan_code := Some "A"; plan_cells := [Num 10%float] |};
   {| plan_code := Some "B"; plan_cells := [Num 4%float] |}].

(** ** Column discovery *)

(** [names_unmatched headers names]: no header, trimmed and in lower
    case, is one of [names]. *)
Definition names_unmatched (headers names : list string) : Prop :=
  forall n h, n ∈ names -> h ∈ headers ->
              PyStr.lower (PyStr.strip h) <> PyStr.lower n.

(** [column_for headers names col]: [col] is what the discovery must
    answer for the synonyms [names]: nothing when no header matches, and
    otherwise the last trimmed header that matches the first synonym any
    header matches. *)
Definition column_for (headers names : list string) (col : option string)
  : Prop :=
  match col with
  | None => names_unmatched headers names
  | Some c =>
      exists pre n post,
        names = pre ++ n :: post
        /\ names_unmatched headers pre
        /\ last (filter (fun h => PyStr.lower h = PyStr.lower n)
                        (map PyStr.strip headers)) = Some c
  end.

(** ** Metadata *)

(** The standardised unit of an original unit. *)
Definition standardize (uom : string) : string :=
  (convert_quantity 1%float uom).2.

(** Each unit is stored with its standardised form. *)
Definition units_consistent (md : metadata) : Prop :=
  forall code,
    dict_get (standardized_uoms md) code
    = standardize <$> dict_get (material_uoms md) code.

(** Every recorded unit is trimmed and not empty. *)
Definition units_proper (md : metadata) : Prop :=
  forall code u,
    dict_get (material_uoms md) code = Some u -> u <> "" /\ PyStr.strip u = u.

(** The control values and the descriptions the rows of the MRP Contor
    sheet offer for [code], in sheet order. *)
Definition mrp_code_ok (code : string) : Prop := code <> "" /\ code <> "nan".

#[global] Instance mrp_code_ok_dec code : Decision (mrp_code_ok code).
Proof. unfold mrp_code_ok. apply _. Defined.

Definition offered_controls (code : string) (df : list mrp_row)
  : list string :=
  omap (fun row =>
          if decide (PyStr.strip (py_str (mrp_material row)) = code
                     /\ mrp_code_ok code)
          then PyStr.strip <$> mrp_control row else None) df.

Definition offered_descriptions (code : string) (df : list mrp_row)
  : list string :=
  omap (fun row =>
          if decide (PyStr.strip (py_str (mrp_material row)) = code
                     /\ mrp_code_ok code)
          then match mrp_description row with
               | Some d => if PyStr.is_empty (PyStr.strip d) then None
                           else Some (PyStr.strip d)
               | None => None
               end
          else None) df.

(** [last_or l o]: the last element of [l], and [o] when [l] is
    empty. *)
Definition last_or {A} (l : list A) (o : option A) : option A :=
  match last l with Some x => Some x | None => o end.

(** ** Cycles *)

(** A trap of the explosion: a set of items none of which is a leaf and
    each of which has a component in the set, as the items on a cycle
    have. *)
Definition explosion_trap (rel : relations) (S : string -> Prop) : Prop :=
  forall x, S x ->
    is_leaf rel x = false
    /\ exists comp qty, (comp, qty) ∈ rel_at rel x /\ S (PyStr.strip comp).

(** A trap of the all-levels push, which follows every listed component
    under its code as it is stored. *)
Definition push_trap (rel : relations) (S : string -> Prop) : Prop :=
  forall x, S x ->
    dict_mem rel x = true
    /\ exists comp qty, (comp, qty) ∈ rel_at rel x /\ S comp.

(** A and B are components of each other. *)
Definition bom_cycle : relations :=
  [("A", [("B", 1%float)]); ("B", [("A", 1%float)])].

(** ** Tables in normal form *)

(** Every stored component code is trimmed. *)
Definition trimmed_table (rel : relations) : Prop :=
  Forall (fun entry => Forall (fun e => PyStr.strip e.1 = e.1)
                              (entry.2 : list (string * float))) rel.

(** P -> 0.1 x M and M -> 0.7 x X, with three units of P planned for
    January. *)
Definition bom_chain : relations :=
  [("P", [("M", 0.1%float)]); ("M", [("X", 0.7%float)])].

Definition plan_three_P : list plan_row :=
  [{| plan_code := Some "P"; plan_cells := [Num 3%float] |}].

(** ** Built tables *)

(** The form of a relation table the builder produces: the parents are
    pairwise distinct, every parent has at least one component, and all
    codes are trimmed and proper. *)
Definition well_formed (rel : relations) : Prop :=
  NoDup (dict_keys rel)
  /\ Forall (fun entry =>
               proper_code entry.1 /\ PyStr.strip entry.1 = entry.1
               /\ (entry.2 : list (string * float)) <> []
               /\ Forall (fun e => proper_code e.1 /\ PyStr.strip e.1 = e.1)
                         entry.2)
            rel.

(** ** Plans *)

(** Q1 -> 0.1 x X, Q2 -> 0.2 x X and Q3 -> 0.3 x X, each planned once
    for January. *)
Definition bom_three_products : relations :=
  [("Q1", [("X", 0.1%float)]); ("Q2", [("X", 0.2%float)]);
   ("Q3", [("X", 0.3%float)])].

Definition plan_three_products : list plan_row :=
  [{| plan_code := Some "Q1"; plan_cells := [Num 1%float] |};
   {| plan_code := Some "Q2"; plan_cells := [Num 1%float] |};
   {| plan_code := Some "Q3"; plan_cells := [Num 1%float] |}].

(** A plan row the requirements loop gets through: its code is skipped as
    blank, or the explosion of its item finishes. *)
Definition row_runs (fuel : nat) (rel : relations) (prow : plan_row) : Prop :=
  let fg := PyStr.strip (py_str (plan_code prow)) in
  blank_fg fg = true \/ is_Some (explode_unit fuel rel fg).

(** * Proofs *)

#[local] Set Warnings "-clear-no-such-hyp".

(** ** Binary64 arithmetic

    The signs of products and sums, read off the specification of the
    operations ([SpecFloat]). *)

Lemma leb_zero_nonneg x : (0 <=? x)%float = true <-> sf_nonneg (Prim2SF x).
Proof.
  rewrite leb_spec. change (Prim2SF 0) with (S754_zero false).
  destruct (Prim2SF x) as [s|[|]| |[|] m e];
    cbv [SFleb SFcompare sf_nonneg]; intuition congruence.
Qed.

Section iter.
Context {A : Type} (f : A -> A) (P : A -> Prop).
Lemma iter_pos_invariant p x :
  (forall y, P y -> P (f y)) -> P x -> P (SpecFloat.iter_pos f p x).
Proof.
  intros Hf. revert x. induction p as [p IH|p IH|]; intros x Hx; simpl; auto.
Qed.
End iter.

Lemma shr_1_nonneg mrs : (0 <= shr_m mrs)%Z -> (0 <= shr_m (shr_1 mrs))%Z.
Proof. destruct mrs as [[|[p|p|]|p] r s]; simpl; lia. Qed.

Lemma shr_fexp_nonneg m e l :
  (0 <= m)%Z -> (0 <= shr_m (shr_fexp prec emax m e l).1)%Z.
Proof.
  intros Hm. unfold shr_fexp, shr.
  assert (H0 : (0 <= shr_m (shr_record_of_loc m l))%Z).
  { by destruct l as [|[| |]]. }
  destruct (_ - _)%Z as [|p|p]; simpl; try done.
  by apply (iter_pos_invariant shr_1 (fun r => 0 <= shr_m r)%Z);
    [apply shr_1_nonneg|].
Qed.

Lemma round_nearest_even_nonneg m l :
  (0 <= m)%Z -> (0 <= round_nearest_even m l)%Z.
Proof.
  intros. destruct l as [|[| |]]; simpl; try lia. destruct (Z.even m); lia.
Qed.

Lemma binary_round_aux_nonneg m e l :
  (0 <= m)%Z -> sf_nonneg (binary_round_aux prec emax false m e l).
Proof.
  intros Hm. unfold binary_round_aux.
  pose proof (shr_fexp_nonneg m e l Hm) as H1.
  destruct (shr_fexp prec emax m e l) as [mrs' e'] eqn:E1. simpl in H1.
  pose proof (shr_fexp_nonneg
                (round_nearest_even (shr_m mrs') (loc_of_shr_record mrs')) e'
                loc_Exact (round_nearest_even_nonneg _ _ H1)) as H2.
  destruct (shr_fexp prec emax _ e' loc_Exact) as [mrs'' e''] eqn:E2.
  simpl in H2. destruct (shr_m mrs'') as [|p|p]; [done | | lia].
  by destruct (_ <=? _)%Z.
Qed.

Lemma SFmul_nonneg x y :
  sf_nonneg x -> sf_nonneg y ->
  (forall s, x = S754_zero s -> y <> S754_infinity false) ->
  (forall s, y = S754_zero s -> x <> S754_infinity false) ->
  sf_nonneg (SF64mul x y).
Proof.
  intros Hx Hy H1 H2.
  destruct x as [sx|[|]| |[|] mx ex], y as [sy|[|]| |[|] my ey]; simpl in *;
    try done.
  - by eapply H1.
  - by eapply H2.
  - by apply binary_round_aux_nonneg.
Qed.

Lemma SFadd_nonneg x y :
  sf_nonneg x -> sf_nonneg y -> sf_nonneg (SF64add x y).
Proof.
  intros Hx Hy.
  destruct x as [sx|[|]| |[|] mx ex], y as [sy|[|]| |[|] my ey]; simpl in *;
    try done.
  - by destruct sx, sy.
  - unfold binary_normalize.
    set (a := (shl_align mx ex (Z.min ex ey)).1).
    set (b := (shl_align my ey (Z.min ex ey)).1).
    simpl. unfold binary_round.
    destruct (shl_align (a + b) _ _) as [mz ez].
    by apply binary_round_aux_nonneg.
Qed.

Lemma sf_nonneg_not_neg x : sf_nonneg x -> sf_not_neg x.
Proof. by destruct x as [s|[|]| |[|] m e]. Qed.

Lemma ltb_zero_not_neg x :
  (x <? 0)%float = false <-> sf_not_neg (Prim2SF x).
Proof.
  rewrite ltb_spec. change (Prim2SF 0) with (S754_zero false).
  destruct (Prim2SF x) as [s|[|]| |[|] m e];
    cbv [SFltb SFcompare sf_not_neg]; intuition congruence.
Qed.

Lemma ltb_zero_pos x : (0 <? x)%float = true <-> sf_pos (Prim2SF x).
Proof.
  rewrite ltb_spec. change (Prim2SF 0) with (S754_zero false).
  destruct (Prim2SF x) as [s|[|]| |[|] m e]; cbv [SFltb SFcompare sf_pos];
    intuition congruence.
Qed.

Lemma ltb_infinity_finite x :
  (x <? infinity)%float = true -> Prim2SF x <> S754_infinity false.
Proof.
  rewrite ltb_spec. change (Prim2SF infinity) with (S754_infinity false).
  by destruct (Prim2SF x) as [s|[|]| |[|] m e].
Qed.

Lemma SFmul_not_neg x y :
  sf_not_neg x -> sf_pos y -> sf_not_neg (SF64mul x y).
Proof.
  intros Hx Hy.
  destruct x as [sx|[|]| |[|] mx ex], y as [sy|[|]| |[|] my ey]; simpl in *;
    try done.
  by apply sf_nonneg_not_neg, binary_round_aux_nonneg.
Qed.

Lemma SFadd_not_neg x y :
  sf_not_neg x -> sf_not_neg y -> sf_not_neg (SF64add x y).
Proof.
  intros Hx Hy.
  destruct x as [sx|[|]| |[|] mx ex], y as [sy|[|]| |[|] my ey]; simpl in *;
    try done.
  - by destruct sx, sy.
  - apply sf_nonneg_not_neg.
    exact (SFadd_nonneg (S754_finite false mx ex) (S754_finite false my ey)
                        I I).
Qed.

(** Products and sums of quantities that are not negative. *)
Lemma mul_not_negative x q :
  (x <? 0)%float = false -> (0 <? q)%float = true ->
  (x * q <? 0)%float = false.
Proof.
  rewrite !ltb_zero_not_neg, ltb_zero_pos, mul_spec. apply SFmul_not_neg.
Qed.

Lemma add_not_negative x y :
  (x <? 0)%float = false -> (y <? 0)%float = false ->
  (x + y <? 0)%float = false.
Proof. rewrite !ltb_zero_not_neg, add_spec. apply SFadd_not_neg. Qed.

Lemma mul_nonnegative x q :
  (0 <=? x)%float = true -> (0 <? q)%float = true ->
  (q <? infinity)%float = true -> (0 <=? x * q)%float = true.
Proof.
  rewrite !leb_zero_nonneg, ltb_zero_pos, mul_spec.
  intros Hx Hq Hfin%ltb_infinity_finite. apply SFmul_nonneg; try done.
  - by destruct (Prim2SF q) as [s|[|]| |[|] m e].
  - intros s Hs. by rewrite Hs in Hq.
Qed.

Lemma add_nonnegative x y :
  (0 <=? x)%float = true -> (0 <=? y)%float = true ->
  (0 <=? x + y)%float = true.
Proof. rewrite !leb_zero_nonneg, add_spec. apply SFadd_nonneg. Qed.

(** Doubling: [2 * v == 0] exactly when [v == 0].  The mantissa of
    [2.0] is a power of two, so that the product is the mantissa of [v]
    shifted, and the rounding shifts it back by 52 places (or by 51 for
    a subnormal [v]) without loss. *)
Lemma double_is_zero v : (2 * v =? 0)%float = (v =? 0)%float.
Proof.
  rewrite !FloatAxioms.eqb_spec, mul_spec.
  change (Prim2SF 0) with (S754_zero false).
  change (Prim2SF 2) with (S754_finite false 4503599627370496 (-51)).
  pose proof (Prim2SF_valid v) as Hv.
  destruct (Prim2SF v) as [s|s| |s m e]; try done.
  transitivity false; [|by destruct s].
  simpl in Hv. unfold bounded, canonical_mantissa, fexp, SpecFloat.emin in Hv.
  apply andb_true_iff in Hv as [Hc He].
  apply Z.eqb_eq in Hc. apply Z.leb_le in He.
  cbv [SF64mul SFmul].
  change (4503599627370496 * m)%positive with (Pos.iter xO m 52).
  set (d := Z.pos (digits2_pos m)) in *.
  assert (Hd : Zdigits2 (Z.pos (Pos.iter xO m 52)) = (d + 52)%Z).
  { unfold d. simpl. lia. }
  unfold binary_round_aux, shr_fexp. rewrite Hd.
  unfold prec, emax in *.
  destruct (decide (d = 53%Z)) as [H53|H53].
  - replace (fexp 53 1024 (d + 52 + (-51 + e)) - (-51 + e))%Z
      with 52%Z by (unfold fexp, SpecFloat.emin; lia).
    unfold shr at 1.
    cbn [Pos.iter SpecFloat.iter_pos shr_1 shr_record_of_loc orb].
    cbn [shr_m loc_of_shr_record round_nearest_even Zdigits2]. fold d.
    replace (fexp 53 1024 (d + (-51 + e + 52)) - (-51 + e + 52))%Z
      with 0%Z by (unfold fexp, SpecFloat.emin; lia).
    cbn [shr shr_m xorb]. by destruct (_ <=? _)%Z, s.
  - replace (fexp 53 1024 (d + 52 + (-51 + e)) - (-51 + e))%Z
      with 51%Z by (unfold fexp, SpecFloat.emin; lia).
    unfold shr at 1.
    cbn [Pos.iter SpecFloat.iter_pos shr_1 shr_record_of_loc orb].
    cbn [shr_m loc_of_shr_record round_nearest_even Zdigits2 digits2_pos].
    fold d.
    replace (fexp 53 1024 (Z.pos (Pos.succ (digits2_pos m))
                           + (-51 + e + 51)) - (-51 + e + 51))%Z
      with 0%Z by (unfold fexp, SpecFloat.emin, d in *; lia).
    cbn [shr shr_m xorb]. by destruct (_ <=? _)%Z, s.
Qed.

(** ** Strings *)

Lemma lstrip_idem s : PyStr.lstrip (PyStr.lstrip s) = PyStr.lstrip s.
Proof.
  induction s as [|c t IH]; simpl; [done|].
  destruct (PyStr.isspace c) eqn:E; [done|]. simpl. by rewrite E.
Qed.

Lemma rstrip_idem s : PyStr.rstrip (PyStr.rstrip s) = PyStr.rstrip s.
Proof.
  induction s as [|c t IH]; simpl; [done|].
  destruct (PyStr.isspace c && PyStr.is_empty (PyStr.rstrip t)) eqn:E; [done|].
  simpl. by rewrite IH, E.
Qed.

Lemma rstrip_lstrip t :
  PyStr.rstrip t = t -> PyStr.rstrip (PyStr.lstrip t) = PyStr.lstrip t.
Proof.
  induction t as [|c t IH]; [done|]. intros H. simpl in H |- *.
  destruct (PyStr.isspace c) eqn:Ec; [|by simpl; rewrite Ec].
  apply IH. simpl in H.
  destruct (PyStr.is_empty (PyStr.rstrip t)); [done | by injection H].
Qed.

(** [strip] is idempotent. *)
Lemma strip_idem s : PyStr.strip (PyStr.strip s) = PyStr.strip s.
Proof.
  unfold PyStr.strip.
  rewrite (rstrip_lstrip (PyStr.rstrip s)) by apply rstrip_idem.
  apply lstrip_idem.
Qed.

(** The two leaf tests agree: [is_raw_material] is the prefix test. *)
Lemma is_raw_material_startswith s :
  is_raw_material (PyStr.strip s) = PyStr.startswith (PyStr.strip s) "1".
Proof.
  unfold is_raw_material, get_material_type. rewrite strip_idem.
  destruct (PyStr.strip s) as [|c t] eqn:E; simpl; [done|].
  destruct (bool_decide (String c t = "nan")) eqn:En.
  - apply bool_decide_eq_true in En. injection En as -> ->. done.
  - repeat case_bool_decide; subst; try done.
Qed.

(** ** Lists *)

Lemma elem_of_flat_map {A B} (f : A -> list B) (l : list A) (y : B) :
  y ∈ flat_map f l <-> exists x, x ∈ l /\ y ∈ f x.
Proof.
  rewrite list_elem_of_In, in_flat_map.
  split; intros (x & H1 & H2); exists x; by rewrite ?list_elem_of_In in *.
Qed.

(** ** Dictionaries *)

Section dict_facts.
Context {V : Type}.
Implicit Types (d : dict V) (k : string) (f : option V -> V).

Lemma dict_get_Some_elem d k v : dict_get d k = Some v -> (k, v) ∈ d.
Proof.
  induction d as [|[k' v'] d IH]; simpl; [done|].
  case_decide as Hk; [intros [= ->]; rewrite Hk | intros];
    apply elem_of_cons; auto.
Qed.

Lemma dict_get_None d k : dict_get d k = None <-> k ∉ dict_keys d.
Proof.
  induction d as [|[k' v'] d IH]; simpl.
  - split; [intros _; apply not_elem_of_nil | done].
  - case_decide; subst.
    + split; [done | intros H; exfalso; apply H; set_solver].
    + rewrite IH. rewrite not_elem_of_cons. naive_solver.
Qed.

Lemma dict_mem_keys d k : dict_mem d k = true <-> k ∈ dict_keys d.
Proof.
  unfold dict_mem. destruct (dict_get d k) eqn:E.
  - split; [intros _|done].
    apply dict_get_Some_elem in E. apply (list_elem_of_fmap_2 fst) in E. done.
  - apply dict_get_None in E. split; [done | intros; contradiction].
Qed.

Lemma dict_get_upd d k f k' :
  dict_get (dict_upd d k f) k' =
  if decide (k = k') then Some (f (dict_get d k)) else dict_get d k'.
Proof.
  induction d as [|[k0 v0] d IH]; simpl.
  - repeat case_decide; congruence.
  - repeat (case_decide; simpl; subst); rewrite ?IH;
      repeat case_decide; congruence.
Qed.

Lemma dict_keys_upd d k f :
  dict_keys (dict_upd d k f) =
  if decide (k ∈ dict_keys d) then dict_keys d else dict_keys d ++ [k].
Proof.
  induction d as [|[k0 v0] d IH]; simpl.
  - done.
  - destruct (decide (k0 = k)) as [->|Hne]; simpl.
    + destruct (decide (k ∈ k :: dict_keys d)) as [H|H];
        [done | exfalso; apply H; set_solver].
    + rewrite IH. destruct (decide (k ∈ dict_keys d)) as [Hin|Hnin];
        destruct (decide (k ∈ k0 :: dict_keys d)) as [H|H]; try done.
      * exfalso; apply H; set_solver.
      * apply elem_of_cons in H as [?|?]; congruence.
Qed.

Lemma dict_keys_upd_elem d k f k' :
  k' ∈ dict_keys (dict_upd d k f) <-> k' = k \/ k' ∈ dict_keys d.
Proof.
  rewrite dict_keys_upd. case_decide.
  - naive_solver.
  - rewrite elem_of_app, list_elem_of_singleton. naive_solver.
Qed.

Lemma dict_keys_upd_NoDup d k f :
  NoDup (dict_keys d) -> NoDup (dict_keys (dict_upd d k f)).
Proof.
  intros Hnd. rewrite dict_keys_upd. case_decide; [done|].
  apply NoDup_app. split_and!; [done | | apply NoDup_singleton].
  intros x Hx Hx'. apply list_elem_of_singleton in Hx'. by subst.
Qed.

(** An entry of an updated dictionary is an old entry or the new value. *)
Lemma dict_upd_elem d k f k' v' :
  (k', v') ∈ dict_upd d k f ->
  (k', v') ∈ d \/ (k' = k /\ v' = f (dict_get d k)).
Proof.
  induction d as [|[k0 v0] d IH]; simpl.
  - intros H. apply list_elem_of_singleton in H. injection H as -> ->. by right.
  - case_decide as Hk; subst.
    + intros H. apply elem_of_cons in H as [[= -> ->]|H]; [by right|].
      left. set_solver.
    + intros H. apply elem_of_cons in H as [[= -> ->]|H]; [left; set_solver|].
      destruct (IH H) as [?|[-> ->]]; [left; set_solver | by right].
Qed.

End dict_facts.

(** ** Unit normaliser *)

(** C3, as amended.  In the gram family ({G, GR, GRAM, GRAMS} after
    trimming and uppercasing) [convert_quantity] returns
    [(q * 0.001, 'KG')]; for every other unit it returns the quantity
    unchanged with the trimmed, uppercased unit.  The result is
    [(q * 0.001, 'KG')] exactly when the unit is in the gram family, or
    the unit is ['KG'] and [q * 0.001] is [q] again, where both branches
    give the same pair: so it is for the quantities [0.0] and [inf], and
    not for [5.0]. *)
Theorem convert_quantity_gram (q : float) (u : string) :
  let unit := PyStr.upper (PyStr.strip u) in
  (unit ∈ gram_units -> convert_quantity q u = ((q * 0.001)%float, "KG")) /\
  (unit ∉ gram_units -> convert_quantity q u = (q, unit)) /\
  (convert_quantity q u = ((q * 0.001)%float, "KG") <->
   unit ∈ gram_units \/ (unit = "KG" /\ (q * 0.001)%float = q)) /\
  (0 * 0.001 = 0 /\ infinity * 0.001 = infinity /\ 5 * 0.001 <> 5)%float.
Proof.
  intros unit. unfold convert_quantity. fold unit.
  assert (Hex : (0 * 0.001 = 0 /\ infinity * 0.001 = infinity
                 /\ 5 * 0.001 <> 5)%float).
  { split_and!; [done | done |].
    apply (bool_decide_eq_false_1 (_ = _)). reflexivity. }
  split; [|split; [|split; [|exact Hex]]]; case_bool_decide as Hg; try done.
  - split; auto.
  - split.
    + intros [= Hq Hu]. right. by split.
    + intros [?|[-> Hq]]; [done|]. by rewrite Hq.
Qed.

(** C3, counterexample: an infinite quantity in kilograms.  [inf] passes
    the admission test [qty > 0] of the relation builder, and for the
    unit ['kg'] the function returns [(inf, 'KG')], which is
    [(inf * 0.001, 'KG')], although the unit is not in the gram family;
    the same happens for the quantity [0.0].  So the equivalence as
    stated fails. *)
Lemma convert_quantity_kg_coincides :
  ~ (forall (q : float) (u : string),
       (0 <? q)%float = true ->
       (convert_quantity q u = ((q * 0.001)%float, "KG") <->
        PyStr.upper (PyStr.strip u) ∈ gram_units)).
Proof.
  intros H. destruct (H infinity "kg" eq_refl) as [H1 _].
  assert (Hin : PyStr.upper (PyStr.strip "kg") ∈ gram_units)
    by (by apply H1).
  revert Hin. apply (bool_decide_eq_false_1 (_ ∈ _)). reflexivity.
Qed.

(** ** Explosion engine *)

(** At [binary64], the arithmetic of the program, the inner loop is the
    statement [total[material] += quantity * qty] in float
    multiplication and addition, a missing key counting as [0.0]. *)
Lemma accumulate_binary64 (total sub_map : dict float) (qty : float) :
  accumulate total sub_map qty =
  fold_left (fun total '(material, quantity) =>
               dict_upd total material
                        (fun o => (default 0 o + quantity * qty)%float))
            sub_map total.
Proof. reflexivity. Qed.

(** What does not depend on the arithmetic is proved for every
    arithmetic. *)

Section explosion_facts.
Context {N : Type} `{Arith N}.
Implicit Types (rel : table N) (total sub_map m : dict N).

Lemma explode_unit_unfold fuel rel code :
  explode_unit (S fuel) rel code =
  if is_leaf rel (PyStr.strip code) then Some [(PyStr.strip code, a_one)]
  else explode_loop (explode_unit fuel rel) (rel_at rel (PyStr.strip code)) [].
Proof. reflexivity. Qed.

(** The second variant computes the same function. *)
Lemma explode_unit_v2_eq fuel rel code :
  explode_unit_v2 fuel rel code = explode_unit fuel rel code.
Proof.
  revert code. induction fuel as [|fuel IH]; intros code; [done|].
  simpl. rewrite is_raw_material_startswith.
  destruct (_ || _ || _); [done|].
  generalize (@nil (string * N)).
  induction (rel_at rel (PyStr.strip code)) as [|[comp qty] edges IHe];
    intros total; simpl; [done|].
  rewrite IH. destruct (explode_unit fuel rel comp); [apply IHe | done].
Qed.

(** *** Invariants of the accumulation loops *)

Section loop_invariant.
Variable P : string * N -> Prop.

Lemma accumulate_Forall total sub_map qty :
  Forall P total ->
  (forall k quantity o, (k, quantity) ∈ sub_map ->
     (forall v, o = Some v -> P (k, v)) ->
     P (k, (default a_zero o + quantity * qty)%ar)) ->
  Forall P (accumulate total sub_map qty).
Proof.
  unfold accumulate. revert total.
  induction sub_map as [|[k quantity] sub IH]; intros total Ht Hstep; [done|].
  simpl. apply IH.
  - apply Forall_forall. intros [k' v'] Hin.
    apply dict_upd_elem in Hin as [Hin|[-> ->]].
    + by eapply Forall_forall in Ht.
    + apply Hstep; [apply elem_of_cons; by left|].
      intros v Hv. apply dict_get_Some_elem in Hv.
      by eapply Forall_forall in Ht.
  - intros k' q' o Hin. apply Hstep. apply elem_of_cons. by right.
Qed.

Lemma explode_loop_Forall explode edges total m :
  Forall P total ->
  (forall comp qty sub_map k quantity o,
     (comp, qty) ∈ edges -> explode comp = Some sub_map ->
     (k, quantity) ∈ sub_map ->
     (forall v, o = Some v -> P (k, v)) ->
     P (k, (default a_zero o + quantity * qty)%ar)) ->
  explode_loop explode edges total = Some m ->
  Forall P m.
Proof.
  revert total.
  induction edges as [|[comp qty] edges IH]; intros total Ht Hstep; simpl.
  - by intros [= <-].
  - destruct (explode comp) as [sub_map|] eqn:E; [|done].
    apply IH.
    + apply accumulate_Forall; [done|].
      intros k quantity o Hin. eapply Hstep; [|done|done].
      apply elem_of_cons. by left.
    + intros comp' qty' sub' k quantity o Hin.
      apply Hstep. apply elem_of_cons. by right.
Qed.

End loop_invariant.

(** Every key of an explosion result is a leaf. *)
Lemma explode_unit_keys_leaf fuel rel code m :
  explode_unit fuel rel code = Some m ->
  Forall (fun kv => is_leaf rel kv.1 = true) m.
Proof.
  revert code m. induction fuel as [|fuel IH]; intros code m; [done|].
  rewrite explode_unit_unfold.
  destruct (is_leaf rel (PyStr.strip code)) eqn:El.
  - intros [= <-]. by repeat constructor.
  - apply explode_loop_Forall; [constructor|].
    intros comp qty sub_map k quantity o _ Hsub Hin _.
    apply IH in Hsub. rewrite Forall_forall in Hsub. exact (Hsub _ Hin).
Qed.

Lemma is_leaf_spec rel item :
  is_leaf rel item = true <->
  PyStr.startswith item "1" = true \/ dict_get rel item = None
  \/ dict_get rel item = Some [].
Proof.
  unfold is_leaf, dict_mem, rel_at.
  destruct (PyStr.startswith item "1"); [naive_solver|].
  destruct (dict_get rel item) as [[|e l]|]; simpl; naive_solver.
Qed.

End explosion_facts.

(** C2.  [explode_unit(code)] returns exactly [{item: 1.0}], [item] being
    the trimmed code, if and only if [item] starts with ['1'], or has no
    entry in the relations, or has an empty relation list; and a code
    starting with ['1'] is returned as [{item: 1.0}] whatever the
    relations hold for it, at recursion depth one (no recursive call is
    made).  Both variants of the leaf test behave so. *)
Theorem explode_unit_leaf_iff (rel : relations) (code : string) :
  let item := PyStr.strip code in
  ((exists fuel, explode_unit fuel rel code = Some [(item, 1%float)]) <->
   PyStr.startswith item "1" = true \/ dict_get rel item = None
   \/ dict_get rel item = Some [])
  /\ (PyStr.startswith item "1" = true ->
      explode_unit 1 rel code = Some [(item, 1%float)])
  /\ (forall fuel, explode_unit_v2 fuel rel code = explode_unit fuel rel code).
Proof.
  intros item. split_and!.
  - rewrite <- is_leaf_spec. split.
    + intros [fuel Hm]. destruct (is_leaf rel item) eqn:El; [done|].
      apply explode_unit_keys_leaf in Hm.
      apply Forall_cons in Hm as [Hm _]. simpl in Hm. congruence.
    + intros El. exists 1%nat. rewrite explode_unit_unfold. fold item.
      by rewrite El.
  - intros H1. rewrite explode_unit_unfold. fold item.
    unfold is_leaf. by rewrite H1.
  - intros fuel. apply explode_unit_v2_eq.
Qed.

Lemma edge_of_table {N} (P : string * N -> Prop) (rel : table N) item e :
  Forall (fun entry => Forall P (entry.2 : list (string * N))) rel ->
  e ∈ rel_at rel item -> P e.
Proof.
  intros Hall He. unfold rel_at in He.
  destruct (dict_get rel item) as [comps|] eqn:Eg;
    [|by apply elem_of_nil in He].
  apply dict_get_Some_elem in Eg.
  rewrite Forall_forall in Hall. specialize (Hall _ Eg).
  rewrite Forall_forall in Hall. exact (Hall _ He).
Qed.

(** C10, as amended.  If every stored edge quantity is strictly
    positive, no quantity in a map returned by [explode_unit] is
    negative; and if the edge quantities are finite as well, every
    quantity is at least zero (not NaN).  Zero does occur: see
    [explode_unit_underflow]. *)
Theorem explode_unit_nonnegative (rel : relations) (fuel : nat)
    (code : string) (m : dict float) :
  positive_edges rel ->
  explode_unit fuel rel code = Some m ->
  forall material quantity, (material, quantity) ∈ m ->
    (quantity <? 0)%float = false
    /\ (finite_edges rel -> (0 <=? quantity)%float = true).
Proof.
  intros Hpos Hm material quantity Hin.
  enough (HF : Forall (fun kv : string * float =>
                         (kv.2 <? 0)%float = false
                         /\ (finite_edges rel -> (0 <=? kv.2)%float = true)) m)
    by (rewrite Forall_forall in HF; exact (HF _ Hin)).
  clear material quantity Hin. revert code m Hm.
  induction fuel as [|fuel IH]; intros code m; [done|].
  rewrite explode_unit_unfold.
  destruct (is_leaf rel (PyStr.strip code)) eqn:El.
  - intros [= <-]. by repeat constructor.
  - apply explode_loop_Forall; [constructor|].
    intros comp qty sub_map k quantity o Hedge Hsub Hin Ho. simpl.
    assert (Hq : (0 <? qty)%float = true)
      by exact (edge_of_table (fun e => (0 <? e.2)%float = true) _ _ _
                              Hpos Hedge).
    apply IH in Hsub. rewrite Forall_forall in Hsub.
    destruct (Hsub _ Hin) as [Hn Hz]. simpl in Hn, Hz.
    assert (Ho' : (default 0%float o <? 0)%float = false
                  /\ (finite_edges rel ->
                      (0 <=? default 0%float o)%float = true)).
    { destruct o as [v|]; [exact (Ho v eq_refl) | done]. }
    destruct Ho' as [Hon Hoz]. split.
    + apply add_not_negative; [done | by apply mul_not_negative].
    + intros Hfin. apply add_nonnegative; [by apply Hoz|].
      apply mul_nonnegative; [by apply Hz | done |].
      exact (edge_of_table (fun e => (e.2 <? infinity)%float = true) _ _ _
                           Hfin Hedge).
Qed.

(** C10, instance: the example BOM, and the BOM of tiny quantities,
    whose one quantity is zero. *)
Lemma explode_unit_nonnegative_witness :
  positive_edges bom_tiny /\ finite_edges bom_tiny /\
  explode_unit 3 bom_tiny "A" = Some [("C", 0%float)] /\
  forall material quantity,
    (material, quantity) ∈ [("C", 0%float)] ->
    (quantity <? 0)%float = false
    /\ (finite_edges bom_tiny -> (0 <=? quantity)%float = true).
Proof.
  assert (Hp : positive_edges bom_tiny) by (repeat constructor).
  assert (Hf : finite_edges bom_tiny) by (repeat constructor).
  assert (He : explode_unit 3 bom_tiny "A" = Some [("C", 0%float)])
    by reflexivity.
  split_and!; [exact Hp | exact Hf | exact He |].
  exact (explode_unit_nonnegative bom_tiny 3 "A" _ Hp He).
Defined.

(** C10, counterexample: the edge quantities of A -> 1e-200 x B,
    B -> 1e-200 x C are strictly positive, and their product underflows:
    the explosion of A is [{C: 0.0}], so strict positivity is not
    preserved. *)
Lemma explode_unit_underflow :
  ~ (forall (rel : relations) (fuel : nat) (code : string) (m : dict float),
       positive_edges rel ->
       explode_unit fuel rel code = Some m ->
       forall material quantity,
         (material, quantity) ∈ m -> (0 <? quantity)%float = true).
Proof.
  intros Hall.
  assert (Hp : positive_edges bom_tiny) by (repeat constructor).
  specialize (Hall bom_tiny 3 "A" [("C", 0%float)] Hp eq_refl "C" 0%float).
  assert (Hin : ("C", 0%float) ∈ [("C", 0%float)])
    by (apply elem_of_cons; by left).
  apply Hall in Hin. discriminate.
Qed.

(** *** Keys, fuel and paths, in every arithmetic *)

Section explosion_structure.
Context {N : Type} `{Arith N}.
Implicit Types (rel : table N) (total sub_map m : dict N).

Lemma accumulate_keys total sub_map qty k :
  k ∈ dict_keys (accumulate total sub_map qty) <->
  k ∈ dict_keys total \/ k ∈ dict_keys sub_map.
Proof.
  unfold accumulate. revert total.
  induction sub_map as [|[k' v] sub IH]; intros total; simpl.
  - split; [auto | intros [?|Hk]; [done | by apply elem_of_nil in Hk]].
  - rewrite IH. unfold dict_add. rewrite dict_keys_upd_elem, elem_of_cons.
    naive_solver.
Qed.

Lemma accumulate_NoDup total sub_map qty :
  NoDup (dict_keys total) -> NoDup (dict_keys (accumulate total sub_map qty)).
Proof.
  unfold accumulate. revert total.
  induction sub_map as [|[k' v] sub IH]; intros total Hnd; simpl; [done|].
  apply IH. by apply dict_keys_upd_NoDup.
Qed.

Lemma explode_loop_NoDup explode edges total m :
  NoDup (dict_keys total) ->
  explode_loop explode edges total = Some m -> NoDup (dict_keys m).
Proof.
  revert total. induction edges as [|[comp qty] edges IH]; intros total Hnd;
    simpl.
  - by intros [= <-].
  - destruct (explode comp) as [sub|]; [|done].
    apply IH. by apply accumulate_NoDup.
Qed.

Lemma explode_unit_NoDup fuel rel code m :
  explode_unit fuel rel code = Some m -> NoDup (dict_keys m).
Proof.
  destruct fuel as [|fuel]; [done|]. rewrite explode_unit_unfold.
  destruct (is_leaf rel (PyStr.strip code)).
  - intros [= <-]. apply NoDup_singleton.
  - apply explode_loop_NoDup. constructor.
Qed.

(** The loop returns when every recursive call does. *)
Lemma explode_loop_defined explode edges total :
  (forall e, e ∈ edges -> is_Some (explode e.1)) ->
  is_Some (explode_loop explode edges total).
Proof.
  revert total.
  induction edges as [|[comp qty] edges IH]; intros total Hsub; simpl; [done|].
  destruct (Hsub (comp, qty)) as [sub Hs]; [apply elem_of_cons; by left|].
  simpl in Hs. rewrite Hs. apply IH.
  intros e He. apply Hsub. apply elem_of_cons. by right.
Qed.

Lemma explode_loop_calls explode edges total m :
  explode_loop explode edges total = Some m ->
  forall e, e ∈ edges -> is_Some (explode e.1).
Proof.
  revert total.
  induction edges as [|[comp qty] edges IH]; intros total Hm e He; simpl in *.
  - by apply elem_of_nil in He.
  - destruct (explode comp) as [sub|] eqn:Es; [|done].
    apply elem_of_cons in He as [->|He]; [by exists sub | by eapply IH].
Qed.

Lemma explode_loop_keys explode edges total m :
  explode_loop explode edges total = Some m ->
  forall k, k ∈ dict_keys m <->
    k ∈ dict_keys total
    \/ exists e sub, e ∈ edges /\ explode e.1 = Some sub /\ k ∈ dict_keys sub.
Proof.
  revert total.
  induction edges as [|[comp qty] edges IH]; intros total; simpl.
  - intros [= <-] k. split; [auto|]. intros [?|(e & ? & He & _)]; [done|].
    by apply elem_of_nil in He.
  - destruct (explode comp) as [sub|] eqn:Hs; [|done].
    intros Hm k. rewrite (IH _ Hm), accumulate_keys. split.
    + intros [[?|Hk]|(e & sub' & He & Hse & Hk)]; [by left | |].
      * right. exists (comp, qty), sub.
        split_and!; [apply elem_of_cons; by left | done | done].
      * right. exists e, sub'.
        split_and!; [apply elem_of_cons; by right | done | done].
    + intros [?|(e & sub' & He & Hse & Hk)]; [left; by left|].
      apply elem_of_cons in He as [->|He].
      * simpl in Hse. rewrite Hs in Hse. injection Hse as <-.
        left. by right.
      * right. by exists e, sub'.
Qed.

(** *** Fuel *)

Lemma explode_loop_mono explode explode' edges total m :
  (forall c r, explode c = Some r -> explode' c = Some r) ->
  explode_loop explode edges total = Some m ->
  explode_loop explode' edges total = Some m.
Proof.
  intros Hle. revert total.
  induction edges as [|[comp qty] edges IH]; intros total; simpl; [done|].
  destruct (explode comp) as [sub|] eqn:E; [|done].
  rewrite (Hle _ _ E). apply IH.
Qed.

Lemma explode_unit_fuel_S fuel rel code m :
  explode_unit fuel rel code = Some m ->
  explode_unit (S fuel) rel code = Some m.
Proof.
  revert code m. induction fuel as [|fuel IH]; intros code m; [done|].
  rewrite !explode_unit_unfold.
  destruct (is_leaf rel (PyStr.strip code)); [done|].
  apply explode_loop_mono. intros c r. apply IH.
Qed.

Lemma explode_unit_fuel_le fuel fuel' rel code m :
  fuel <= fuel' ->
  explode_unit fuel rel code = Some m ->
  explode_unit fuel' rel code = Some m.
Proof.
  induction 1 as [|fuel' _ IH]; [done|].
  intros Hm. by apply explode_unit_fuel_S, IH.
Qed.

(** *** Paths *)

Lemma all_paths_sound fuel rel item es leaf :
  (es, leaf) ∈ all_paths fuel rel item -> path rel item es leaf.
Proof.
  revert item es leaf. induction fuel as [|fuel IH]; intros item es leaf; simpl.
  - intros Hin. by apply elem_of_nil in Hin.
  - destruct (is_leaf rel item) eqn:El.
    + intros Hin. apply list_elem_of_singleton in Hin. injection Hin as -> ->.
      by constructor.
    + intros Hin. apply elem_of_flat_map in Hin as ([comp qty] & Hedge & Hin).
      apply list_elem_of_fmap in Hin as ([es' l'] & [= -> ->] & Hin).
      apply path_step; [done | done | by apply IH].
Qed.

Lemma reaches_leaves_leaf rel fuel item :
  is_leaf rel item = true -> reaches_leaves rel (S fuel) item [(item, a_one)].
Proof.
  intros El. unfold reaches_leaves. simpl. rewrite El. split_and!.
  - apply NoDup_singleton.
  - intros leaf. rewrite list_elem_of_singleton. split.
    + intros ->. exists []. by constructor.
    + intros [es Hp]. inversion Hp; subst; [done | congruence].
  - intros es leaf. rewrite list_elem_of_singleton. split.
    + intros [= -> ->]. by constructor.
    + intros Hp. inversion Hp; subst; [done | congruence].
Qed.

Lemma reaches_leaves_node rel fuel item :
  is_leaf rel item = false ->
  (forall e, e ∈ rel_at rel item ->
     exists sub, explode_unit fuel rel e.1 = Some sub
                 /\ reaches_leaves rel fuel (PyStr.strip e.1) sub) ->
  exists m,
    explode_loop (explode_unit fuel rel) (rel_at rel item) [] = Some m
    /\ reaches_leaves rel (S fuel) item m.
Proof.
  intros El Hsub.
  destruct (explode_loop_defined (explode_unit fuel rel) (rel_at rel item) [])
    as [m Hm].
  { intros e He. destruct (Hsub e He) as (sub & Hs & _). by rewrite Hs. }
  exists m. split; [done|].
  pose proof (explode_loop_keys _ _ _ _ Hm) as Hkeys.
  unfold reaches_leaves. split_and!.
  - eapply explode_loop_NoDup; [|exact Hm]. constructor.
  - intros leaf. rewrite Hkeys. split.
    + intros [Hk|(e & sub & He & Hs & Hin)]; [by apply elem_of_nil in Hk|].
      destruct (Hsub e He) as (sub' & Hs' & Hok).
      rewrite Hs in Hs'. injection Hs' as <-.
      destruct Hok as (_ & Hsk & _). apply Hsk in Hin as [es Hp].
      destruct e as [comp qty]. exists ((comp, qty) :: es).
      by apply path_step.
    + intros [es Hp]. inversion Hp as [|? comp qty es' ? _ He Hp']; subst;
        [congruence|].
      right. destruct (Hsub _ He) as (sub & Hs & Hok).
      exists (comp, qty), sub. split_and!; [done | done |].
      destruct Hok as (_ & Hsk & _). apply Hsk. by exists es'.
  - intros es leaf. split; [apply all_paths_sound|].
    intros Hp. simpl. rewrite El.
    inversion Hp as [|? comp qty es' ? _ He Hp']; subst; [congruence|].
    apply elem_of_flat_map. exists (comp, qty). split; [done|].
    apply list_elem_of_fmap. exists (es', leaf). split; [done|].
    destruct (Hsub _ He) as (sub & Hs & Hok).
    destruct Hok as (_ & _ & Hall). by apply Hall.
Qed.

Lemma is_leaf_false_key rel item :
  is_leaf rel item = false -> item ∈ dict_keys rel.
Proof.
  unfold is_leaf. intros Hl.
  apply orb_false_elim in Hl as [Hl _]. apply orb_false_elim in Hl as [_ Hl].
  apply negb_false_iff in Hl. by apply dict_mem_keys.
Qed.

(** The recursion depth is bounded by the number of parents that are not
    yet on the call stack [stack]. *)
Lemma explode_unit_spec_aux rel :
  acyclic rel ->
  forall fuel (stack : gset string) code,
    (forall s, s ∈ stack -> tc (component_edge rel) s (PyStr.strip code)) ->
    size (list_to_set (dict_keys rel) ∖ stack : gset string) < fuel ->
    exists m, explode_unit fuel rel code = Some m
              /\ reaches_leaves rel fuel (PyStr.strip code) m.
Proof.
  intros Hac. induction fuel as [|fuel IH]; intros stack code Hreach Hsize;
    [lia|].
  rewrite explode_unit_unfold.
  destruct (is_leaf rel (PyStr.strip code)) eqn:El.
  - eexists. split; [done | by apply reaches_leaves_leaf].
  - apply reaches_leaves_node; [done|].
    intros [comp qty] He. simpl.
    assert (Hnot : PyStr.strip code ∉ stack).
    { intros Hin. by apply (Hac _ (Hreach _ Hin)). }
    apply (IH ({[PyStr.strip code]} ∪ stack)).
    + intros s Hs. apply elem_of_union in Hs as [Hs|Hs].
      * apply elem_of_singleton in Hs as ->. apply tc_once.
        by exists comp, qty.
      * eapply tc_r; [by apply Hreach|]. by exists comp, qty.
    + apply is_leaf_false_key in El.
      assert (Hlt : size (list_to_set (dict_keys rel)
                          ∖ ({[PyStr.strip code]} ∪ stack) : gset string)
                    < size (list_to_set (dict_keys rel) ∖ stack : gset string)).
      { apply subset_size.
        assert (PyStr.strip code ∈ (list_to_set (dict_keys rel) : gset string))
          by by apply elem_of_list_to_set.
        set_solver. }
      lia.
Qed.

(** A rank certificate proves acyclicity. *)
Lemma ranked_acyclic ranks rel : ranked ranks rel = true -> acyclic rel.
Proof.
  intros Hr.
  assert (Hedge : forall x y, component_edge rel x y ->
                              rank_of ranks y < rank_of ranks x).
  { intros x y (comp & qty & He & ->). unfold rel_at in He.
    destruct (dict_get rel x) as [comps|] eqn:Eg;
      [|by apply elem_of_nil in He].
    apply dict_get_Some_elem in Eg.
    unfold ranked in Hr. rewrite forallb_forall in Hr.
    apply list_elem_of_In in Eg. specialize (Hr _ Eg). simpl in Hr.
    rewrite forallb_forall in Hr.
    apply list_elem_of_In in He. specialize (Hr _ He). simpl in Hr.
    by apply Nat.ltb_lt in Hr. }
  assert (Htc : forall x y, tc (component_edge rel) x y ->
                            rank_of ranks y < rank_of ranks x).
  { induction 1 as [x y Hxy|x y z Hxy _ IH]; [by apply Hedge|].
    apply Hedge in Hxy. lia. }
  intros x Hx. apply Htc in Hx. lia.
Qed.

End explosion_structure.

(** *** Sums in exact arithmetic *)

Lemma dict_total_add (d : dict Qc) k x k' :
  dict_total (dict_add d k x) k' =
  (dict_total d k' + (if decide (k = k') then x else 0))%Qc.
Proof.
  unfold dict_total, dict_add. rewrite dict_get_upd. simpl.
  destruct (decide (k = k')) as [->|Hne]; simpl; [done | ring].
Qed.

Lemma entries_sum_absent d k : k ∉ dict_keys d -> entries_sum d k = 0%Qc.
Proof.
  unfold entries_sum. induction d as [|[k' v] d IH]; simpl; [done|].
  intros Hn. apply not_elem_of_cons in Hn as [Hne Hn].
  rewrite decide_False by done. rewrite IH by done. ring.
Qed.

Lemma entries_sum_total (d : dict Qc) k :
  NoDup (dict_keys d) -> entries_sum d k = dict_total d k.
Proof.
  unfold dict_total. cbn [a_zero exact].
  induction d as [|[k' v] d IH]; simpl; [done|].
  intros Hnd. apply NoDup_cons in Hnd as [Hnin Hnd].
  unfold entries_sum. simpl. fold (entries_sum d k).
  destruct (decide (k' = k)) as [->|Hne].
  - rewrite entries_sum_absent by done. simpl. ring.
  - rewrite IH by done. ring.
Qed.

Lemma accumulate_total (total sub_map : dict Qc) qty k :
  dict_total (accumulate total sub_map qty) k =
  (dict_total total k + entries_sum sub_map k * qty)%Qc.
Proof.
  unfold accumulate, entries_sum. revert total.
  induction sub_map as [|[k' v] sub IH]; intros total; simpl; [ring|].
  rewrite IH, dict_total_add. destruct (decide (k' = k)); ring.
Qed.

Lemma sum_Qc_app l1 l2 : sum_Qc (l1 ++ l2) = (sum_Qc l1 + sum_Qc l2)%Qc.
Proof.
  unfold sum_Qc. induction l1 as [|x l1 IH]; simpl; [ring|].
  rewrite IH. ring.
Qed.

Lemma sum_Qc_cons x l : sum_Qc (x :: l) = (x + sum_Qc l)%Qc.
Proof. done. Qed.

Lemma sum_Qc_ext {A} (f g : A -> Qc) l :
  (forall x, x ∈ l -> f x = g x) -> sum_Qc (map f l) = sum_Qc (map g l).
Proof.
  induction l as [|x l IH]; intros Hfg; simpl; [done|].
  rewrite Hfg by (apply elem_of_cons; by left).
  rewrite IH; [done|]. intros y Hy. apply Hfg. apply elem_of_cons. by right.
Qed.

Lemma explode_loop_total (explode : string -> option (dict Qc)) edges total m :
  (forall c sub, explode c = Some sub -> NoDup (dict_keys sub)) ->
  explode_loop explode edges total = Some m ->
  forall k, dict_total m k =
            (dict_total total k + sum_Qc (map (edge_share explode k) edges))%Qc.
Proof.
  intros Hnd. revert total.
  induction edges as [|[comp qty] edges IH]; intros total; simpl.
  - intros [= <-] k. ring.
  - destruct (explode comp) as [sub|] eqn:Hs; [|done].
    intros Hm k. rewrite (IH _ Hm), accumulate_total.
    unfold edge_share at 2. simpl. rewrite Hs. simpl.
    rewrite entries_sum_total by (by eapply Hnd). ring.
Qed.

Lemma path_sum_app l1 l2 leaf :
  path_sum (l1 ++ l2) leaf = (path_sum l1 leaf + path_sum l2 leaf)%Qc.
Proof. unfold path_sum. by rewrite map_app, sum_Qc_app. Qed.

Lemma path_sum_extend comp qty paths leaf :
  path_sum (map (fun '(es, l) => ((comp, qty) :: es, l)) paths) leaf =
  (path_sum paths leaf * qty)%Qc.
Proof.
  unfold path_sum, sum_Qc.
  induction paths as [|[es l] paths IH]; simpl; [ring|].
  rewrite IH. destruct (decide (l = leaf)); simpl; ring.
Qed.

Lemma path_sum_flat_map fuel (rel : table Qc) edges leaf :
  path_sum (flat_map (fun '(comp, qty) =>
                        map (fun '(es, l) => ((comp, qty) :: es, l))
                            (all_paths fuel rel (PyStr.strip comp)))
                     edges) leaf =
  sum_Qc (map (fun e => (path_sum (all_paths fuel rel (PyStr.strip e.1)) leaf
                         * e.2)%Qc) edges).
Proof.
  induction edges as [|[comp qty] edges IH]; simpl; [done|].
  rewrite path_sum_app, path_sum_extend, IH. done.
Qed.

(** The path-expansion identity in exact arithmetic: whenever the
    explosion returns, the quantity of each leaf is the sum of the path
    products. *)
Lemma exact_explosion fuel (rel : table Qc) code m :
  explode_unit fuel rel code = Some m ->
  forall leaf,
    dict_total m leaf = path_sum (all_paths fuel rel (PyStr.strip code)) leaf.
Proof.
  revert code m. induction fuel as [|fuel IH]; intros code m; [done|].
  rewrite explode_unit_unfold. simpl.
  destruct (is_leaf rel (PyStr.strip code)) eqn:El.
  - intros [= <-] leaf. unfold dict_total, path_sum, sum_Qc. simpl.
    destruct (decide (PyStr.strip code = leaf)); simpl; [|done].
    unfold path_product. simpl. ring.
  - intros Hm leaf.
    rewrite (explode_loop_total _ _ _ _ (explode_unit_NoDup fuel rel) Hm).
    rewrite path_sum_flat_map. unfold dict_total at 1. simpl.
    rewrite Qcplus_0_l. apply sum_Qc_ext. intros e He.
    destruct (explode_loop_calls _ _ _ _ Hm e He) as [sub Hs].
    unfold edge_share. rewrite Hs. simpl. by rewrite (IH _ _ Hs).
Qed.

(** *** The same run in two arithmetics *)

Section related.
Context {A B : Type} (R : A -> B -> Prop).

Lemma dict_related_get d d' k :
  dict_related R d d' -> option_Forall2 R (dict_get d k) (dict_get d' k).
Proof.
  induction 1 as [|[k1 v1] [k2 v2] d d' [Hk Hv] _ IH]; simpl in *;
    [constructor|]. subst k2.
  destruct (decide (k1 = k)); [by constructor | done].
Qed.

Lemma dict_related_upd d d' k f f' :
  dict_related R d d' ->
  (forall o o', option_Forall2 R o o' -> R (f o) (f' o')) ->
  dict_related R (dict_upd d k f) (dict_upd d' k f').
Proof.
  intros Hd Hf.
  induction Hd as [|[k1 v1] [k2 v2] d d' [Hk Hv] Hd IH]; simpl in *.
  - repeat constructor. apply Hf. constructor.
  - subst k2. destruct (decide (k1 = k)).
    + constructor; [|done]. split; [done|]. apply Hf. by constructor.
    + by constructor.
Qed.

Lemma dict_related_keys d d' :
  dict_related R d d' -> dict_keys d = dict_keys d'.
Proof.
  induction 1 as [|[k1 v1] [k2 v2] d d' [Hk Hv] _ IH]; simpl in *; [done|].
  by f_equal.
Qed.

End related.

Section simulation.
Context {A B : Type} `{Arith A} `{Arith B} (R : A -> B -> Prop).
Hypothesis R_zero : R a_zero a_zero.
Hypothesis R_one : R a_one a_one.
Hypothesis R_mul :
  forall x x' y y', R x x' -> R y y' -> R (x * y)%ar (x' * y')%ar.
Hypothesis R_add :
  forall x x' y y', R x x' -> R y y' -> R (x + y)%ar (x' + y')%ar.

Lemma accumulate_related total total' sub sub' qty qty' :
  dict_related R total total' -> dict_related R sub sub' -> R qty qty' ->
  dict_related R (accumulate total sub qty) (accumulate total' sub' qty').
Proof.
  intros Ht Hs Hq. unfold accumulate. revert total total' Ht.
  induction Hs as [|[k1 v1] [k2 v2] sub sub' [Hk Hv] _ IH];
    intros total total' Ht; simpl in *; [done|]. subst k2.
  apply IH. apply dict_related_upd; [done|].
  intros o o' Ho. apply R_add; [|by apply R_mul].
  by destruct Ho.
Qed.

Lemma explode_loop_related explode explode' edges edges' total total' :
  (forall c, option_Forall2 (dict_related R) (explode c) (explode' c)) ->
  dict_related R edges edges' -> dict_related R total total' ->
  option_Forall2 (dict_related R) (explode_loop explode edges total)
                 (explode_loop explode' edges' total').
Proof.
  intros Hex He. revert total total'.
  induction He as [|[c1 q1] [c2 q2] edges edges' [Hc Hq] _ IH];
    intros total total' Ht; simpl in *; [by constructor|]. subst c2.
  destruct (Hex c1) as [sub sub' Hsub|]; [|constructor].
  apply IH. by apply accumulate_related.
Qed.

Lemma rel_at_related rel rel' item :
  table_related R rel rel' ->
  dict_related R (rel_at rel item) (rel_at rel' item).
Proof.
  intros Hrel. unfold rel_at.
  destruct (dict_related_get (dict_related R) rel rel' item Hrel);
    [done | constructor].
Qed.

Lemma is_leaf_related rel rel' item :
  table_related R rel rel' -> is_leaf rel item = is_leaf rel' item.
Proof.
  intros Hrel. unfold is_leaf, dict_mem, rel_at.
  destruct (dict_related_get (dict_related R) rel rel' item Hrel)
    as [l l' Hl|]; [|done].
  by destruct Hl.
Qed.

Lemma explode_unit_related fuel rel rel' code :
  table_related R rel rel' ->
  option_Forall2 (dict_related R) (explode_unit fuel rel code)
                 (explode_unit fuel rel' code).
Proof.
  intros Hrel. revert code.
  induction fuel as [|fuel IH]; intros code; [constructor|].
  rewrite !explode_unit_unfold, <- (is_leaf_related rel rel') by done.
  destruct (is_leaf rel (PyStr.strip code)).
  - by repeat constructor.
  - apply explode_loop_related; [done | by apply rel_at_related | constructor].
Qed.

End simulation.

(** The checked run against the program and against exact arithmetic. *)

Lemma checked_is_Some x : checked_is (Some x) x.
Proof. by intros a [= ->]. Qed.

Lemma checked_real_zero : checked_real (Some 0%float) 0%Qc.
Proof. by intros a [= <-]. Qed.

Lemma checked_real_one : checked_real (Some 1%float) 1%Qc.
Proof.
  intros a [= <-]. apply (bool_decide_eq_true_1 (_ = _)). by vm_compute.
Qed.

Lemma checked_is_mul x x' y y' :
  checked_is x x' -> checked_is y y' ->
  checked_is (x * y)%ar (x' * y')%float.
Proof.
  intros Hx Hy a. simpl. unfold checked_op, exactly.
  destruct x as [a1|], y as [a2|]; simpl; try done.
  rewrite (Hx a1), (Hy a2) by done.
  repeat case_match; naive_solver.
Qed.

Lemma checked_is_add x x' y y' :
  checked_is x x' -> checked_is y y' ->
  checked_is (x + y)%ar (x' + y')%float.
Proof.
  intros Hx Hy a. simpl. unfold checked_op, exactly.
  destruct x as [a1|], y as [a2|]; simpl; try done.
  rewrite (Hx a1), (Hy a2) by done.
  repeat case_match; naive_solver.
Qed.

Lemma checked_real_mul x q y q' :
  checked_real x q -> checked_real y q' -> checked_real (x * y)%ar (q * q')%Qc.
Proof.
  intros Hx Hy a. simpl. unfold checked_op, exactly.
  destruct x as [a1|], y as [a2|]; simpl; try done.
  rewrite <- (Hx a1), <- (Hy a2) by done.
  destruct (is_finite a1 && is_finite a2); [|done].
  destruct (is_finite (a1 * a2)); simpl; [|done].
  case_bool_decide; [|done]. by intros [= <-].
Qed.

Lemma checked_real_add x q y q' :
  checked_real x q -> checked_real y q' -> checked_real (x + y)%ar (q + q')%Qc.
Proof.
  intros Hx Hy a. simpl. unfold checked_op, exactly.
  destruct x as [a1|], y as [a2|]; simpl; try done.
  rewrite <- (Hx a1), <- (Hy a2) by done.
  destruct (is_finite a1 && is_finite a2); [|done].
  destruct (is_finite (a1 + a2)); simpl; [|done].
  case_bool_decide; [|done]. by intros [= <-].
Qed.

Lemma checked_relations_is rel :
  table_related checked_is (checked_relations rel) rel.
Proof.
  induction rel as [|[parent comps] rel IH]; [constructor|].
  constructor; [|done]. split; [done|]. simpl.
  induction comps as [|[comp qty] comps IHc]; [constructor|].
  constructor; [|done]. split; [done|]. by intros a [= ->].
Qed.

Lemma checked_relations_real rel :
  table_related checked_real (checked_relations rel) (exact_relations rel).
Proof.
  induction rel as [|[parent comps] rel IH]; [constructor|].
  constructor; [|done]. split; [done|]. simpl.
  induction comps as [|[comp qty] comps IHc]; [constructor|].
  constructor; [|done]. split; [done|]. by intros a [= ->].
Qed.

(** A quantity the program computes without rounding is the one it
    returns, and it is the sum of the path products. *)
Lemma unrounded_quantity_spec fuel rel code m leaf q :
  explode_unit fuel rel code = Some m ->
  unrounded_quantity fuel rel code leaf = Some q ->
  dict_get m leaf = Some q
  /\ real q = path_sum (all_paths fuel (exact_relations rel) (PyStr.strip code))
                       leaf.
Proof.
  intros Hm Hq. unfold unrounded_quantity in Hq.
  destruct (explode_unit fuel (checked_relations rel) code) as [mc|] eqn:Hc;
    [|done]. simpl in Hq.
  destruct (dict_get mc leaf) as [[a|]|] eqn:Hg; simpl in Hq; try done.
  injection Hq as ->. split.
  - pose proof (explode_unit_related checked_is (checked_is_Some _)
                  (checked_is_Some _) checked_is_mul checked_is_add
                  fuel _ _ code
                  (checked_relations_is rel)) as Hsim.
    rewrite Hc, Hm in Hsim. inversion Hsim as [? ? Hd|]; subst.
    pose proof (dict_related_get _ _ _ leaf Hd) as Hl. rewrite Hg in Hl.
    inversion Hl as [? y Hy|]; subst. by rewrite (Hy q).
  - pose proof (explode_unit_related checked_real checked_real_zero
                  checked_real_one checked_real_mul checked_real_add
                  fuel _ _ code
                  (checked_relations_real rel)) as Hsim.
    rewrite Hc in Hsim. inversion Hsim as [? mq Hd Hmc Hmq|]; subst.
    symmetry in Hmq.
    pose proof (dict_related_get _ _ _ leaf Hd) as Hl. rewrite Hg in Hl.
    inversion Hl as [? y Hy Ha Hy'|]; subst.
    rewrite (Hy q eq_refl), <- (exact_explosion _ _ _ _ Hmq leaf).
    unfold dict_total. by rewrite <- Hy'.
Qed.

Lemma explode_unit_strip {N} `{Arith N} fuel (rel : table N) code :
  explode_unit fuel rel (PyStr.strip code) = explode_unit fuel rel code.
Proof.
  destruct fuel as [|fuel]; [done|].
  by rewrite !explode_unit_unfold, strip_idem.
Qed.

Lemma unrounded_quantity_strip fuel rel code leaf :
  unrounded_quantity fuel rel (PyStr.strip code) leaf =
  unrounded_quantity fuel rel code leaf.
Proof. unfold unrounded_quantity. by rewrite explode_unit_strip. Qed.

(** C1, as amended.  For a relation table whose parent-component graph
    is acyclic, [explode_unit(code)] terminates: beyond some recursion
    depth it returns one and the same dictionary, whose keys are the
    leaves reached from the trimmed code.  A quantity that the run
    computes without rounding (every product and every partial sum being
    exact) is the sum, over all root-to-leaf paths ending in its leaf,
    of the products of the edge quantities along the path.  On the BOM
    A -> 2 x B, B -> 3 x C, A -> 1 x D the result for A is
    {C: 6.0, D: 1.0}, and both quantities are computed without
    rounding. *)
Theorem explode_unit_path_expansion :
  (forall (rel : relations) (code : string),
     acyclic rel ->
     exists n m, forall fuel, n <= fuel ->
       explode_unit fuel rel code = Some m
       /\ explosion_ok rel fuel (PyStr.strip code) m)
  /\ acyclic bom_example
  /\ (forall fuel, 3 <= fuel ->
        explode_unit fuel bom_example "A"
        = Some [("C", 6%float); ("D", 1%float)])
  /\ unrounded_quantity 3 bom_example "A" "C" = Some 6%float
  /\ unrounded_quantity 3 bom_example "A" "D" = Some 1%float.
Proof.
  split_and!.
  - intros rel code Hac.
    set (n := S (size (list_to_set (dict_keys rel) : gset string))).
    destruct (explode_unit_spec_aux rel Hac n ∅ code) as (m & Hm & _).
    { intros s Hs. by apply elem_of_empty in Hs. }
    { rewrite difference_empty_L. unfold n. lia. }
    exists n, m. intros fuel Hle.
    destruct (explode_unit_spec_aux rel Hac fuel ∅ code) as (m' & Hm' & Hok).
    { intros s Hs. by apply elem_of_empty in Hs. }
    { rewrite difference_empty_L. unfold n in Hle. lia. }
    rewrite (explode_unit_fuel_le _ _ _ _ _ Hle Hm) in Hm'.
    injection Hm' as <-.
    assert (Hrun : explode_unit fuel rel code = Some m)
      by (by eapply explode_unit_fuel_le).
    split; [done|]. split; [done|].
    intros leaf q Hq. rewrite unrounded_quantity_strip in Hq.
    exact (unrounded_quantity_spec _ _ _ _ _ _ Hrun Hq).
  - by apply (ranked_acyclic [("A", 2); ("B", 1)]).
  - intros fuel Hle. by apply (explode_unit_fuel_le 3).
  - by vm_compute.
  - by vm_compute.
Qed.

(** C1, instance: the example BOM exploded from A. *)
Lemma explode_unit_path_expansion_witness :
  exists n m, forall fuel, n <= fuel ->
    explode_unit fuel bom_example "A" = Some m
    /\ explosion_ok bom_example fuel (PyStr.strip "A") m.
Proof.
  apply (proj1 explode_unit_path_expansion bom_example "A").
  by apply (ranked_acyclic [("A", 2); ("B", 1)]).
Defined.

(** C1, counterexample: the BOM A -> 3 x B, B -> 0.1 x X, B -> 0.7 x C,
    C -> 1 x X.  The explosion of A returns [{X: 2.4}]: it adds
    [0.1] and [0.7 * 1.0] first and multiplies the rounded sum by 3.
    The number 2.4 stands for is not the sum of the two path products
    of the stored quantities; and the two path products formed in
    binary64, [3 * 0.1] and [3 * (0.7 * 1)], add up to
    2.3999999999999995, whichever way they are multiplied out and
    added. *)
Lemma explode_unit_rounds :
  explode_unit 4 bom_rounding "A" = Some [("X", 2.4%float)]
  /\ ~ path_expansion_exact bom_rounding 4 "A"
  /\ (3 * 0.1 + 3 * (0.7 * 1) = 2.3999999999999995
      /\ 3 * (0.7 * 1) + 3 * 0.1 = 2.3999999999999995
      /\ 0.1 * 3 + 1 * 0.7 * 3 = 2.3999999999999995
      /\ 2.3999999999999995 <> 2.4)%float.
Proof.
  split_and!; try reflexivity.
  - intros Hex.
    specialize (Hex [("X", 2.4%float)] "X" 2.4%float eq_refl eq_refl).
    revert Hex. apply (bool_decide_eq_false_1 (_ = _)). by vm_compute.
  - apply (bool_decide_eq_false_1 (_ = _)). reflexivity.
Qed.

(** ** Cleaning *)

Section drop_duplicates.
Context {K : Type} {Keq : EqDecision K} (key : bom_row -> K).

Lemma drop_first_elem seen df r :
  r ∈ drop_duplicates_first key seen df -> r ∈ df /\ key r ∉ seen.
Proof.
  revert seen. induction df as [|x df IH]; intros seen; simpl.
  - intros H. by apply elem_of_nil in H.
  - case_bool_decide as Hs.
    + intros H. apply IH in H as [H1 H2]. split; [|done].
      apply elem_of_cons. by right.
    + intros H. apply elem_of_cons in H as [->|H].
      * split; [apply elem_of_cons; by left | done].
      * apply IH in H as [H1 H2]. split; [apply elem_of_cons; by right|].
        intros Hin. apply H2. apply elem_of_cons. by right.
Qed.

Lemma drop_last_elem df r : r ∈ drop_duplicates_last key df -> r ∈ df.
Proof.
  induction df as [|x df IH]; simpl; [done|].
  case_bool_decide as Hx.
  - intros H. apply elem_of_cons. right. by apply IH.
  - intros H. apply elem_of_cons in H as [->|H]; apply elem_of_cons;
      [by left | right; by apply IH].
Qed.

Lemma drop_first_sublist seen df :
  drop_duplicates_first key seen df `sublist_of` df.
Proof.
  revert seen. induction df as [|x df IH]; intros seen; simpl; [done|].
  case_bool_decide as Hx; [apply sublist_cons | apply sublist_skip]; apply IH.
Qed.

Lemma drop_last_sublist df : drop_duplicates_last key df `sublist_of` df.
Proof.
  induction df as [|x df IH]; simpl; [done|].
  case_bool_decide as Hx; [by apply sublist_cons | by apply sublist_skip].
Qed.

Lemma drop_first_NoDup seen df :
  NoDup (map key (drop_duplicates_first key seen df)).
Proof.
  revert seen. induction df as [|x df IH]; intros seen; simpl;
    [constructor|].
  case_bool_decide as Hx; [apply IH|]. simpl.
  apply NoDup_cons. split; [|apply IH].
  intros Hin. apply list_elem_of_fmap in Hin as (r & Hk & Hr).
  apply drop_first_elem in Hr as [_ Hr]. apply Hr. rewrite <- Hk.
  apply elem_of_cons. by left.
Qed.

Lemma drop_last_NoDup df : NoDup (map key (drop_duplicates_last key df)).
Proof.
  induction df as [|x df IH]; simpl; [constructor|].
  case_bool_decide as Hx; [done|]. simpl. apply NoDup_cons. split; [|done].
  intros Hin. apply Hx. apply list_elem_of_fmap in Hin as (r & Hk & Hr).
  apply drop_last_elem in Hr. apply list_elem_of_fmap. by exists r.
Qed.

(** Keeping the first: of the rows with a given key, exactly the first
    one stays. *)
Lemma drop_first_filter seen df k :
  filter (fun r => key r = k) (drop_duplicates_first key seen df) =
  if decide (k ∈ seen) then [] else take 1 (filter (fun r => key r = k) df).
Proof.
  revert seen. induction df as [|x df IH]; intros seen; simpl.
  - by destruct (decide (k ∈ seen)).
  - case_bool_decide as Hs.
    + rewrite IH. destruct (decide (k ∈ seen)) as [|Hk]; [done|].
      rewrite filter_cons_False; [done|]. intros <-. done.
    + destruct (decide (key x = k)) as [<-|Hne].
      * rewrite !filter_cons_True by done. rewrite IH.
        rewrite decide_True by (apply elem_of_cons; by left).
        by rewrite decide_False.
      * rewrite !filter_cons_False by done. rewrite IH.
        destruct (decide (k ∈ seen)) as [Hk|Hk].
        -- rewrite decide_True; [done | apply elem_of_cons; by right].
        -- rewrite decide_False; [done|].
           intros Hin. apply elem_of_cons in Hin as [?|?]; congruence.
Qed.

Lemma filter_absent df k :
  k ∉ map key df -> filter (fun r => key r = k) df = [].
Proof.
  induction df as [|x df IH]; simpl; [done|]. intros Hn.
  apply not_elem_of_cons in Hn as [Hne Hn].
  rewrite filter_cons_False by congruence. by apply IH.
Qed.

Lemma filter_present df k :
  k ∈ map key df -> filter (fun r => key r = k) df <> [].
Proof.
  intros Hin Hnil. apply list_elem_of_fmap in Hin as (r & -> & Hr).
  assert (Hf : r ∈ filter (fun r' => key r' = key r) df)
    by (by apply list_elem_of_filter).
  rewrite Hnil in Hf. by apply elem_of_nil in Hf.
Qed.

(** Keeping the last: of the rows with a given key, exactly the last one
    stays. *)
Lemma drop_last_filter df k :
  filter (fun r => key r = k) (drop_duplicates_last key df) =
  option_list (last (filter (fun r => key r = k) df)).
Proof.
  induction df as [|x df IH]; simpl; [done|].
  case_bool_decide as Hx.
  - rewrite IH. destruct (decide (key x = k)) as [<-|Hne].
    + rewrite filter_cons_True by done.
      apply filter_present in Hx.
      destruct (filter (fun r => key r = key x) df); [done|]. done.
    + by rewrite filter_cons_False.
  - destruct (decide (key x = k)) as [<-|Hne].
    + rewrite !filter_cons_True by done. rewrite IH.
      by rewrite (filter_absent df (key x)).
    + rewrite !filter_cons_False by done. apply IH.
Qed.

Lemma drop_first_id seen df :
  NoDup (map key df) -> (forall r, r ∈ df -> key r ∉ seen) ->
  drop_duplicates_first key seen df = df.
Proof.
  revert seen. induction df as [|x df IH]; intros seen Hnd Hs; simpl; [done|].
  apply NoDup_cons in Hnd as [Hx Hnd].
  rewrite bool_decide_eq_false_2 by (apply Hs, elem_of_cons; by left).
  f_equal. apply IH; [done|]. intros r Hr Hin.
  apply elem_of_cons in Hin as [Heq|Hin].
  - apply Hx. rewrite <- Heq. apply list_elem_of_fmap. by exists r.
  - by apply (Hs r); [apply elem_of_cons; right|].
Qed.

Lemma drop_last_id df :
  NoDup (map key df) -> drop_duplicates_last key df = df.
Proof.
  induction df as [|x df IH]; intros Hnd; simpl; [done|].
  apply NoDup_cons in Hnd as [Hx Hnd].
  rewrite bool_decide_eq_false_2 by done. f_equal. by apply IH.
Qed.

End drop_duplicates.

Lemma list_filter_id {A} (p : A -> bool) l :
  (forall x, x ∈ l -> p x = true) -> List.filter p l = l.
Proof.
  induction l as [|x l IH]; intros H; simpl; [done|].
  rewrite H by (apply elem_of_cons; by left). f_equal.
  apply IH. intros y Hy. apply H. apply elem_of_cons. by right.
Qed.

Lemma list_filter_elem {A} (p : A -> bool) l x :
  x ∈ List.filter p l <-> x ∈ l /\ p x = true.
Proof. by rewrite !list_elem_of_In, filter_In. Qed.

Lemma all_na_essential r : all_na r = true -> essential_na r = true.
Proof.
  unfold all_na, essential_na.
  destruct (isna_text (row_parent r)); simpl; [done|]. done.
Qed.

(** Step 2 removes every row step 1 removes. *)
Lemma dropna_essential_all df :
  dropna_essential (dropna_all df) = dropna_essential df.
Proof.
  unfold dropna_essential, dropna_all.
  induction df as [|r df IH]; simpl; [done|].
  destruct (all_na r) eqn:Ea; simpl.
  - rewrite (all_na_essential r Ea). simpl. apply IH.
  - destruct (essential_na r); simpl; by rewrite IH.
Qed.

Lemma NoDup_map_finer {A B C} (f : A -> B) (g : A -> C) l :
  (forall x y, g x = g y -> f x = f y) ->
  NoDup (map f l) -> NoDup (map g l).
Proof.
  intros Hfg. induction l as [|x l IH]; simpl; [constructor|].
  rewrite !NoDup_cons. intros [Hx Hnd]. split; [|by apply IH].
  intros Hin. apply Hx. apply list_elem_of_fmap in Hin as (y & Hy & Hin).
  apply list_elem_of_fmap. exists y. split; [by apply Hfg | done].
Qed.

Lemma clean_bom_data_elem df r :
  r ∈ clean_bom_data df -> r ∈ df /\ essential_na r = false.
Proof.
  unfold clean_bom_data. intros H.
  apply drop_last_elem in H. apply drop_first_elem in H as [H _].
  apply list_filter_elem in H as [H He]. apply list_filter_elem in H as [H _].
  split; [done|]. by apply negb_true_iff.
Qed.

Lemma last_app_cons {A} (l1 : list A) x l2 :
  last (l1 ++ x :: l2) = last (x :: l2).
Proof.
  induction l1 as [|y l1 IH]; [done|]. simpl.
  destruct (l1 ++ x :: l2) eqn:E; [by destruct l1|]. by rewrite <- IH.
Qed.

Lemma last_elem {A} (l : list A) x : last l = Some x -> x ∈ l.
Proof.
  induction l as [|y l IH]; [done|]. simpl.
  destruct l as [|z l].
  - intros [= ->]. apply elem_of_cons. by left.
  - intros H. apply elem_of_cons. right. by apply IH.
Qed.

(** The survivors of the four steps.  The cleaning drops the rows that
    miss Parent, Component or Quantity (the fully empty rows among them),
    then keeps of the rows with equal (Parent, Component, Quantity, Unit)
    exactly the first, then keeps of the remaining rows with equal
    (Parent, Component) exactly the last; the order of the rows is
    preserved.  So of two rows that both remain after the exact-duplicate
    step and share parent and component, the earlier one never
    survives. *)
Theorem clean_bom_data_survivors (bom_df : list bom_row) :
  let df2 := dropna_essential bom_df in
  let df3 := drop_duplicates_first full_key [] df2 in
  dropna_essential (dropna_all bom_df) = df2
  /\ (forall r, r ∈ df2 <-> r ∈ bom_df /\ essential_na r = false)
  /\ (forall k, filter (fun r => full_key r = k) df3
                = take 1 (filter (fun r => full_key r = k) df2))
  /\ (forall k, filter (fun r => edge_key r = k) (clean_bom_data bom_df)
                = option_list (last (filter (fun r => edge_key r = k) df3)))
  /\ clean_bom_data bom_df `sublist_of` df3
  /\ df3 `sublist_of` df2
  /\ (forall l1 r1 l2 r2 l3,
        df3 = l1 ++ r1 :: l2 ++ r2 :: l3 ->
        edge_key r1 = edge_key r2 ->
        r1 ∉ clean_bom_data bom_df).
Proof.
  intros df2 df3.
  assert (Hclean : clean_bom_data bom_df = drop_duplicates_last edge_key df3).
  { unfold clean_bom_data. by rewrite dropna_essential_all. }
  assert (Hlast : forall k,
             filter (fun r => edge_key r = k) (clean_bom_data bom_df)
             = option_list (last (filter (fun r => edge_key r = k) df3))).
  { intros k. rewrite Hclean. apply drop_last_filter. }
  split_and!.
  - apply dropna_essential_all.
  - intros r. unfold df2, dropna_essential. rewrite list_filter_elem.
    by rewrite negb_true_iff.
  - intros k. unfold df3. by rewrite drop_first_filter.
  - exact Hlast.
  - rewrite Hclean. apply drop_last_sublist.
  - apply drop_first_sublist.
  - intros l1 r1 l2 r2 l3 Hdf3 Hkey Hin.
    assert (Hnd : NoDup df3).
    { apply (NoDup_fmap_1 full_key). apply drop_first_NoDup. }
    assert (Hf : r1 ∈ filter (fun r => edge_key r = edge_key r1)
                             (clean_bom_data bom_df))
      by (by apply list_elem_of_filter).
    rewrite Hlast, Hdf3 in Hf.
    rewrite filter_app, filter_cons_True in Hf by done.
    rewrite filter_app, filter_cons_True in Hf by done.
    rewrite last_app_cons in Hf.
    change (r1 :: filter (fun r => edge_key r = edge_key r1) l2
            ++ r2 :: filter (fun r => edge_key r = edge_key r1) l3)
      with ((r1 :: filter (fun r => edge_key r = edge_key r1) l2)
            ++ r2 :: filter (fun r => edge_key r = edge_key r1) l3) in Hf.
    rewrite last_app_cons in Hf.
    destruct (last (r2 :: filter (fun r => edge_key r = edge_key r1) l3))
      as [e|] eqn:El; [|by apply elem_of_nil in Hf].
    apply list_elem_of_singleton in Hf as <-.
    apply last_elem in El.
    assert (Hr1 : r1 ∈ r2 :: l3).
    { apply elem_of_cons in El as [->|El]; apply elem_of_cons; [by left|].
      right. by apply list_elem_of_filter in El as [_ El]. }
    rewrite Hdf3 in Hnd. apply NoDup_app in Hnd as (_ & _ & Hnd).
    apply NoDup_cons in Hnd as [Hnd _]. apply Hnd.
    apply elem_of_app. by right.
Qed.

(** C7, at the failing input: the quantity of edge A-B is 2, then 3,
    then 2 again.  Step 4 means to take the last update of an edge (its
    comment says so, and it keeps the last row), but step 3 has already
    dropped the third row as an exact duplicate of the first: the second
    row survives, the later of the rows two and three, which differ in
    quantity, does not decide the surviving quantity, and the relation
    table gets 3. *)
Theorem later_revision_loses :
  ~ later_revision_wins revised_twice
  /\ clean_bom_data revised_twice = [edge_row "A" "B" (Num 3%float) "EA"]
  /\ (build_bom_relations decimal_float revised_twice).1
     = [("A", [("B", 3%float)])].
Proof.
  split_and!.
  - intros Hwins.
    specialize (Hwins [edge_row "A" "B" (Num 2%float) "EA"]
                      (edge_row "A" "B" (Num 3%float) "EA") []
                      (edge_row "A" "B" (Num 2%float) "EA") []
                      eq_refl eq_refl).
    assert (Hne : Num 3%float <> Num 2%float).
    { apply (bool_decide_eq_false_1 (_ = _)). reflexivity. }
    specialize (Hwins Hne (edge_row "A" "B" (Num 3%float) "EA")).
    apply Hne. apply Hwins; [|done].
    vm_compute. apply elem_of_cons. by left.
  - by vm_compute.
  - by vm_compute.
Qed.

(** C8.  Cleaning is idempotent: applying the four steps to their own
    output leaves the rows unchanged. *)
Theorem clean_bom_data_idempotent (bom_df : list bom_row) :
  clean_bom_data (clean_bom_data bom_df) = clean_bom_data bom_df.
Proof.
  set (out := clean_bom_data bom_df).
  assert (Hess : forall r, r ∈ out -> essential_na r = false).
  { intros r Hr. by apply clean_bom_data_elem in Hr as [_ Hr]. }
  assert (Hnd : NoDup (map edge_key out)).
  { unfold out, clean_bom_data. apply drop_last_NoDup. }
  unfold clean_bom_data at 1.
  rewrite dropna_essential_all.
  unfold dropna_essential. rewrite list_filter_id.
  - rewrite drop_first_id.
    + by apply drop_last_id.
    + apply (NoDup_map_finer edge_key full_key); [|done].
      intros x y. unfold full_key, edge_key. congruence.
    + intros r _ Hin. by apply elem_of_nil in Hin.
  - intros r Hr. apply negb_true_iff. by apply Hess.
Qed.

(** ** Relation building *)

Lemma rel_at_append (rel : relations) parent x parent' :
  rel_at (dict_append rel parent x) parent' =
  if decide (parent = parent') then rel_at rel parent ++ [x]
  else rel_at rel parent'.
Proof.
  unfold rel_at, dict_append. rewrite dict_get_upd.
  by destruct (decide (parent = parent')).
Qed.

Lemma blank_or_nan_false code :
  blank_or_nan code = false <-> proper_code code.
Proof.
  unfold blank_or_nan, proper_code. rewrite orb_false_iff.
  rewrite bool_decide_eq_false. destruct code; simpl; naive_solver.
Qed.

Lemma positive_edges_append (rel : relations) parent comp q :
  positive_edges rel -> (0 <? q)%float = true ->
  positive_edges (dict_append rel parent (comp, q)).
Proof.
  unfold positive_edges. intros Hpos Hq.
  apply Forall_forall. intros [k edges] Hin.
  apply dict_upd_elem in Hin as [Hin|[-> ->]].
  - rewrite Forall_forall in Hpos. exact (Hpos _ Hin).
  - simpl. apply Forall_app. split; [|by repeat constructor].
    destruct (dict_get rel parent) as [old|] eqn:Eg; simpl; [|constructor].
    apply dict_get_Some_elem in Eg.
    rewrite Forall_forall in Hpos. exact (Hpos _ Eg).
Qed.

Section build_facts.
Variable f : string -> option float.

Lemma relations_step_edges st row parent comp q :
  (comp, q) ∈ rel_at (relations_step f st row).1 parent <->
  (comp, q) ∈ rel_at st.1 parent \/ admitted f row parent comp q.
Proof.
  assert (Hskip : forall P Q : Prop, (Q -> False) -> (P <-> P \/ Q)) by tauto.
  unfold relations_step, admitted.
  set (p := PyStr.strip (py_str (row_parent row))).
  set (c := PyStr.strip (py_str (row_component row))).
  destruct (blank_or_nan p) eqn:Ep; simpl.
  { apply Hskip. intros (Hpar & _ & Hp & _). subst parent.
    apply blank_or_nan_false in Hp. congruence. }
  destruct (blank_or_nan c) eqn:Ec; simpl.
  { apply Hskip. intros (_ & Hcomp & _ & Hc & _). subst comp.
    apply blank_or_nan_false in Hc. congruence. }
  apply blank_or_nan_false in Ep, Ec.
  destruct (isna (row_qty row)) eqn:En.
  { apply Hskip. by intros (_ & _ & _ & _ & qty & Hn & _). }
  destruct (float_of_cell f (row_qty row)) as [qty|] eqn:Ef; simpl.
  2:{ apply Hskip. by intros (_ & _ & _ & _ & qty & _ & Hf & _). }
  fold (unit_converted qty (row_uom row)).
  destruct (0 <? unit_converted qty (row_uom row))%float eqn:Hpos; simpl.
  - rewrite rel_at_append. destruct (decide (p = parent)) as [<-|Hne].
    + rewrite elem_of_app, list_elem_of_singleton. split.
      * intros [?|Heq]; [by left|]. injection Heq as -> ->. right.
        split_and!; try done. exists qty.
        by split_and!.
      * intros [?|(_ & Hcomp & _ & _ & qty' & _ & Hf & Hq & _)];
          [by left|]. right. injection Hf as <-. by subst.
    + apply Hskip. by intros (Hpar & _).
  - apply Hskip. intros (_ & _ & _ & _ & qty' & _ & Hf & Hq & Hq').
    injection Hf as <-. subst q. congruence.
Qed.

Lemma relations_step_warnings st row w :
  w ∈ (relations_step f st row).2 <-> w ∈ st.2 \/ warned f row w.
Proof.
  assert (Hskip : forall P Q : Prop, (Q -> False) -> (P <-> P \/ Q)) by tauto.
  unfold relations_step, warned.
  set (p := PyStr.strip (py_str (row_parent row))).
  set (c := PyStr.strip (py_str (row_component row))).
  destruct (blank_or_nan p) eqn:Ep; simpl.
  { apply Hskip. intros (Hp & _).
    apply blank_or_nan_false in Hp. congruence. }
  destruct (blank_or_nan c) eqn:Ec; simpl.
  { apply Hskip. intros (_ & Hc & _).
    apply blank_or_nan_false in Hc. congruence. }
  apply blank_or_nan_false in Ep, Ec.
  destruct (isna (row_qty row)) eqn:En.
  { apply Hskip. by intros (_ & _ & Hn & _). }
  destruct (float_of_cell f (row_qty row)) as [qty|] eqn:Ef; simpl.
  - fold (unit_converted qty (row_uom row)).
    assert (Hsame : (if (0 <? unit_converted qty (row_uom row))%float
                     then (dict_append st.1 p
                             (c, unit_converted qty (row_uom row)), st.2)
                     else st).2 = st.2) by (by destruct (_ <? _)%float).
    rewrite Hsame. apply Hskip. by intros (_ & _ & _ & Hf & _).
  - rewrite elem_of_app, list_elem_of_singleton. split.
    + intros [?| ->]; [by left|]. right. by split_and!.
    + intros [?|(_ & _ & _ & _ & ->)]; [by left | by right].
Qed.

Lemma relations_step_positive st row :
  positive_edges st.1 -> positive_edges (relations_step f st row).1.
Proof.
  intros Hpos. unfold relations_step.
  destruct (_ || _); [done|]. destruct (isna _); [done|].
  destruct (float_of_cell f (row_qty row)) as [qty|]; [|done].
  destruct (0 <? _)%float eqn:Hq; [|done]. simpl.
  by apply positive_edges_append.
Qed.

Lemma relations_fold_edges df st parent comp q :
  (comp, q) ∈ rel_at (fold_left (relations_step f) df st).1 parent <->
  (comp, q) ∈ rel_at st.1 parent
  \/ exists row, row ∈ df /\ admitted f row parent comp q.
Proof.
  revert st. induction df as [|row df IH]; intros st; simpl.
  - split; [auto|]. intros [?|(row & Hr & _)]; [done|].
    by apply elem_of_nil in Hr.
  - rewrite IH, relations_step_edges. split.
    + intros [[?|Ha]|(row' & Hr & Ha)]; [by left | |].
      * right. exists row. split; [apply elem_of_cons; by left | done].
      * right. exists row'. split; [apply elem_of_cons; by right | done].
    + intros [?|(row' & Hr & Ha)]; [left; by left|].
      apply elem_of_cons in Hr as [->|Hr]; [left; by right|].
      right. by exists row'.
Qed.

Lemma relations_fold_warnings df st w :
  w ∈ (fold_left (relations_step f) df st).2 <->
  w ∈ st.2 \/ exists row, row ∈ df /\ warned f row w.
Proof.
  revert st. induction df as [|row df IH]; intros st; simpl.
  - split; [auto|]. intros [?|(row & Hr & _)]; [done|].
    by apply elem_of_nil in Hr.
  - rewrite IH, relations_step_warnings. split.
    + intros [[?|Ha]|(row' & Hr & Ha)]; [by left | |].
      * right. exists row. split; [apply elem_of_cons; by left | done].
      * right. exists row'. split; [apply elem_of_cons; by right | done].
    + intros [?|(row' & Hr & Ha)]; [left; by left|].
      apply elem_of_cons in Hr as [->|Hr]; [left; by right|].
      right. by exists row'.
Qed.

Lemma relations_fold_positive df st :
  positive_edges st.1 ->
  positive_edges (fold_left (relations_step f) df st).1.
Proof.
  revert st. induction df as [|row df IH]; intros st Hpos; simpl; [done|].
  by apply IH, relations_step_positive.
Qed.

End build_facts.

(** C6.  An edge parent -> (comp, q) is in the relation table built from
    the rows [df] if and only if some row of [df] is admitted with it:
    its trimmed parent and component codes are neither blank nor ['nan']
    (compared in lower case, as the code does), its quantity cell reads
    as a number, the comma counting as the decimal point, and the
    unit-converted quantity [q] is strictly positive ([q > 0]).  A row
    with proper codes whose quantity does not read as a number adds a
    warning and nothing else, and no stored quantity is zero or
    negative.  In the example the quantity ['abc'] of A-C is reported
    while the edges A-B and A-E of the same parent are stored and the
    zero quantity of A-D is not. *)
Theorem relations_loop_admission :
  (forall (f : string -> option float) (df : list bom_row),
     (forall parent comp q,
        (comp, q) ∈ rel_at (relations_loop f df).1 parent <->
        exists row, row ∈ df /\ admitted f row parent comp q)
     /\ (forall w, w ∈ (relations_loop f df).2 <->
                   exists row, row ∈ df /\ warned f row w)
     /\ positive_edges (relations_loop f df).1)
  /\ build_bom_relations decimal_float mixed_rows
     = ([("A", [("B", 2.5%float); ("E", 0.5%float)])],
        [("A", "C", Text "abc")]).
Proof.
  split.
  - intros f df. unfold relations_loop. split_and!.
    + intros parent comp q. rewrite relations_fold_edges. simpl.
      split; [|auto]. intros [H|?]; [|done]. by apply elem_of_nil in H.
    + intros w. rewrite relations_fold_warnings. simpl.
      split; [|auto]. intros [H|?]; [|done]. by apply elem_of_nil in H.
    + apply relations_fold_positive. constructor.
  - by vm_compute.
Qed.

(** ** Requirements aggregation *)

Lemma cell_total_add2 results k1 k2 x material month :
  cell_total (dict_add2 results k1 k2 x) material month =
  if decide (k1 = material /\ k2 = month)
  then (cell_total results material month + x)%float
  else cell_total results material month.
Proof.
  unfold cell_total, dict_add2. rewrite dict_get_upd.
  destruct (decide (k1 = material)) as [->|Hne]; simpl.
  - unfold dict_add. rewrite dict_get_upd.
    destruct (decide (k2 = month)) as [->|Hne].
    + by rewrite decide_True.
    + by rewrite decide_False by tauto.
  - by rewrite decide_False by tauto.
Qed.

Lemma combine_split {A B} (l1 : list A) x l2 (k1 : list B) y k2 :
  length l1 = length k1 ->
  combine (l1 ++ x :: l2) (k1 ++ y :: k2) =
  combine l1 k1 ++ (x, y) :: combine l2 k2.
Proof.
  revert k1. induction l1 as [|a l1 IH]; intros [|b k1] Hlen; simpl in *;
    try done. f_equal. apply IH. lia.
Qed.

Section requirements_facts.
Variable f : string -> option float.

(** The loop over the explosion adds one term to the total of each of
    its materials. *)
Lemma add_requirements_total month planned bom_map st material month' :
  NoDup (dict_keys bom_map) ->
  cell_total (add_requirements month planned bom_map st).1 material month' =
  fold_left PrimFloat.add
    (if decide (month = month')
     then share bom_map material (Some planned) else [])
    (cell_total st.1 material month').
Proof.
  unfold add_requirements, share. revert st.
  induction bom_map as [|[raw per_unit] bm IH]; intros st Hnd.
  - simpl. by destruct (decide (month = month')).
  - change (dict_keys ((raw, per_unit) :: bm)) with (raw :: dict_keys bm)
      in Hnd.
    apply NoDup_cons in Hnd as [Hnin Hnd].
    cbn [fold_left]. rewrite IH by done. cbn [fst snd dict_get].
    rewrite cell_total_add2.
    destruct (decide (month = month')) as [->|Hne].
    + destruct (decide (raw = material)) as [->|Hne].
      * rewrite decide_True by done.
        apply dict_get_None in Hnin. by rewrite Hnin.
      * by rewrite decide_False by tauto.
    + by rewrite decide_False by tauto.
Qed.

Lemma add_requirements_codes month planned bom_map (st : req_state) :
  (add_requirements month planned bom_map st).2 =
  list_to_set (dict_keys bom_map) ∪ st.2.
Proof.
  unfold add_requirements. revert st.
  induction bom_map as [|[raw per_unit] bm IH]; intros st; simpl.
  - set_solver.
  - rewrite IH. simpl. set_solver.
Qed.

(** A month cell is counted or passed over. *)
Lemma month_step_counted bom_map st mc :
  month_step f bom_map st mc =
  match counted f mc.2 with
  | Some planned => add_requirements mc.1 planned bom_map st
  | None => st
  end.
Proof.
  unfold month_step, counted. destruct (isna mc.2); [done|].
  destruct (float_of_cell f mc.2) as [planned|]; [|done].
  by destruct (planned =? 0)%float.
Qed.

Lemma month_step_total bom_map st mc material month :
  NoDup (dict_keys bom_map) ->
  cell_total (month_step f bom_map st mc).1 material month =
  fold_left PrimFloat.add
    (if decide (mc.1 = month)
     then share bom_map material (counted f mc.2) else [])
    (cell_total st.1 material month).
Proof.
  intros Hnd. rewrite month_step_counted.
  destruct (counted f mc.2) as [planned|].
  - by apply add_requirements_total.
  - by destruct (decide (mc.1 = month)).
Qed.

(** The codes a month cell adds to [material_codes]. *)
Lemma month_step_codes bom_map (st : req_state) mc :
  (month_step f bom_map st mc).2 =
  match counted f mc.2 with
  | Some _ => list_to_set (dict_keys bom_map)
  | None => ∅
  end ∪ st.2.
Proof.
  rewrite month_step_counted. destruct (counted f mc.2) as [planned|].
  - apply add_requirements_codes.
  - set_solver.
Qed.

Lemma months_fold_total bom_map mcs st material month :
  NoDup (dict_keys bom_map) ->
  cell_total (fold_left (month_step f bom_map) mcs st).1 material month =
  fold_left PrimFloat.add (month_terms f bom_map material month mcs)
            (cell_total st.1 material month).
Proof.
  intros Hnd. unfold month_terms. revert st.
  induction mcs as [|mc mcs IH]; intros st; simpl; [done|].
  by rewrite IH, fold_left_app, month_step_total.
Qed.

Lemma months_fold_codes bom_map mcs (st : req_state) :
  (fold_left (month_step f bom_map) mcs st).2 =
  months_codes f bom_map mcs ∪ st.2.
Proof.
  unfold months_codes. revert st.
  induction mcs as [|mc mcs IH]; intros st; simpl.
  - set_solver.
  - rewrite IH, month_step_codes. set_solver.
Qed.

(** Every total is the sum, from the left, of the terms of its cell in
    the order in which the plan is read. *)
Lemma requirements_loop_total fuel rel months rows st st' :
  requirements_loop f fuel rel months rows st = Some st' ->
  (forall material month,
     cell_total st'.1 material month =
     fold_left PrimFloat.add (plan_terms f fuel rel months material month rows)
               (cell_total st.1 material month))
  /\ st'.2 = ⋃ map (row_codes f fuel rel months) rows ∪ st.2.
Proof.
  unfold plan_terms. revert st.
  induction rows as [|prow rows IH]; intros st; simpl.
  - intros [= <-]. split; [done | set_solver].
  - unfold row_terms at 1, row_codes at 1.
    destruct (blank_fg (PyStr.strip (py_str (plan_code prow)))).
    + intros Hrun. apply IH in Hrun as [Ht Hc]. split; [done|].
      rewrite Hc. set_solver.
    + destruct (explode_unit fuel rel (PyStr.strip (py_str (plan_code prow))))
        as [bom_map|] eqn:Ee; [|done].
      intros Hrun. apply IH in Hrun as [Ht Hc]. simpl. split.
      * intros material month. rewrite Ht, fold_left_app.
        by rewrite months_fold_total by (by eapply explode_unit_NoDup).
      * rewrite Hc, months_fold_codes. set_solver.
Qed.

(** Whether the loop finishes depends on the codes of the rows only. *)
Lemma requirements_loop_defined fuel rel months rows rows' st st0 st' :
  map plan_code rows' = map plan_code rows ->
  requirements_loop f fuel rel months rows st = Some st0 ->
  is_Some (requirements_loop f fuel rel months rows' st').
Proof.
  revert rows' st st'. induction rows as [|prow rows IH];
    intros [|prow' rows'] st st' Hcodes; simpl in *; try done.
  injection Hcodes as -> Hcodes.
  destruct (blank_fg _); [by apply IH|].
  destruct (explode_unit fuel rel _); [by apply IH | done].
Qed.

(** The terms of a plan around one of its cells. *)
Lemma plan_terms_split fuel rel ms1 mo ms2 rows1 code cs1 c cs2 rows2
    material month :
  length ms1 = length cs1 ->
  plan_terms f fuel rel (ms1 ++ mo :: ms2) material month
             (plan_with rows1 code cs1 c cs2 rows2) =
  terms_before f fuel rel ms1 mo ms2 rows1 code cs1 material month
  ++ (if decide (month = mo)
      then match counted f c with
           | Some v => cell_terms fuel rel code v material
           | None => []
           end
      else [])
  ++ terms_after f fuel rel ms1 mo ms2 code cs2 rows2 material month.
Proof.
  intros Hlen. unfold plan_with, terms_before, terms_after, plan_terms.
  rewrite flat_map_app. cbn [flat_map]. rewrite <- !app_assoc. f_equal.
  rewrite !app_assoc. f_equal. rewrite <- !app_assoc.
  unfold row_terms, cell_terms. simpl.
  destruct (blank_fg (PyStr.strip (py_str code))).
  { by destruct (decide (month = mo)), (counted f c). }
  unfold month_terms. rewrite combine_split by done.
  rewrite flat_map_app. simpl. f_equal. f_equal.
  destruct (decide (mo = month)) as [->|Hne].
  - rewrite decide_True by done. unfold share. by destruct (counted f c).
  - by rewrite decide_False by congruence.
Qed.

Lemma row_codes_counted fuel rel ms1 mo ms2 code cs1 c c' cs2 :
  length ms1 = length cs1 ->
  is_Some (counted f c) -> is_Some (counted f c') ->
  row_codes f fuel rel (ms1 ++ mo :: ms2)
            {| plan_code := code; plan_cells := cs1 ++ c' :: cs2 |} =
  row_codes f fuel rel (ms1 ++ mo :: ms2)
            {| plan_code := code; plan_cells := cs1 ++ c :: cs2 |}.
Proof.
  intros Hlen [v Hc] [v' Hc']. unfold row_codes, months_codes. simpl.
  destruct (blank_fg _); [done|].
  rewrite !combine_split by done. rewrite !map_app. simpl.
  by rewrite Hc, Hc'.
Qed.

End requirements_facts.

(** A cell that reads as the double of a counted quantity is counted. *)
Lemma counted_double f c c' v :
  counted f c = Some v ->
  isna c' = false -> float_of_cell f c' = Some (2 * v)%float ->
  counted f c' = Some (2 * v)%float.
Proof.
  unfold counted. intros Hc -> ->. rewrite double_is_zero.
  destruct (isna c); [done|]. destruct (float_of_cell f c) as [x|]; [|done].
  destruct (x =? 0)%float eqn:Hx; [done|]. injection Hc as <-. by rewrite Hx.
Qed.

(** C5, as amended.  Every total of the requirements table is the sum
    in binary64, from the left and in the order in which the plan is
    read, of the terms planned quantity times per-unit quantity.  Single
    out a plan row and one of its month cells, under the month [mo],
    counted with the planned quantity [v], and replace it by a cell that
    reads as [2 * v].  If the run on the original plan finishes, so does
    the run on the changed plan; in the total of every material of the
    row's explosion in month [mo] the term [v * per_unit] of that cell is
    replaced by [(2 * v) * per_unit], all terms before and after it
    being as they were; the totals of all other months, and of the
    materials outside the row's explosion, are unchanged, and so is the
    set of materials in the table. *)
Theorem calculate_requirements_linear
    (f : string -> option float) (fuel : nat) (rel : relations)
    (ms1 : list string) (mo : string) (ms2 : list string)
    (rows1 : list plan_row) (code : option string)
    (cs1 : list cell) (c c' : cell) (cs2 : list cell) (rows2 : list plan_row)
    (v : float) (st : req_state) :
  length ms1 = length cs1 ->
  counted f c = Some v ->
  isna c' = false ->
  float_of_cell f c' = Some (2 * v)%float ->
  calculate_requirements f fuel rel (ms1 ++ mo :: ms2)
    (plan_with rows1 code cs1 c cs2 rows2) = Some st ->
  exists st',
    calculate_requirements f fuel rel (ms1 ++ mo :: ms2)
      (plan_with rows1 code cs1 c' cs2 rows2) = Some st'
    /\ st'.2 = st.2
    /\ forall material month,
         let before :=
           terms_before f fuel rel ms1 mo ms2 rows1 code cs1 material month in
         let after :=
           terms_after f fuel rel ms1 mo ms2 code cs2 rows2 material month in
         let term x :=
           if decide (month = mo) then cell_terms fuel rel code x material
           else [] in
         cell_total st.1 material month = sum_left (before ++ term v ++ after)
         /\ cell_total st'.1 material month
            = sum_left (before ++ term (2 * v)%float ++ after)
         /\ (month <> mo \/ cell_terms fuel rel code v material = [] ->
             cell_total st'.1 material month = cell_total st.1 material month).
Proof.
  intros Hlen Hc Hn' Hf' Hrun. unfold calculate_requirements in *.
  pose proof (counted_double f c c' v Hc Hn' Hf') as Hc'.
  destruct (requirements_loop_defined f fuel rel (ms1 ++ mo :: ms2)
              (plan_with rows1 code cs1 c cs2 rows2)
              (plan_with rows1 code cs1 c' cs2 rows2) ([], ∅) st ([], ∅))
    as [st' Hrun']; [|done|].
  { unfold plan_with. by rewrite !map_app. }
  exists st'. split; [done|].
  apply requirements_loop_total in Hrun as [Ht Hcodes].
  apply requirements_loop_total in Hrun' as [Ht' Hcodes'].
  split.
  - rewrite Hcodes, Hcodes'. unfold plan_with. rewrite !map_app. simpl.
    by rewrite (row_codes_counted f fuel rel ms1 mo ms2 code cs1 c c' cs2).
  - intros material month.
    rewrite Ht, Ht', !plan_terms_split by done. rewrite Hc, Hc'.
    split_and!; [done | done |].
    intros Hsame. f_equal. f_equal. f_equal.
    destruct (decide (month = mo)) as [->|Hne]; [|done].
    destruct Hsame as [?|Hsame]; [done|].
    unfold cell_terms in *.
    destruct (blank_fg _); [done|]. unfold share in *.
    by destruct (dict_get _ material).
Qed.

(** C5, instance: ten units of A planned for January are raised to
    twenty; the example BOM needs 6 C and 1 D per unit of A. *)
Lemma calculate_requirements_linear_witness :
  exists st st',
    calculate_requirements decimal_float 3 bom_example ["Jan"; "Feb"]
      (plan_with [] (Some "A") [] (Num 10%float) [Num 5%float] []) = Some st
    /\ calculate_requirements decimal_float 3 bom_example ["Jan"; "Feb"]
         (plan_with [] (Some "A") [] (Num 20%float) [Num 5%float] [])
       = Some st'
    /\ st'.2 = st.2
    /\ cell_total st.1 "C" "Jan" = sum_left [(10 * 6)%float]
    /\ cell_total st'.1 "C" "Jan" = sum_left [(2 * 10 * 6)%float]
    /\ cell_total st'.1 "C" "Feb" = cell_total st.1 "C" "Feb".
Proof.
  destruct (calculate_requirements decimal_float 3 bom_example ["Jan"; "Feb"]
              (plan_with [] (Some "A") [] (Num 10%float) [Num 5%float] []))
    as [st|] eqn:Hrun; [|vm_compute in Hrun; discriminate].
  destruct (calculate_requirements_linear decimal_float 3 bom_example
              [] "Jan" ["Feb"] [] (Some "A") [] (Num 10%float)
              (Num 20%float) [Num 5%float] [] 10%float st
              eq_refl eq_refl eq_refl eq_refl Hrun)
    as (st' & Hrun' & Hcodes & Ht).
  exists st, st'. split; [done|]. split; [exact Hrun'|].
  split; [exact Hcodes|].
  destruct (Ht "C" "Jan") as (H1 & H2 & _).
  destruct (Ht "C" "Feb") as (_ & _ & H3).
  split_and!; [exact H1 | exact H2 | apply H3; by left].
Defined.

(** C5, counterexample: P1 -> 0.1 x X and P2 -> 0.6 x X, one unit of each
    planned for January, so that X totals [0.1 + 0.6], which is 0.7 on
    rounding.  With two units of P2 the total is [0.1 + 1.2 = 1.3],
    whereas the old total plus the contribution [1 * 0.6] of the row is
    [0.7 + 0.6 = 1.2999999999999998]: the total is not the old total
    with the row's contribution added once more. *)
Lemma calculate_requirements_rounds :
  ~ doubling_adds_share
  /\ (0 + 1 * 0.1 + 1 * 0.6 = 0.7 /\ 0 + 1 * 0.1 + 2 * 1 * 0.6 = 1.3
      /\ 0.7 + 1 * 0.6 = 1.2999999999999998)%float.
Proof.
  split; [|by split_and!].
  intros Hlin.
  set (P1 := {| plan_code := Some "P1"; plan_cells := [Num 1%float] |}).
  destruct (calculate_requirements decimal_float 2 bom_two_products ["Jan"]
              (plan_with [P1] (Some "P2") [] (Num 1%float) [] []))
    as [st|] eqn:Hrun; [|vm_compute in Hrun; discriminate].
  destruct (calculate_requirements decimal_float 2 bom_two_products ["Jan"]
              (plan_with [P1] (Some "P2") [] (Num 2%float) [] []))
    as [st'|] eqn:Hrun'; [|vm_compute in Hrun'; discriminate].
  specialize (Hlin decimal_float 2 bom_two_products [] "Jan" [] [P1]
                   (Some "P2") [] (Num 1%float) (Num 2%float) [] []
                   1%float st st' "X" 0.6%float
                   eq_refl eq_refl eq_refl Hrun Hrun' eq_refl).
  apply requirements_loop_total in Hrun as [Ht _].
  apply requirements_loop_total in Hrun' as [Ht' _].
  rewrite Ht, Ht' in Hlin. revert Hlin.
  apply (bool_decide_eq_false_1 (_ = _)). by vm_compute.
Qed.

(** *** Rows without a code *)

(** [calculate_requirements] passes over a row whose code is blank or
    ['nan']: the run is the run without the row. *)
Lemma requirements_loop_skips f fuel rel months rows1 prow rows2 st :
  blank_fg (PyStr.strip (py_str (plan_code prow))) = true ->
  requirements_loop f fuel rel months (rows1 ++ prow :: rows2) st =
  requirements_loop f fuel rel months (rows1 ++ rows2) st.
Proof.
  intros Hb. revert st. induction rows1 as [|r rows1 IH]; intros st; simpl.
  - by rewrite Hb.
  - destruct (blank_fg (PyStr.strip (py_str (plan_code r)))); [apply IH|].
    destruct (explode_unit fuel rel (PyStr.strip (py_str (plan_code r))));
      [apply IH | done].
Qed.

(** C4, the two aggregators on a plan row without a code.  The
    requirements aggregator skips every row whose trimmed code is blank
    or ['nan'].  The all-levels aggregator tests for the empty string
    only: a row whose code cell is missing prints as ['nan'] and is
    counted, so that the stray row of the example puts a material ['nan']
    with 7 units into the all-levels table, which is empty without the
    row. *)
Theorem all_levels_counts_nan_row :
  (forall f fuel rel months rows1 prow rows2,
     blank_fg (PyStr.strip (py_str (plan_code prow))) = true ->
     calculate_requirements f fuel rel months (rows1 ++ prow :: rows2) =
     calculate_requirements f fuel rel months (rows1 ++ rows2))
  /\ blank_fg (PyStr.strip (py_str (plan_code nan_row))) = true
  /\ calculate_all_levels_requirements decimal_float 1 [] ["Jan"] [nan_row]
     = Some [("nan", [("Jan", 7%float)])]
  /\ (forall py_sum,
        all_levels_data py_sum ["Jan"] [("nan", [("Jan", 7%float)])]
        = [("nan", py_sum [7%float], [7%float])])
  /\ sum_left [7%float] = 7%float
  /\ calculate_all_levels_requirements decimal_float 1 [] ["Jan"] []
     = Some [].
Proof.
  split_and!.
  - intros. unfold calculate_requirements. by apply requirements_loop_skips.
  - done.
  - by vm_compute.
  - done.
  - done.
  - done.
Qed.

(** ** Level search *)

Lemma parent_candidates_spec rel x p :
  p ∈ parent_candidates rel x <-> is_parent rel p x.
Proof.
  unfold parent_candidates, is_parent. rewrite elem_of_flat_map. split.
  - intros ([parent comps] & Hin & Hp).
    apply elem_of_flat_map in Hp as ([comp q] & Hc & Hp).
    destruct (decide (comp = x)) as [->|]; [|by apply elem_of_nil in Hp].
    apply list_elem_of_singleton in Hp as ->. by exists comps, q.
  - intros (comps & q & Hin & Hc). exists (p, comps). split; [done|].
    apply elem_of_flat_map. exists (x, q). split; [done|].
    rewrite decide_True by done. by apply list_elem_of_singleton.
Qed.

Lemma is_parent_key rel p x : is_parent rel p x -> p ∈ dict_keys rel.
Proof.
  intros (comps & q & Hin & _). apply list_elem_of_fmap.
  by exists (p, comps).
Qed.

Lemma size_list_to_set_le (l : list string) :
  size (list_to_set l : gset string) <= length l.
Proof.
  induction l as [|x l IH]; simpl.
  - change (size (∅ : gset string) <= 0). by rewrite size_empty.
  - change (size ({[x]} ∪ list_to_set l : gset string) <= S (length l)).
    rewrite size_union_alt, size_singleton.
    assert (size (list_to_set l ∖ {[x]} : gset string)
            <= size (list_to_set l : gset string))
      by (apply subseteq_size; set_solver).
    lia.
Qed.

Section level_facts.
Variables (rel : relations) (codes : list string).

Let K : gset string := list_to_set (dict_keys rel).

(** *** Termination: every call adds a new material to the visited set *)

Lemma find_level_loop_total (find : string -> gset string
                                    -> option (Z * gset string))
    (bound : nat) parents visited :
  (forall p v, p ∈ parents -> size (K ∖ v) < bound ->
     exists lvl v', find p v = Some (lvl, v') /\ v ⊆ v') ->
  size (K ∖ visited) < bound ->
  exists lvl v', find_level_loop find parents visited = Some (lvl, v')
                 /\ visited ⊆ v'.
Proof.
  revert visited. induction parents as [|p ps IH]; intros visited Hfind Hsize;
    simpl.
  - by exists (-1)%Z, visited.
  - destruct (Hfind p visited) as (lvl & v' & -> & Hsub);
      [apply elem_of_cons; by left | done |].
    destruct (0 <=? lvl)%Z; [by eexists _, _|].
    destruct (IH v') as (lvl' & v'' & -> & Hsub').
    + intros p' v Hp'. apply Hfind. apply elem_of_cons. by right.
    + assert (size (K ∖ v') <= size (K ∖ visited))
        by (apply subseteq_size; set_solver).
      lia.
    + exists lvl', v''. split; [done | set_solver].
Qed.

Lemma find_level_total fuel current visited :
  size (K ∖ visited) + (if decide (current ∈ K) then 0 else 1) < fuel ->
  exists lvl v', find_level fuel rel codes current visited = Some (lvl, v')
                 /\ visited ⊆ v'.
Proof.
  revert current visited.
  induction fuel as [|fuel IH]; intros current visited Hsize; [lia|].
  simpl. destruct (decide (current ∈ visited)) as [Hv|Hv];
    [by eexists _, _|].
  destruct (decide (current ∈ codes)) as [Hc|Hc].
  { eexists _, _. split; [done | set_solver]. }
  assert (Hlt : size (K ∖ ({[current]} ∪ visited)) < fuel).
  { destruct (decide (current ∈ K)) as [Hk|Hk].
    - assert (size (K ∖ ({[current]} ∪ visited)) < size (K ∖ visited))
        by (apply subset_size; set_solver).
      lia.
    - assert (size (K ∖ ({[current]} ∪ visited)) <= size (K ∖ visited))
        by (apply subseteq_size; set_solver).
      lia. }
  destruct (find_level_loop_total (find_level fuel rel codes) fuel
              (parent_candidates rel current) ({[current]} ∪ visited))
    as (lvl & v' & Hl & Hsub); [|done|].
  - intros p v Hp Hs. apply IH.
    apply parent_candidates_spec, is_parent_key in Hp.
    rewrite decide_True; [lia|]. by apply elem_of_list_to_set.
  - exists lvl, v'. split; [done | set_solver].
Qed.

Lemma find_level_loop_mono (find find' : string -> gset string
                                         -> option (Z * gset string))
    parents visited r :
  (forall p v r', find p v = Some r' -> find' p v = Some r') ->
  find_level_loop find parents visited = Some r ->
  find_level_loop find' parents visited = Some r.
Proof.
  intros Hle. revert visited.
  induction parents as [|p ps IH]; intros visited; simpl; [done|].
  destruct (find p visited) as [[lvl v']|] eqn:E; [|done].
  rewrite (Hle _ _ _ E). destruct (0 <=? lvl)%Z; [done | apply IH].
Qed.

Lemma find_level_fuel_S fuel current visited r :
  find_level fuel rel codes current visited = Some r ->
  find_level (S fuel) rel codes current visited = Some r.
Proof.
  revert current visited r.
  induction fuel as [|fuel IH]; intros current visited r; [done|].
  intros H. simpl in H |- *.
  destruct (decide (current ∈ visited)); [done|].
  destruct (decide (current ∈ codes)); [done|].
  revert H. apply find_level_loop_mono. intros p v r'. apply IH.
Qed.

Lemma find_level_fuel_le fuel fuel' current visited r :
  fuel <= fuel' ->
  find_level fuel rel codes current visited = Some r ->
  find_level fuel' rel codes current visited = Some r.
Proof.
  induction 1 as [|fuel' _ IH]; [done|].
  intros H. by apply find_level_fuel_S, IH.
Qed.

(** *** What a call returns *)

Lemma find_level_loop_outcome
    (find : string -> gset string -> option (Z * gset string))
    current parents start visited r :
  (forall p v r', p ∈ parents -> find p v = Some r' -> outcome rel codes p v r') ->
  (forall p, p ∈ parents -> is_parent rel p current) ->
  start ⊆ visited ->
  (forall x, x ∈ visited -> x ∉ start -> settled rel codes visited x) ->
  find_level_loop find parents visited = Some r ->
  visited ⊆ r.2
  /\ ((exists n, chain rel codes current (S n) /\ r.1 = (Z.of_nat (S n) + 1)%Z)
      \/ (r.1 = (-1)%Z
          /\ (forall p, p ∈ parents -> p ∈ r.2)
          /\ forall x, x ∈ r.2 -> x ∉ start -> settled rel codes r.2 x)).
Proof.
  revert visited.
  induction parents as [|p ps IH]; intros visited Hfind Hpar Hstart Hset; simpl.
  - intros [= <-]. simpl. split; [done|]. right. split_and!; [done | | done].
    intros p Hp. by apply elem_of_nil in Hp.
  - destruct (find p visited) as [[lvl v']|] eqn:E; [|done].
    destruct (Hfind p visited (lvl, v')) as (Hsub & Hp & Hres);
      [apply elem_of_cons; by left | done |]. simpl in *.
    destruct (0 <=? lvl)%Z eqn:El.
    + intros [= <-]. simpl. split; [done|]. left.
      destruct Hres as [(n & Hch & ->)|[-> _]]; [|done].
      exists n. split; [|lia].
      eapply chain_up; [|done]. apply Hpar. apply elem_of_cons. by left.
    + destruct Hres as [(n & _ & ->)|[_ Hnew]];
        [apply Z.leb_gt in El; lia|].
      intros Hloop. apply IH in Hloop as [Hsub' Hres'].
      * split; [set_solver|].
        destruct Hres' as [?|(Hm & Hps & Hset')]; [by left|]. right.
        split_and!; [done | | done].
        intros p' Hp'. apply elem_of_cons in Hp' as [->|Hp'];
          [set_solver | by apply Hps].
      * intros p' v r' Hp'. apply Hfind. apply elem_of_cons. by right.
      * intros p' Hp'. apply Hpar. apply elem_of_cons. by right.
      * set_solver.
      * intros x Hx Hxs. destruct (decide (x ∈ visited)) as [Hv|Hv].
        -- destruct (Hset x Hv Hxs) as [Hc Hp']. split; [done|].
           intros p' Hp''. apply Hsub. by apply Hp'.
        -- by apply Hnew.
Qed.

Lemma find_level_outcome fuel current visited r :
  find_level fuel rel codes current visited = Some r ->
  outcome rel codes current visited r.
Proof.
  revert current visited r.
  induction fuel as [|fuel IH]; intros current visited r; [done|]. simpl.
  destruct (decide (current ∈ visited)) as [Hv|Hv].
  { intros [= <-]. unfold outcome. simpl. split_and!; [done | done |].
    right. split; [done|]. intros x Hx Hnx. done. }
  destruct (decide (current ∈ codes)) as [Hc|Hc].
  { intros [= <-]. unfold outcome. simpl.
    split_and!; [set_solver | set_solver |].
    left. exists 0. split; [by constructor | done]. }
  intros Hloop.
  apply (find_level_loop_outcome _ current _ ({[current]} ∪ visited))
    in Hloop as [Hsub Hres].
  - unfold outcome. split_and!; [set_solver | set_solver |].
    destruct Hres as [(n & Hch & Hr)|(Hm & Hps & Hset)].
    + left. by exists (S n).
    + right. split; [done|]. intros x Hx Hnx.
      destruct (decide (x = current)) as [->|Hne].
      * split; [done|]. intros p Hp. apply Hps.
        by apply parent_candidates_spec.
      * apply Hset; [done | set_solver].
  - intros p v r' _. apply IH.
  - intros p. apply parent_candidates_spec.
  - done.
  - intros x Hx Hnx. done.
Qed.

(** From a set whose members are all settled no chain reaches the
    plan. *)
Lemma settled_no_chain (v : gset string) x n :
  (forall y, y ∈ v -> settled rel codes v y) -> x ∈ v -> ~ chain rel codes x n.
Proof.
  intros Hset Hx Hch. induction Hch as [x Hc|x p n Hp _ IH].
  - by destruct (Hset x Hx).
  - apply IH. destruct (Hset x Hx) as [_ Hpar]. by apply Hpar.
Qed.

End level_facts.

(** C9, as amended.  The level search terminates on every relation
    table, cyclic or not: with recursion depth [level_fuel rel] or more
    it returns one and the same level.  A material that is itself a plan
    top-level code has level 0.  For any other material the level is the
    number of hops of a parent chain up to a plan top-level code plus
    one when such a chain exists, and 999 when none exists. *)
Theorem get_material_level_spec (rel : relations) (plan_df : list plan_row)
    (material : string) :
  let codes := plan_codes plan_df in
  exists level,
    (forall fuel, level_fuel rel <= fuel ->
       _get_material_level fuel rel plan_df material = Some level)
    /\ (material ∈ codes -> level = 0%Z)
    /\ (material ∉ codes -> (exists n, chain rel codes material n) ->
        exists n, chain rel codes material n /\ level = (Z.of_nat n + 1)%Z)
    /\ (material ∉ codes -> (~ exists n, chain rel codes material n) ->
        level = 999%Z).
Proof.
  intros codes. unfold _get_material_level. fold codes.
  destruct (decide (material ∈ codes)) as [Hin|Hnin].
  { exists 0%Z. split_and!; done. }
  destruct (find_level_total rel codes (level_fuel rel) material ∅)
    as (lvl & v' & Hfind & _).
  { rewrite difference_empty_L.
    pose proof (size_list_to_set_le (dict_keys rel)) as Hle.
    unfold dict_keys in Hle at 2. rewrite length_map in Hle.
    unfold level_fuel. destruct (decide _); lia. }
  exists (if (0 <=? lvl)%Z then lvl else 999%Z).
  pose proof (find_level_outcome rel codes _ _ _ _ Hfind)
    as (_ & Hmat & Hres). simpl in Hmat, Hres.
  split_and!.
  - intros fuel Hle.
    by rewrite (find_level_fuel_le rel codes _ _ _ _ _ Hle Hfind).
  - done.
  - intros _ [n Hch]. destruct Hres as [(n' & Hch' & ->)|[-> Hset]].
    + exists n'. split; [done|].
      destruct (0 <=? Z.of_nat n' + 1)%Z eqn:E; [done|].
      apply Z.leb_gt in E. lia.
    + exfalso. apply (settled_no_chain rel codes v' material n); [|done|done].
      intros y Hy. apply Hset; [done|]. by apply not_elem_of_empty.
  - intros _ Hno. destruct Hres as [(n' & Hch' & ->)|[-> _]]; [|done].
    exfalso. apply Hno. by exists n'.
Qed.

(** C9, counterexample: B is a component of A and both are in the plan.
    A chain of one hop leads from B up to the plan code A (and the chain
    of no hops ends in B itself), yet the level of B is 0, neither 2 nor
    1. *)
Lemma plan_component_level_zero :
  ~ level_is_hops_plus_one bom_example plan_A_and_B.
Proof.
  intros H. destruct (H "B") as (n & _ & Hl).
  - exists 0. constructor. apply elem_of_cons. right.
    apply elem_of_cons. by left.
  - assert (H0 : _get_material_level (level_fuel bom_example) bom_example
                                     plan_A_and_B "B" = Some 0%Z) by done.
    rewrite H0 in Hl. injection Hl as Hl. lia.
Qed.

(** * Further properties of the code *)

(** ** Column discovery *)

Lemma dict_get_set {V} (d : dict V) k v k' :
  dict_get (dict_set d k v) k' =
  if decide (k = k') then Some v else dict_get d k'.
Proof. unfold dict_set. by rewrite dict_get_upd. Qed.

Lemma cols_lower_fold columns d k :
  dict_get (fold_left (fun d c => dict_set d (PyStr.lower c) c) columns d) k =
  match last (filter (fun c => PyStr.lower c = k) columns) with
  | Some c => Some c
  | None => dict_get d k
  end.
Proof.
  revert d. induction columns as [|c cols IH]; intros d; simpl; [done|].
  rewrite IH, dict_get_set.
  destruct (decide (PyStr.lower c = k)) as [Hk|Hk].
  - rewrite filter_cons_True by done.
    destruct (filter (fun c0 => PyStr.lower c0 = k) cols) as [|x l] eqn:E;
      [done|].
    change (last (c :: x :: l)) with (last (x :: l)).
    destruct (last (x :: l)) eqn:El; [done|].
    by apply last_None in El.
  - by rewrite filter_cons_False.
Qed.

Lemma cols_lower_get columns k :
  dict_get (cols_lower columns) k =
  last (filter (fun c => PyStr.lower c = k) columns).
Proof.
  unfold cols_lower. rewrite cols_lower_fold. simpl.
  by destruct (last _).
Qed.

Lemma cols_lower_none headers n :
  dict_get (cols_lower (map PyStr.strip headers)) (PyStr.lower n) = None <->
  forall h, h ∈ headers -> PyStr.lower (PyStr.strip h) <> PyStr.lower n.
Proof.
  rewrite cols_lower_get, last_None. split.
  - intros Hnil h Hh Heq.
    assert (Hin : PyStr.strip h
                  ∈ filter (fun c => PyStr.lower c = PyStr.lower n)
                           (map PyStr.strip headers)).
    { apply list_elem_of_filter. split; [done|].
      apply list_elem_of_fmap. by exists h. }
    rewrite Hnil in Hin. by apply elem_of_nil in Hin.
  - intros Hno.
    destruct (filter _ _) as [|c l] eqn:E; [done|]. exfalso.
    assert (Hin : c ∈ filter (fun c => PyStr.lower c = PyStr.lower n)
                             (map PyStr.strip headers))
      by (rewrite E; apply elem_of_cons; by left).
    apply list_elem_of_filter in Hin as [Hc Hin].
    apply list_elem_of_fmap in Hin as (h & -> & Hh). by apply (Hno h).
Qed.

Lemma find_col_spec headers names :
  column_for headers names
             (find_col (cols_lower (map PyStr.strip headers)) names).
Proof.
  induction names as [|n names IH]; simpl.
  - intros n h Hn. by apply elem_of_nil in Hn.
  - destruct (dict_get _ (PyStr.lower n)) as [c|] eqn:E.
    + exists [], n, names. split_and!; [done | |].
      * intros m h Hm. by apply elem_of_nil in Hm.
      * by rewrite <- cols_lower_get.
    + pose proof (proj1 (cols_lower_none headers n) E) as Hn.
      destruct (find_col _ names) as [c|]; simpl in *.
      * destruct IH as (pre & m & post & -> & Hpre & Hlast).
        exists (n :: pre), m, post. split_and!; [done | | done].
        intros k h Hk Hh. apply elem_of_cons in Hk as [->|Hk];
          [by apply Hn | by apply Hpre].
      * intros k h Hk Hh. apply elem_of_cons in Hk as [->|Hk];
          [by apply Hn | by apply IH].
Qed.

Lemma lower_is_empty s : PyStr.is_empty (PyStr.lower s) = PyStr.is_empty s.
Proof. by destruct s. Qed.

(** A column found for synonyms that are not empty has a name. *)
Lemma column_for_named headers names c :
  Forall (fun n => PyStr.is_empty n = false) names ->
  column_for headers names (Some c) -> PyStr.is_empty c = false.
Proof.
  intros Hnames (pre & n & post & -> & _ & Hlast).
  apply last_elem in Hlast. apply list_elem_of_filter in Hlast as [Hc _].
  rewrite Forall_forall in Hnames.
  rewrite <- lower_is_empty, Hc, lower_is_empty.
  apply Hnames. apply elem_of_app. right. apply elem_of_cons. by left.
Qed.

Lemma col_missing_spec headers names :
  Forall (fun n => PyStr.is_empty n = false) names ->
  col_missing (find_col (cols_lower (map PyStr.strip headers)) names) = true
  <-> names_unmatched headers names.
Proof.
  intros Hnames. pose proof (find_col_spec headers names) as Hspec.
  destruct (find_col _ names) as [c|] eqn:E; simpl.
  - rewrite (column_for_named headers names c Hnames Hspec).
    split; [done|]. intros Hun.
    destruct Hspec as (pre & n & post & -> & _ & Hlast).
    apply last_elem in Hlast. apply list_elem_of_filter in Hlast as [Hc Hin].
    apply list_elem_of_fmap in Hin as (h & -> & Hh).
    exfalso. apply (Hun n h); [|done|done].
    apply elem_of_app. right. apply elem_of_cons. by left.
  - done.
Qed.

(** X1.  [prepare_bom_columns] fails exactly when, for Parent, Component
    or Quantity, no header of the sheet equals one of the field's
    synonyms up to letter case and surrounding white space; the optional
    description and unit columns never make it fail. *)
Theorem prepare_bom_columns_fails_iff (headers : list string) :
  prepare_bom_columns headers = None <->
  names_unmatched headers parent_names
  \/ names_unmatched headers component_names
  \/ names_unmatched headers qty_names.
Proof.
  unfold prepare_bom_columns.
  rewrite <- (col_missing_spec headers parent_names) by (by repeat constructor).
  rewrite <- (col_missing_spec headers component_names)
    by (by repeat constructor).
  rewrite <- (col_missing_spec headers qty_names) by (by repeat constructor).
  destruct (col_missing (find_col _ parent_names));
    destruct (col_missing (find_col _ component_names));
    destruct (col_missing (find_col _ qty_names)); simpl; naive_solver.
Qed.

(** X2.  When [prepare_bom_columns] succeeds, every column it returns is
    a trimmed header of the sheet, chosen by priority of the synonyms:
    the first synonym that some header matches up to letter case decides,
    and of several headers matching it the last one is taken.  An
    optional column is absent exactly when no header matches any of its
    synonyms. *)
Theorem prepare_bom_columns_found (headers : list string)
    (cols : bom_columns) :
  prepare_bom_columns headers = Some cols ->
  column_for headers parent_names (Some (col_parent cols))
  /\ column_for headers component_names (Some (col_component cols))
  /\ column_for headers qty_names (Some (col_qty cols))
  /\ column_for headers description_names (col_component_description cols)
  /\ column_for headers uom_names (col_uom cols).
Proof.
  unfold prepare_bom_columns.
  pose proof (find_col_spec headers parent_names) as Hp.
  pose proof (find_col_spec headers component_names) as Hc.
  pose proof (find_col_spec headers qty_names) as Hq.
  pose proof (find_col_spec headers description_names) as Hd.
  pose proof (find_col_spec headers uom_names) as Hu.
  destruct (find_col _ parent_names) as [p|]; [|done].
  destruct (find_col _ component_names) as [c|];
    [|by rewrite orb_true_r].
  destruct (find_col _ qty_names) as [q|]; [|by rewrite orb_true_r].
  destruct (_ || _ || _); [done|]. by intros [= <-].
Qed.

(** X2, instance: a sheet with headers in mixed case and with blanks. *)
Lemma prepare_bom_columns_found_witness :
  prepare_bom_columns [" Parent "; "CHILD"; "Qty"; "qty "; "UoM"]
  = Some {| col_parent := "Parent"; col_component := "CHILD";
            col_qty := "qty"; col_component_description := None;
            col_uom := Some "UoM" |}
  /\ column_for [" Parent "; "CHILD"; "Qty"; "qty "; "UoM"] qty_names
                (Some "qty").
Proof.
  split; [done|].
  exact (proj1 (proj2 (proj2
    (prepare_bom_columns_found [" Parent "; "CHILD"; "Qty"; "qty "; "UoM"]
       _ eq_refl)))).
Defined.

(** ** Unit normaliser, again *)

Lemma isspace_upper_char c : PyStr.isspace (PyStr.upper_char c) = PyStr.isspace c.
Proof. destruct c as [[] [] [] [] [] [] [] []]; reflexivity. Qed.

Lemma upper_char_idem c :
  PyStr.upper_char (PyStr.upper_char c) = PyStr.upper_char c.
Proof. destruct c as [[] [] [] [] [] [] [] []]; reflexivity. Qed.

Lemma map_chars_is_empty f s :
  PyStr.is_empty (PyStr.map_chars f s) = PyStr.is_empty s.
Proof. by destruct s. Qed.

Lemma lstrip_upper s :
  PyStr.lstrip (PyStr.upper s) = PyStr.upper (PyStr.lstrip s).
Proof.
  induction s as [|c t IH]; simpl; [done|].
  rewrite isspace_upper_char. by destruct (PyStr.isspace c).
Qed.

Lemma rstrip_upper s :
  PyStr.rstrip (PyStr.upper s) = PyStr.upper (PyStr.rstrip s).
Proof.
  induction s as [|c t IH]; simpl; [done|].
  rewrite isspace_upper_char. fold (PyStr.upper t). rewrite IH.
  unfold PyStr.upper at 1. rewrite map_chars_is_empty.
  by destruct (PyStr.isspace c && PyStr.is_empty (PyStr.rstrip t)).
Qed.

Lemma strip_upper s : PyStr.strip (PyStr.upper s) = PyStr.upper (PyStr.strip s).
Proof. unfold PyStr.strip. by rewrite rstrip_upper, lstrip_upper. Qed.

Lemma upper_idem s : PyStr.upper (PyStr.upper s) = PyStr.upper s.
Proof.
  unfold PyStr.upper.
  induction s as [|c t IH]; cbn [PyStr.map_chars]; [done|].
  by rewrite upper_char_idem, IH.
Qed.

Lemma standardize_not_gram u : standardize u ∉ gram_units.
Proof.
  unfold standardize, convert_quantity.
  case_bool_decide as Hg; simpl; [|done].
  apply (bool_decide_eq_false_1 (_ ∈ _)). reflexivity.
Qed.

(** X3.  Unit normalisation is idempotent: the unit [convert_quantity]
    returns is never a gram token, and converting again under that unit
    changes neither the quantity nor the unit. *)
Theorem convert_quantity_idempotent (q q' : float) (u : string) :
  ((convert_quantity q u).2 ∉ gram_units)
  /\ convert_quantity q' (convert_quantity q u).2
     = (q', (convert_quantity q u).2).
Proof.
  assert (Hng : (convert_quantity q u).2 ∉ gram_units).
  { unfold convert_quantity. case_bool_decide as Hg; simpl; [|done].
    apply (bool_decide_eq_false_1 (_ ∈ _)). reflexivity. }
  split; [done|].
  assert (Hfix : PyStr.upper (PyStr.strip (convert_quantity q u).2)
                 = (convert_quantity q u).2).
  { unfold convert_quantity. case_bool_decide as Hg; simpl; [done|].
    by rewrite strip_upper, strip_idem, upper_idem. }
  unfold convert_quantity at 1. rewrite Hfix.
  by rewrite bool_decide_eq_false_2.
Qed.

(** ** Metadata *)

Lemma note_description_uoms code description md :
  material_uoms (note_description code description md) = material_uoms md
  /\ standardized_uoms (note_description code description md)
     = standardized_uoms md
  /\ mrp_control_values (note_description code description md)
     = mrp_control_values md.
Proof.
  unfold note_description. destruct description as [d|]; [|done].
  by destruct (_ && _).
Qed.

Lemma note_uom_descriptions code unit md :
  material_descriptions (note_uom code unit md) = material_descriptions md
  /\ mrp_control_values (note_uom code unit md) = mrp_control_values md.
Proof.
  unfold note_uom. destruct unit as [u|]; [|done]. by destruct (_ && _).
Qed.

Lemma note_description_keeps code description md code' d :
  dict_get (material_descriptions md) code' = Some d ->
  dict_get (material_descriptions (note_description code description md))
           code' = Some d.
Proof.
  intros Hd. unfold note_description. destruct description as [desc|]; [|done].
  destruct (_ && _) eqn:E1; simpl; [|done].
  apply andb_true_iff in E1 as [_ Em]. apply negb_true_iff in Em.
  rewrite dict_get_set. destruct (decide (code = code')) as [->|]; [|done].
  unfold dict_mem in Em. by rewrite Hd in Em.
Qed.

Lemma metadata_step_keeps md row code d :
  dict_get (material_descriptions md) code = Some d ->
  dict_get (material_descriptions (metadata_step md row)) code = Some d.
Proof.
  intros Hd. unfold metadata_step.
  rewrite (proj1 (note_uom_descriptions _ _ _)).
  apply note_description_keeps.
  rewrite (proj1 (note_uom_descriptions _ _ _)).
  by apply note_description_keeps.
Qed.

(** X4.  The BOM pass never replaces a description: a material that has
    a description when the pass starts, such as one taken from the MRP
    Contor sheet, has the same description after it. *)
Theorem metadata_loop_keeps_description (md : metadata) (df : list bom_row)
    (code d : string) :
  dict_get (material_descriptions md) code = Some d ->
  get_material_description (metadata_loop md df) code = d.
Proof.
  intros Hd. unfold get_material_description, metadata_loop.
  enough (H : dict_get (material_descriptions (fold_left metadata_step df md))
                       code = Some d) by (by rewrite H).
  revert md Hd. induction df as [|row df IH]; intros md Hd; simpl; [done|].
  by apply IH, metadata_step_keeps.
Qed.

(** X4, instance: the sheet describes B as a bolt, the BOM as a screw. *)
Lemma metadata_loop_keeps_description_witness :
  get_material_description
    (metadata_loop
       (mrp_loop new_metadata
          [{| mrp_material := Some "B"; mrp_description := Some "bolt";
              mrp_control := Some "M1" |}])
       [{| row_parent := Some "A"; row_component := Some "B";
           row_qty := Num 2%float; row_description := Some "screw";
           row_uom := Some "EA" |}])
    "B" = "bolt".
Proof.
  by apply metadata_loop_keeps_description.
Defined.

Lemma note_uom_consistent code unit md :
  units_consistent md -> units_consistent (note_uom code unit md).
Proof.
  intros Hc. unfold note_uom. destruct unit as [u|]; [|done].
  destruct (_ && _); [|done]. intros code'. simpl.
  rewrite !dict_get_set. destruct (decide (code = code')); [done | apply Hc].
Qed.

Lemma note_description_consistent code description md :
  units_consistent md -> units_consistent (note_description code description md).
Proof.
  intros Hc code'.
  destruct (note_description_uoms code description md) as (-> & -> & _).
  apply Hc.
Qed.

Lemma metadata_loop_consistent md df :
  units_consistent md -> units_consistent (metadata_loop md df).
Proof.
  unfold metadata_loop. revert md.
  induction df as [|row df IH]; intros md Hc; simpl; [done|].
  apply IH. unfold metadata_step.
  by repeat first [apply note_uom_consistent
                  | apply note_description_consistent].
Qed.

Lemma note_uom_proper code unit md :
  units_proper md -> units_proper (note_uom code unit md).
Proof.
  intros Hp. unfold note_uom. destruct unit as [u|]; [|done].
  destruct (_ && _) eqn:E; [|done]. intros code' u'. simpl.
  rewrite dict_get_set. destruct (decide (code = code')); [|apply Hp].
  intros [= <-]. split; [|apply strip_idem].
  apply andb_true_iff in E as [E _]. apply andb_true_iff in E as [_ E].
  apply negb_true_iff in E. by destruct (PyStr.strip u).
Qed.

Lemma note_description_proper code description md :
  units_proper md -> units_proper (note_description code description md).
Proof.
  intros Hp code'.
  destruct (note_description_uoms code description md) as (-> & _).
  apply Hp.
Qed.

Lemma metadata_loop_proper md df :
  units_proper md -> units_proper (metadata_loop md df).
Proof.
  unfold metadata_loop. revert md.
  induction df as [|row df IH]; intros md Hp; simpl; [done|].
  apply IH. unfold metadata_step.
  by repeat first [apply note_uom_proper | apply note_description_proper].
Qed.

(** The standardised form of a unit that is not empty is not empty. *)
Lemma standardize_not_empty u :
  u <> "" -> PyStr.strip u = u -> standardize u <> "".
Proof.
  intros Hu Hs. unfold standardize, convert_quantity. rewrite Hs.
  case_bool_decide; simpl; [done|]. by destruct u.
Qed.

(** X5.  After the BOM pass on a fresh instance every material with a
    unit has its standardised unit stored with it, so the standardised
    unit a material is reported with is the conversion of its recorded
    unit, never a gram token, and empty exactly for a material without
    a recorded unit (a recorded unit is trimmed and not empty, and so is
    its conversion). *)
Theorem metadata_loop_units (df : list bom_row) (code : string) :
  let md := metadata_loop new_metadata df in
  dict_get (standardized_uoms md) code
  = standardize <$> dict_get (material_uoms md) code
  /\ get_standardized_uom md code
     = default "" (standardize <$> dict_get (material_uoms md) code)
  /\ (get_standardized_uom md code ∉ gram_units)
  /\ (get_standardized_uom md code = ""
      <-> dict_get (material_uoms md) code = None).
Proof.
  intros md.
  assert (Hc : units_consistent md)
    by (by apply metadata_loop_consistent).
  assert (Hp : units_proper md)
    by (by apply metadata_loop_proper).
  unfold get_standardized_uom. rewrite (Hc code). split; [done|].
  specialize (Hp code).
  destruct (dict_get (material_uoms md) code) as [u|]; simpl.
  - split_and!; [done | apply standardize_not_gram |].
    destruct (Hp u eq_refl) as [Hu Hs]. split; [|done].
    intros He. by apply standardize_not_empty in He.
  - split_and!; [done | | done].
    apply (bool_decide_eq_false_1 (_ ∈ _)). reflexivity.
Qed.

(** *** The MRP Contor sheet *)

Lemma mrp_step_control md row code :
  dict_get (mrp_control_values (mrp_step md row)) code =
  last_or (offered_controls code [row])
          (dict_get (mrp_control_values md) code).
Proof.
  unfold mrp_step, offered_controls, last_or, mrp_code_ok. simpl.
  set (mc := PyStr.strip (py_str (mrp_material row))).
  destruct (negb (PyStr.is_empty mc) && negb (bool_decide (mc = "nan")))
    eqn:E.
  - apply andb_true_iff in E as [E1 E2].
    apply negb_true_iff in E1, E2. apply bool_decide_eq_false in E2.
    assert (mc <> "") by (by destruct mc).
    simpl. destruct (decide (mc = code /\ _)) as [[<- _]|Hn].
    + destruct (mrp_control row) as [v|]; simpl; [|done].
      by rewrite dict_get_set, decide_True.
    + destruct (mrp_control row) as [v|]; simpl; [|done].
      rewrite dict_get_set, decide_False; [done|]. intros <-. by apply Hn.
  - destruct (decide (mc = code /\ _)) as [[<- [H1 H2]]|Hn]; [|done].
    exfalso. apply andb_false_iff in E as [E|E].
    + apply negb_false_iff in E. by destruct mc.
    + apply negb_false_iff, bool_decide_eq_true in E. done.
Qed.

Lemma mrp_step_description md row code :
  dict_get (material_descriptions (mrp_step md row)) code =
  last_or (offered_descriptions code [row])
          (dict_get (material_descriptions md) code).
Proof.
  unfold mrp_step, offered_descriptions, last_or, mrp_code_ok. simpl.
  set (mc := PyStr.strip (py_str (mrp_material row))).
  destruct (negb (PyStr.is_empty mc) && negb (bool_decide (mc = "nan")))
    eqn:E.
  - apply andb_true_iff in E as [E1 E2].
    apply negb_true_iff in E1, E2. apply bool_decide_eq_false in E2.
    assert (mc <> "") by (by destruct mc).
    simpl. destruct (decide (mc = code /\ _)) as [[<- _]|Hn].
    + destruct (mrp_description row) as [d|]; simpl; [|done].
      destruct (PyStr.is_empty (PyStr.strip d)); simpl; [done|].
      by rewrite dict_get_set, decide_True.
    + destruct (mrp_description row) as [d|]; simpl; [|done].
      destruct (PyStr.is_empty (PyStr.strip d)); simpl; [done|].
      rewrite dict_get_set, decide_False; [done|]. intros <-. by apply Hn.
  - destruct (decide (mc = code /\ _)) as [[<- [H1 H2]]|Hn]; [|done].
    exfalso. apply andb_false_iff in E as [E|E].
    + apply negb_false_iff in E. by destruct mc.
    + apply negb_false_iff, bool_decide_eq_true in E. done.
Qed.

Lemma last_or_app {A} (l1 l2 : list A) o :
  last_or (l1 ++ l2) o = last_or l2 (last_or l1 o).
Proof.
  unfold last_or. destruct l2 as [|x l2] using rev_ind.
  - by rewrite app_nil_r.
  - by rewrite app_assoc, !last_snoc.
Qed.

Lemma omap_cons_app {A B} (f : A -> option B) x l :
  omap f (x :: l) = omap f [x] ++ omap f l.
Proof. simpl. by destruct (f x). Qed.

(** X6.  The MRP Contor pass is last-row-wins: the control value and the
    description of a material are those of the last row of the sheet
    that carries the material's trimmed code (neither empty nor ['nan'])
    together with a control value, respectively a description that is
    not blank; a material no row offers anything for keeps what it
    had. *)
Theorem mrp_loop_last_wins (md : metadata) (df : list mrp_row)
    (code : string) :
  dict_get (mrp_control_values (mrp_loop md df)) code
  = last_or (offered_controls code df) (dict_get (mrp_control_values md) code)
  /\ dict_get (material_descriptions (mrp_loop md df)) code
     = last_or (offered_descriptions code df)
               (dict_get (material_descriptions md) code).
Proof.
  unfold mrp_loop. revert md.
  induction df as [|row df IH]; intros md; cbn [fold_left]; [done|].
  destruct (IH (mrp_step md row)) as [-> ->].
  rewrite mrp_step_control, mrp_step_description.
  rewrite (omap_cons_app _ row df : offered_controls code (row :: df) = _).
  rewrite (omap_cons_app _ row df : offered_descriptions code (row :: df) = _).
  by rewrite !last_or_app.
Qed.

(** ** Explosion: results and cycles *)

Lemma explode_loop_keeps_keys (explode : string -> option (dict float))
    edges total m k :
  explode_loop explode edges total = Some m ->
  k ∈ dict_keys total -> k ∈ dict_keys m.
Proof.
  revert total. induction edges as [|[comp qty] edges IH]; intros total; simpl.
  - by intros [= <-].
  - destruct (explode comp) as [sub_map|]; [|done].
    intros H Hk. eapply IH; [done|]. apply accumulate_keys. by left.
Qed.

Lemma explode_unit_nonempty fuel (rel : relations) code m :
  explode_unit fuel rel code = Some m -> m <> [].
Proof.
  revert code m. induction fuel as [|fuel IH]; intros code m; [done|].
  rewrite explode_unit_unfold.
  destruct (is_leaf rel (PyStr.strip code)) eqn:El; [by intros [= <-]|].
  unfold is_leaf in El. apply orb_false_elim in El as [_ El].
  destruct (rel_at rel (PyStr.strip code)) as [|[comp qty] edges]; [done|].
  simpl. destruct (explode_unit fuel rel comp) as [sub|] eqn:Es; [|done].
  intros Hloop ->. apply IH in Es.
  destruct sub as [|[k v] sub]; [done|].
  assert (Hk : k ∈ dict_keys (@nil (string * float))).
  { eapply explode_loop_keeps_keys; [exact Hloop|].
    apply accumulate_keys. right. apply elem_of_cons. by left. }
  by apply elem_of_nil in Hk.
Qed.

Lemma explode_unit_key_leaf fuel (rel : relations) code m k :
  explode_unit fuel rel code = Some m ->
  k ∈ dict_keys m -> is_leaf rel k = true.
Proof.
  intros Hm Hk. apply explode_unit_keys_leaf in Hm.
  apply list_elem_of_fmap in Hk as ([k' v] & -> & Hin).
  rewrite Forall_forall in Hm. exact (Hm _ Hin).
Qed.

(** X7.  Every dictionary [explode_unit] returns lists at least one
    material, lists no material twice, and lists leaves only: codes that
    start with ['1'] or have no components. *)
Theorem explode_unit_result_shape (fuel : nat) (rel : relations)
    (code : string) (m : dict float) :
  explode_unit fuel rel code = Some m ->
  m <> [] /\ NoDup (dict_keys m)
  /\ forall k, k ∈ dict_keys m -> is_leaf rel k = true.
Proof.
  intros Hm. split_and!.
  - by eapply explode_unit_nonempty.
  - by eapply explode_unit_NoDup.
  - intros k. by apply (explode_unit_key_leaf fuel rel code).
Qed.

(** X7, instance: the example BOM exploded from A. *)
Lemma explode_unit_result_shape_witness :
  [("C", 6%float); ("D", 1%float)] <> []
  /\ NoDup (dict_keys [("C", 6%float); ("D", 1%float)])
  /\ forall k, k ∈ dict_keys [("C", 6%float); ("D", 1%float)] ->
               is_leaf bom_example k = true.
Proof.
  apply (explode_unit_result_shape 3 bom_example "A"). reflexivity.
Defined.

Lemma explode_loop_None (explode : string -> option (dict float))
    edges total e :
  e ∈ edges -> explode e.1 = None ->
  explode_loop explode edges total = None.
Proof.
  intros He Hn. revert total.
  induction edges as [|[comp qty] edges IH]; intros total;
    [by apply elem_of_nil in He|].
  simpl. destruct (explode comp) as [sub|] eqn:E; [|done].
  apply elem_of_cons in He as [->|He]; [simpl in Hn; congruence|].
  by apply IH.
Qed.

(** X8.  The explosion is not guarded against cycles: from an item of a
    trap, a set of items that are no leaves and each have a component in
    the set, [explode_unit] returns at no recursion depth. *)
Theorem explode_unit_trap (rel : relations) (S : string -> Prop)
    (code : string) :
  explosion_trap rel S -> S (PyStr.strip code) ->
  forall fuel, explode_unit fuel rel code = None.
Proof.
  intros Htrap Hs fuel. revert code Hs.
  induction fuel as [|fuel IH]; intros code Hs; [done|].
  rewrite explode_unit_unfold.
  destruct (Htrap _ Hs) as (-> & comp & qty & He & Hs').
  apply (explode_loop_None _ _ _ (comp, qty)); [done|]. by apply IH.
Qed.

(** X8, instance: A and B contain each other. *)
Lemma explode_unit_trap_witness :
  explosion_trap bom_cycle (fun x => x = "A" \/ x = "B")
  /\ forall fuel, explode_unit fuel bom_cycle "A" = None.
Proof.
  assert (Htrap : explosion_trap bom_cycle (fun x => x = "A" \/ x = "B")).
  { intros x [-> | ->]; (split; [done|]).
    - exists "B", 1%float. split; [apply elem_of_cons; by left | by right].
    - exists "A", 1%float. split; [apply elem_of_cons; by left | by left]. }
  split; [exact Htrap|].
  apply (explode_unit_trap bom_cycle (fun x => x = "A" \/ x = "B"));
    [exact Htrap | by left].
Defined.

(** *** The all-levels push *)

Lemma component_loop_None push edges parent_qty month results e :
  e ∈ edges -> (forall q r, push e.1 q r = None) ->
  component_loop push edges parent_qty month results = None.
Proof.
  intros He Hn. revert results.
  induction edges as [|[comp qty] edges IH]; intros results;
    [by apply elem_of_nil in He|].
  simpl. apply elem_of_cons in He as [->|He].
  - simpl in Hn. by rewrite Hn.
  - destruct (push comp _ _); [by apply IH | done].
Qed.

Lemma push_trap_None rel S :
  push_trap rel S ->
  forall fuel parent q month results,
    S parent ->
    _calculate_component_requirements fuel rel parent q month results = None.
Proof.
  intros Htrap. induction fuel as [|fuel IH];
    intros parent q month results Hs; [done|].
  simpl. destruct (Htrap _ Hs) as (-> & comp & qty & He & Hs'). simpl.
  apply (component_loop_None _ _ _ _ _ (comp, qty)); [done|].
  intros q' r. by apply IH.
Qed.

Lemma all_levels_months_None f fuel rel parent mcs :
  fold_left (all_levels_month_step f fuel rel parent) mcs None = None.
Proof. by induction mcs. Qed.

Lemma all_levels_rows_None f fuel rel months rows :
  fold_left (all_levels_row_step f fuel rel months) rows None = None.
Proof.
  induction rows as [|row rows IH]; simpl; [done|].
  unfold all_levels_row_step at 2.
  destruct (PyStr.is_empty _); [done|].
  by rewrite all_levels_months_None.
Qed.

(** X9.  The all-levels push is not guarded against cycles either: when a
    plan row names, by a code that is not empty, an item of a trap and
    carries, in some month, a quantity that is counted (the cell is not
    missing, is not zero and reads as a float), the accumulation never
    finishes; the method then reports the error and returns an empty
    frame. *)
Theorem calculate_all_levels_trap
    (f : string -> option float) (rel : relations) (S : string -> Prop)
    (ms1 : list string) (mo : string) (ms2 : list string)
    (rows1 : list plan_row) (code : option string)
    (cs1 : list cell) (c : cell) (cs2 : list cell) (rows2 : list plan_row)
    (v : float) :
  push_trap rel S ->
  S (PyStr.strip (py_str code)) ->
  PyStr.strip (py_str code) <> "" ->
  length ms1 = length cs1 ->
  isna c = false ->
  cell_is_zero c = false ->
  float_of_cell f c = Some v ->
  forall fuel,
    calculate_all_levels_requirements f fuel rel (ms1 ++ mo :: ms2)
      (plan_with rows1 code cs1 c cs2 rows2) = None.
Proof.
  intros Htrap Hs Hcode Hlen Hna Hz Hc fuel.
  unfold calculate_all_levels_requirements, plan_with.
  rewrite fold_left_app. simpl.
  generalize (fold_left (all_levels_row_step f fuel rel (ms1 ++ mo :: ms2))
                        rows1 (Some [])).
  intros acc.
  assert (Hrow : all_levels_row_step f fuel rel (ms1 ++ mo :: ms2) acc
                   {| plan_code := code; plan_cells := cs1 ++ c :: cs2 |}
                 = None).
  { unfold all_levels_row_step. simpl.
    assert (Hne : PyStr.is_empty (PyStr.strip (py_str code)) = false).
    { by destruct (PyStr.strip (py_str code)). }
    rewrite Hne, combine_split by done. rewrite fold_left_app. simpl.
    assert (Hstep : forall acc',
               all_levels_month_step f fuel rel (PyStr.strip (py_str code))
                                     acc' (mo, c) = None).
    { intros [r|]; [|done]. unfold all_levels_month_step. simpl.
      rewrite Hna, Hz, Hc. simpl. by apply (push_trap_None rel S). }
    rewrite Hstep. apply all_levels_months_None. }
  rewrite Hrow. apply all_levels_rows_None.
Qed.

(** X9, instance: ten units of A on the cyclic table. *)
Lemma calculate_all_levels_trap_witness :
  push_trap bom_cycle (fun x => x = "A" \/ x = "B")
  /\ forall fuel,
       calculate_all_levels_requirements decimal_float fuel bom_cycle ["Jan"]
         (plan_with [] (Some "A") [] (Num 10%float) [] []) = None.
Proof.
  assert (Htrap : push_trap bom_cycle (fun x => x = "A" \/ x = "B")).
  { intros x [-> | ->]; (split; [done|]).
    - exists "B", 1%float. split; [apply elem_of_cons; by left | by right].
    - exists "A", 1%float. split; [apply elem_of_cons; by left | by left]. }
  split; [exact Htrap|].
  apply (calculate_all_levels_trap decimal_float bom_cycle
           (fun x => x = "A" \/ x = "B") [] "Jan" [] [] (Some "A") []
           (Num 10%float) [] [] 10%float).
  - exact Htrap.
  - by left.
  - done.
  - done.
  - done.
  - done.
  - done.
Defined.

(** ** The two aggregators on one plan *)

(** X10.  The all-levels aggregator pushes a planned quantity down the
    table and multiplies from the top, [(planned * a) * b], while the
    requirements aggregator multiplies the planned quantity with the
    explosion, which is formed from the bottom, [planned * (b * a)].  In
    binary64 the two need not agree: for three units of P with
    P -> 0.1 x M and M -> 0.7 x X the all-levels table shows
    0.21000000000000002 of X for January and the requirements table
    0.20999999999999996. *)
Theorem all_levels_rounds_differently :
  exists results st,
    calculate_all_levels_requirements decimal_float 3 bom_chain ["Jan"]
      plan_three_P = Some results
    /\ calculate_requirements decimal_float 3 bom_chain ["Jan"] plan_three_P
       = Some st
    /\ cell_total results "X" "Jan" = 0.21000000000000002%float
    /\ cell_total st.1 "X" "Jan" = 0.20999999999999996%float
    /\ (3 * 0.1 * 0.7 = 0.21000000000000002
        /\ 3 * (0.7 * 0.1) = 0.20999999999999996)%float.
Proof.
  destruct (calculate_all_levels_requirements decimal_float 3 bom_chain
              ["Jan"] plan_three_P) as [results|] eqn:Hall;
    [|vm_compute in Hall; discriminate].
  destruct (calculate_requirements decimal_float 3 bom_chain ["Jan"]
              plan_three_P) as [st|] eqn:Hreq;
    [|vm_compute in Hreq; discriminate].
  exists results, st. split_and!; try done.
  - vm_compute in Hall. injection Hall as <-. reflexivity.
  - apply requirements_loop_total in Hreq as [Ht _]. rewrite Ht. reflexivity.
Qed.

(** ** Built tables *)

Lemma well_formed_append (rel : relations) parent comp q :
  well_formed rel ->
  proper_code parent -> PyStr.strip parent = parent ->
  proper_code comp -> PyStr.strip comp = comp ->
  well_formed (dict_append rel parent (comp, q)).
Proof.
  intros [Hnd Hall] Hp Hps Hc Hcs. split.
  - by apply dict_keys_upd_NoDup.
  - apply Forall_forall. intros [k edges] Hin.
    apply dict_upd_elem in Hin as [Hin|[-> ->]].
    + rewrite Forall_forall in Hall. exact (Hall _ Hin).
    + simpl. split_and!; [done | done | by destruct (default [] _) |].
      apply Forall_app. split; [|by apply Forall_singleton].
      destruct (dict_get rel parent) as [old|] eqn:Eg; simpl;
        [|apply Forall_nil_2].
      apply dict_get_Some_elem in Eg.
      rewrite Forall_forall in Hall. by destruct (Hall _ Eg) as (_ & _ & _ & ?).
Qed.

Lemma relations_step_well_formed f st row :
  well_formed st.1 -> well_formed (relations_step f st row).1.
Proof.
  intros Hwf. unfold relations_step.
  destruct (blank_or_nan (PyStr.strip (py_str (row_parent row)))) eqn:Ep;
    [done|].
  destruct (blank_or_nan (PyStr.strip (py_str (row_component row)))) eqn:Ec;
    [done|].
  simpl. apply blank_or_nan_false in Ep, Ec.
  destruct (isna _); [done|].
  destruct (float_of_cell f (row_qty row)) as [qty|]; [|done].
  destruct (0 <? _)%float; [|done]. simpl.
  apply well_formed_append; try done; apply strip_idem.
Qed.

(** X11.  Every relation table the builder produces is well formed: no
    parent code occurs twice as a key, every parent has at least one
    component, and every parent and component code is trimmed, not empty
    and not ['nan'].  In particular its component codes are trimmed, so
    that the explosion, which trims every code it reads, and the
    all-levels push, which does not, follow the same components. *)
Theorem relations_loop_well_formed (f : string -> option float)
    (df : list bom_row) :
  well_formed (relations_loop f df).1
  /\ trimmed_table (relations_loop f df).1.
Proof.
  assert (Hwf : well_formed (relations_loop f df).1).
  { unfold relations_loop.
    assert (H0 : well_formed (([], []) : relations * list warning).1)
      by (split; constructor).
    revert H0. generalize (([], []) : relations * list warning).
    induction df as [|row df IH]; intros st Hst; simpl; [done|].
    by apply IH, relations_step_well_formed. }
  split; [done|].
  destruct Hwf as [_ Hall]. unfold trimmed_table.
  eapply Forall_impl; [exact Hall|]. intros entry (_ & _ & _ & He). simpl.
  eapply Forall_impl; [exact He|]. by intros e [_ ?].
Qed.

(** ** Cleaning, again *)

(** X12.  After cleaning no two rows have the same parent and component
    cells, and every row still has its parent, component and quantity
    cell. *)
Theorem clean_bom_data_unique_edges (bom_df : list bom_row) :
  NoDup (map edge_key (clean_bom_data bom_df))
  /\ forall r, r ∈ clean_bom_data bom_df ->
               r ∈ bom_df /\ essential_na r = false.
Proof.
  split.
  - unfold clean_bom_data. apply drop_last_NoDup.
  - intros r. apply clean_bom_data_elem.
Qed.

(** X13.  Cleaning loses no edge: for every row of the sheet that has its
    parent, component and quantity cell, some row with the same parent
    and component cells is left. *)
Theorem clean_bom_data_keeps_edges (bom_df : list bom_row) (r : bom_row) :
  r ∈ bom_df -> essential_na r = false ->
  exists r', r' ∈ clean_bom_data bom_df /\ edge_key r' = edge_key r.
Proof.
  intros Hr He. unfold clean_bom_data. rewrite dropna_essential_all.
  set (df2 := dropna_essential bom_df).
  set (df3 := drop_duplicates_first full_key [] df2).
  assert (H2 : r ∈ df2).
  { apply list_filter_elem. split; [done|]. by rewrite He. }
  assert (H3 : exists r3, r3 ∈ df3 /\ full_key r3 = full_key r).
  { pose proof (drop_first_filter full_key [] df2 (full_key r)) as Hf.
    rewrite decide_False in Hf by apply not_elem_of_nil. fold df3 in Hf.
    assert (Hin : r ∈ filter (fun r0 => full_key r0 = full_key r) df2)
      by (by apply list_elem_of_filter).
    destruct (filter (fun r0 => full_key r0 = full_key r) df2) as [|x l] eqn:E;
      [by apply elem_of_nil in Hin|].
    simpl in Hf.
    assert (Hx : x ∈ filter (fun r0 => full_key r0 = full_key r) df3)
      by (rewrite Hf; apply elem_of_cons; by left).
    apply list_elem_of_filter in Hx as [Hk Hx]. by exists x. }
  destruct H3 as (r3 & Hr3 & Hk3).
  assert (Hk : edge_key r3 = edge_key r).
  { unfold full_key in Hk3. unfold edge_key. congruence. }
  pose proof (drop_last_filter edge_key df3 (edge_key r)) as Hl.
  assert (Hin : r3 ∈ filter (fun r0 => edge_key r0 = edge_key r) df3)
    by (by apply list_elem_of_filter).
  destruct (last (filter (fun r0 => edge_key r0 = edge_key r) df3))
    as [r'|] eqn:El.
  - exists r'. simpl in Hl.
    assert (Hr' : r' ∈ filter (fun r0 => edge_key r0 = edge_key r)
                              (drop_duplicates_last edge_key df3))
      by (rewrite Hl; apply elem_of_cons; by left).
    apply list_elem_of_filter in Hr' as [? ?]. done.
  - apply last_None in El. rewrite El in Hin. by apply elem_of_nil in Hin.
Qed.

(** X13, instance: the first of the three revisions of edge A-B. *)
Lemma clean_bom_data_keeps_edges_witness :
  exists r', r' ∈ clean_bom_data revised_twice
             /\ edge_key r' = (Some "A", Some "B").
Proof.
  apply (clean_bom_data_keeps_edges revised_twice
           (edge_row "A" "B" (Num 2%float) "EA")).
  - apply elem_of_cons. by left.
  - done.
Defined.

(** ** Requirements aggregation, again *)

Lemma requirements_loop_runs f fuel rel months rows st :
  is_Some (requirements_loop f fuel rel months rows st) <->
  Forall (row_runs fuel rel) rows.
Proof.
  revert st. induction rows as [|prow rows IH]; intros st; simpl.
  - split; [constructor | by eexists].
  - rewrite Forall_cons. unfold row_runs at 1.
    destruct (blank_fg (PyStr.strip (py_str (plan_code prow)))).
    + rewrite IH. naive_solver.
    + destruct (explode_unit fuel rel _) as [bm|].
      * rewrite IH. split; [intros ?; split; [right; by eexists | done]|].
        by intros [_ ?].
      * split; [by intros [? [=]]|]. intros [[?|[? [=]]] _]. done.
Qed.

Lemma union_list_Permutation (l l' : list (gset string)) :
  l ≡ₚ l' -> ⋃ l = ⋃ l'.
Proof.
  induction 1 as [|x l l' _ IH|x y l|l l' l'' _ IH1 _ IH2]; simpl.
  - done.
  - by rewrite IH.
  - set_solver.
  - by rewrite IH1.
Qed.

(** X14.  Rearranging the plan rows changes the order in which the terms
    of a total are added, and nothing else: if the run on a plan
    finishes, the run on any rearrangement of its rows finishes with the
    same set of materials, and every total is the sum from the left of
    the same terms in the new order.  The sum itself may come out
    differently: 0.1 + 0.2 + 0.3 is 0.6000000000000001, and
    0.3 + 0.2 + 0.1 is 0.6. *)
Theorem calculate_requirements_row_order (f : string -> option float)
    (fuel : nat) (rel : relations) (months : list string)
    (plan_df plan_df' : list plan_row) (st : req_state) :
  plan_df ≡ₚ plan_df' ->
  calculate_requirements f fuel rel months plan_df = Some st ->
  exists st',
    calculate_requirements f fuel rel months plan_df' = Some st'
    /\ st'.2 = st.2
    /\ forall material month,
         cell_total st.1 material month
         = sum_left (plan_terms f fuel rel months material month plan_df)
         /\ cell_total st'.1 material month
            = sum_left (plan_terms f fuel rel months material month plan_df')
         /\ plan_terms f fuel rel months material month plan_df
            ≡ₚ plan_terms f fuel rel months material month plan_df'.
Proof.
  intros Hperm Hrun. unfold calculate_requirements in *.
  assert (Hsome : is_Some (requirements_loop f fuel rel months plan_df'
                                             ([], ∅))).
  { apply requirements_loop_runs. rewrite <- Hperm.
    apply (requirements_loop_runs f fuel rel months plan_df ([], ∅)).
    by eexists. }
  destruct Hsome as [st' Hrun']. exists st'. split; [done|].
  apply requirements_loop_total in Hrun as [Ht Hc].
  apply requirements_loop_total in Hrun' as [Ht' Hc'].
  split.
  - rewrite Hc, Hc'. f_equal. apply union_list_Permutation.
    by apply Permutation_map.
  - intros material month. split_and!; [apply Ht | apply Ht' |].
    unfold plan_terms. by apply Permutation_flat_map.
Qed.

(** X14, instance: three products that need 0.1, 0.2 and 0.3 of X, read
    in this order and in the reverse order. *)
Lemma calculate_requirements_row_order_witness :
  exists st st',
    calculate_requirements decimal_float 2 bom_three_products ["Jan"]
      plan_three_products = Some st
    /\ calculate_requirements decimal_float 2 bom_three_products ["Jan"]
         (reverse plan_three_products) = Some st'
    /\ st'.2 = st.2
    /\ cell_total st.1 "X" "Jan" = 0.6000000000000001%float
    /\ cell_total st'.1 "X" "Jan" = 0.6%float.
Proof.
  destruct (calculate_requirements decimal_float 2 bom_three_products ["Jan"]
              plan_three_products) as [st|] eqn:Hrun;
    [|vm_compute in Hrun; discriminate].
  destruct (calculate_requirements_row_order decimal_float 2
              bom_three_products ["Jan"] plan_three_products
              (reverse plan_three_products) st)
    as (st' & Hrun' & Hcodes & Ht);
    [symmetry; apply reverse_Permutation | done |].
  exists st, st'. split; [done|]. split; [exact Hrun'|].
  split; [exact Hcodes|].
  destruct (Ht "X" "Jan") as (H1 & H2 & _).
  split; [rewrite H1 | rewrite H2]; reflexivity.
Defined.

Lemma months_codes_keys f bom_map mcs k :
  k ∈ months_codes f bom_map mcs -> k ∈ dict_keys bom_map.
Proof.
  unfold months_codes. induction mcs as [|mc mcs IH]; simpl.
  - intros H. by apply elem_of_empty in H.
  - intros H. apply elem_of_union in H as [H|H]; [|by apply IH].
    destruct (counted f mc.2); [|by apply elem_of_empty in H].
    by apply elem_of_list_to_set in H.
Qed.

(** X15.  Every material the requirements loop records is a leaf of the
    relation table: a code that starts with ['1'] or has no
    components. *)
Theorem calculate_requirements_leaves (f : string -> option float)
    (fuel : nat)
    (rel : relations) (months : list string) (plan_df : list plan_row)
    (st : req_state) (material : string) :
  calculate_requirements f fuel rel months plan_df = Some st ->
  material ∈ st.2 -> is_leaf rel material = true.
Proof.
  intros Hrun Hin. unfold calculate_requirements in Hrun.
  apply requirements_loop_total in Hrun as [_ Hc]. rewrite Hc in Hin.
  apply elem_of_union in Hin as [Hin|Hin]; [|by apply elem_of_empty in Hin].
  apply elem_of_union_list in Hin as (X & HX & Hin).
  apply list_elem_of_fmap in HX as (prow & -> & _).
  unfold row_codes in Hin. destruct (blank_fg _);
    [by apply elem_of_empty in Hin|].
  apply months_codes_keys in Hin.
  destruct (explode_unit fuel rel _) as [bm|] eqn:Ee;
    [|by apply elem_of_nil in Hin].
  simpl in Hin.
  by eapply explode_unit_key_leaf.
Qed.

(** X15, instance: the materials of the example plan are C and D. *)
Lemma calculate_requirements_leaves_witness :
  exists st,
    calculate_requirements decimal_float 3 bom_example ["Jan"] plan_A_and_B
    = Some st
    /\ forall material, material ∈ st.2 -> is_leaf bom_example material = true.
Proof.
  destruct (calculate_requirements decimal_float 3 bom_example ["Jan"]
              plan_A_and_B) as [st|] eqn:Hrun;
    [|vm_compute in Hrun; discriminate].
  exists st. split; [done|]. intros material.
  exact (calculate_requirements_leaves decimal_float 3 bom_example ["Jan"]
           plan_A_and_B st material Hrun).
Defined.

Lemma month_step_nothing f bom_map st mo c :
  counted f c = None -> month_step f bom_map st (mo, c) = st.
Proof. intros Hc. rewrite month_step_counted. simpl. by rewrite Hc. Qed.

(** X16.  A month cell that is not counted, because it is unreadable or
    reads as zero, counts like a missing cell: replacing it by a missing
    cell changes nothing in the result of the requirements loop, neither
    a total nor the set of materials. *)
Theorem calculate_requirements_blank_cell (f : string -> option float)
    (fuel : nat) (rel : relations)
    (ms1 : list string) (mo : string) (ms2 : list string)
    (rows1 : list plan_row) (code : option string)
    (cs1 : list cell) (c : cell) (cs2 : list cell) (rows2 : list plan_row) :
  length ms1 = length cs1 ->
  counted f c = None ->
  calculate_requirements f fuel rel (ms1 ++ mo :: ms2)
    (plan_with rows1 code cs1 c cs2 rows2)
  = calculate_requirements f fuel rel (ms1 ++ mo :: ms2)
      (plan_with rows1 code cs1 NaN cs2 rows2).
Proof.
  intros Hlen Hz. unfold calculate_requirements, plan_with.
  generalize (([], ∅) : req_state).
  induction rows1 as [|r rows1 IH]; intros st; simpl.
  - destruct (blank_fg _); [done|].
    destruct (explode_unit fuel rel _) as [bm|]; [|done].
    rewrite !combine_split by done. rewrite !fold_left_app. simpl.
    by rewrite (month_step_nothing f bm _ mo c Hz),
               (month_step_nothing f bm _ mo NaN eq_refl).
  - destruct (blank_fg (PyStr.strip (py_str (plan_code r)))); [apply IH|].
    destruct (explode_unit fuel rel (PyStr.strip (py_str (plan_code r))));
      [apply IH | done].
Qed.

(** X16, instance: the text [n/a] in the January cell of a plan. *)
Lemma calculate_requirements_blank_cell_witness :
  calculate_requirements decimal_float 3 bom_example ["Jan"; "Feb"]
    (plan_with [] (Some "A") [] (Text "n/a") [Num 5%float] [])
  = calculate_requirements decimal_float 3 bom_example ["Jan"; "Feb"]
      (plan_with [] (Some "A") [] NaN [Num 5%float] []).
Proof.
  by apply (calculate_requirements_blank_cell decimal_float 3 bom_example
              [] "Jan" ["Feb"] [] (Some "A") [] (Text "n/a")
              [Num 5%float] []).
Defined.

(** ** Levels, again *)

(** X17.  The level search never answers 1: a plan top-level code has
    level 0, and every other material has level 2 or more (999 when no
    chain leads to the plan), since the first hop already counts twice. *)
Theorem get_material_level_never_one (fuel : nat) (rel : relations)
    (plan_df : list plan_row) (material : string) (level : Z) :
  _get_material_level fuel rel plan_df material = Some level ->
  (material ∈ plan_codes plan_df /\ level = 0%Z)
  \/ ((material ∉ plan_codes plan_df) /\ (2 <= level)%Z).
Proof.
  unfold _get_material_level.
  destruct (decide (material ∈ plan_codes plan_df)) as [Hin|Hnin].
  { intros [= <-]. by left. }
  destruct (find_level fuel rel (plan_codes plan_df) material ∅)
    as [[lvl v']|] eqn:Hfind; [|done].
  intros [= <-]. right. split; [done|].
  pose proof (find_level_outcome rel (plan_codes plan_df) _ _ _ _ Hfind)
    as (_ & _ & Hres). simpl in Hres.
  destruct Hres as [(n & Hch & ->)|[-> _]]; [|done].
  destruct n as [|n]; [by inversion Hch|].
  destruct (0 <=? Z.of_nat (S n) + 1)%Z eqn:E; lia.
Qed.

(** X17, instance: C lies two hops below the plan item A. *)
Lemma get_material_level_never_one_witness :
  _get_material_level 4 bom_example plan_A_and_B "C" = Some 2%Z
  /\ (("C" ∈ plan_codes plan_A_and_B /\ 2%Z = 0%Z)
      \/ (("C" ∉ plan_codes plan_A_and_B) /\ (2 <= 2)%Z)).
Proof.
  split; [done|].
  by apply (get_material_level_never_one 4 bom_example plan_A_and_B "C").
Defined.

Lemma get_material_level_not_one fuel rel plan_df material :
  _get_material_level fuel rel plan_df material <> Some 1%Z.
Proof.
  unfold _get_material_level.
  destruct (decide (material ∈ plan_codes plan_df)) as [Hin|Hnin]; [done|].
  destruct (find_level fuel rel (plan_codes plan_df) material ∅)
    as [[lvl v']|] eqn:Hfind; [|done].
  pose proof (find_level_outcome rel (plan_codes plan_df) _ _ _ _ Hfind)
    as (_ & _ & Hres). simpl in Hres.
  destruct Hres as [(n & Hch & ->)|[-> _]]; [|done].
  destruct n as [|n]; [by inversion Hch|].
  destruct (0 <=? Z.of_nat (S n) + 1)%Z eqn:E; intros [=]; lia.
Qed.

Lemma mapM_levels (g : string -> option level_row) materials rows r :
  (forall m r', g m = Some r' -> lr_level r' <> 1%Z) ->
  mapM g materials = Some rows -> r ∈ rows -> lr_level r <> 1%Z.
Proof.
  intros Hg Hm Hr. apply mapM_Some in Hm.
  apply list_elem_of_lookup in Hr as [i Hi].
  destruct (Forall2_lookup_r _ _ _ _ _ Hm Hi) as (m & _ & Hgm).
  by apply (Hg m).
Qed.

(** X18.  The level-one sheet is always empty: no row of the all-levels
    frame has level 1, so the filter [Level == 1] of
    [generate_bom_level1_sheet] keeps nothing, whatever the plan and the
    relation table are. *)
Theorem generate_bom_level1_sheet_empty (f : string -> option float)
    (py_sum : list float -> float)
    (fuel : nat) (rel : relations) (month_cols : list string)
    (plan_df : list plan_row) (sheet : list level_row) :
  generate_bom_level1_sheet f py_sum fuel rel month_cols plan_df = Some sheet ->
  sheet = [].
Proof.
  unfold generate_bom_level1_sheet.
  destruct (calculate_all_levels_requirements f fuel rel month_cols plan_df)
    as [results|]; [|done]. simpl.
  unfold all_levels_frame.
  destruct (mapM _ (merge_sort String.le (dict_keys results)))
    as [rows|] eqn:Hrows; [|done]. simpl.
  intros [= <-].
  destruct (List.filter _ _) as [|r l] eqn:E; [done|]. exfalso.
  assert (Hr : r ∈ List.filter
                 (fun r => bool_decide (lr_level r = 1%Z))
                 (merge_sort level_code_le rows))
    by (rewrite E; apply elem_of_cons; by left).
  apply list_filter_elem in Hr as [Hr H1].
  apply bool_decide_eq_true in H1.
  rewrite merge_sort_Permutation in Hr.
  revert H1. eapply mapM_levels; [|exact Hrows|exact Hr].
  intros m r'. simpl.
  destruct (_get_material_level fuel rel plan_df m) as [lvl|] eqn:El; [|done].
  simpl. intros [= <-]. simpl. intros ->.
  by apply get_material_level_not_one in El.
Qed.

(** X18, instance: the plan of A and B on the example BOM. *)
Lemma generate_bom_level1_sheet_empty_witness :
  generate_bom_level1_sheet decimal_float sum_left 4 bom_example ["Jan"]
    plan_A_and_B
  = Some [].
Proof.
  destruct (generate_bom_level1_sheet decimal_float sum_left 4 bom_example
              ["Jan"] plan_A_and_B) as [sheet|] eqn:E;
    [|vm_compute in E; discriminate].
  by rewrite (generate_bom_level1_sheet_empty _ _ _ _ _ _ _ E).
Defined.
